(** * Code-CloudE workflow engine and compliance calendar: a shallow embedding

    The development embeds two classes of the repository,
    [WorkflowAutomationEngine] (src/core/workflow_automation_engine.js) and
    [ComplianceRevenueEngine] (src/core/compliance_revenue_engine.js), and
    proves properties of their step execution, calendar generation and
    compliance monitoring.

    Modelling conventions.
    - A JavaScript [Date] is its time value: an integer number of
      milliseconds since the epoch, in [Z].  An ISO string produced by
      [toISOString] and parsed back by [new Date] denotes the same time
      value, so [dueDate] fields hold the time value.  The local time zone
      is UTC.
    - Money and percentages are rationals ([Q]); IEEE rounding is not
      modelled.
    - The SQL tables are finite maps keyed by their UNIQUE id column
      (start_code_cloude_system.sh declares [workflow_id] and [calendar_id]
      UNIQUE NOT NULL).  The memory bridge and the evidence chain are
      append-only logs.  Every effect of a call is recorded in a trace.
    - Every clock read of one call sees the same instant [now].
    - The tables of the engines are object literals.  A key that names a
      property of [Object.prototype] ([inheritedKey]) finds that property
      there instead of [undefined].  [executeWorkflowStep] and
      [createComplianceCalendar] are embedded on such keys too.  A workflow
      whose state is such a key is outside the embedding: the statements
      about states the table lacks assume that the state is no such key. *)

From Stdlib Require Import ZArith QArith Lia List Permutation Ascii.
From stdpp Require Import base option list gmap strings pretty.

Open Scope Z_scope.

(** ** The JavaScript Date arithmetic used by the engines *)

Module JSDate.

Definition msPerDay : Z := 1000 * 60 * 60 * 24.

(** Days since the epoch of the civil date [y]-[m]-[d] ([m] in 1..12),
    proleptic Gregorian calendar. *)
Definition days_from_civil (y m d : Z) : Z :=
  let y' := if m <=? 2 then y - 1 else y in
  let era := y' / 400 in
  let yoe := y' - era * 400 in
  let doy := (153 * (if 2 <? m then m - 3 else m + 9) + 2) / 5 + d - 1 in
  let doe := yoe * 365 + yoe / 4 - yoe / 100 + doy in
  era * 146097 + doe - 719468.

(** The civil date (year, month in 1..12, day) of a day number. *)
Definition civil_from_days (z : Z) : Z * Z * Z :=
  let z' := z + 719468 in
  let era := z' / 146097 in
  let doe := z' - era * 146097 in
  let yoe := (doe - doe / 1460 + doe / 36524 - doe / 146096) / 365 in
  let doy := doe - (365 * yoe + yoe / 4 - yoe / 100) in
  let mp := (5 * doy + 2) / 153 in
  let d := doy - (153 * mp + 2) / 5 + 1 in
  let m := if mp <? 10 then mp + 3 else mp - 9 in
  (yoe + era * 400 + (if m <=? 2 then 1 else 0), m, d).

Definition Day (t : Z) : Z := t / msPerDay.
Definition TimeWithinDay (t : Z) : Z := t mod msPerDay.

(** [MakeDay(year, month, date)] of ECMA-262: month is 0-based and may
    overflow into the following years. *)
Definition MakeDay (year month date : Z) : Z :=
  let ym := year + month / 12 in
  let mn := month mod 12 in
  days_from_civil ym (mn + 1) 1 + date - 1.

(** [new Date(year, monthIndex, day)]: years 0..99 mean 1900..1999. *)
Definition mkDate (year monthIndex day : Z) : Z :=
  let yr := if (0 <=? year) && (year <=? 99) then 1900 + year else year in
  MakeDay yr monthIndex day * msPerDay.

Definition getFullYear (t : Z) : Z := (civil_from_days (Day t)).1.1.
Definition getMonth (t : Z) : Z := (civil_from_days (Day t)).1.2 - 1.
Definition getDate (t : Z) : Z := (civil_from_days (Day t)).2.

(** [d.setFullYear(year)]: same month, day and time of day in [year]. *)
Definition setFullYear (t year : Z) : Z :=
  MakeDay year (getMonth t) (getDate t) * msPerDay + TimeWithinDay t.

(** [Math.ceil(x / y)] for integers [x] and [y > 0]. *)
Definition ceilDiv (x y : Z) : Z := - ((- x) / y).

End JSDate.

(** ** Data model *)

Definition dquote : string := String (Ascii.ascii_of_nat 34) EmptyString.

(** [a || b] on strings: the empty string and [undefined] are falsy. *)
Definition str_or (o : option string) (d : string) : string :=
  match o with
  | Some s => if String.eqb s "" then d else s
  | None => d
  end.

(** [a || b] on numbers: [0] and [undefined] are falsy. *)
Definition num_or (o : option Z) (d : Z) : Z :=
  match o with
  | Some v => if v =? 0 then d else v
  | None => d
  end.

(** *** Workflow instances (workflow_automation_engine.js) *)

Inductive StepStatus := pending | in_progress | completed | failed.

Definition status_eqb (a b : StepStatus) : bool :=
  match a, b with
  | pending, pending | in_progress, in_progress
  | completed, completed | failed, failed => true
  | _, _ => false
  end.

Record License := {
  lic_name : string; lic_authority : string; lic_required : bool; lic_cost : Z
}.

Record CalendarStub := { stub_event : string; stub_dueDate : Z; stub_cost : Z }.

(** The objects returned by the step handlers; [result_success] is their
    [success] field. *)
Inductive StepResult :=
| NameCheckRejected (error : string) (suggestions : list string)
| NameCheckPassed (available : bool) (businessName state : string)
    (checkedDate : Z) (validationPassed : bool)
| DocumentGenerated (success : bool) (documentPath filename : string)
    (compliant : bool) (generatedDate : Z)
| NameReserved (reservationId : string) (expirationDate : Z) (cost : Z)
| AgentSecured (agentName agentAddress : string) (cost : Z)
| ArticlesFiled (filingNumber : string) (filingDate effectiveDate : Z) (cost : Z)
| LicensesIdentified (licenses : list License) (totalLicenses : Z) (estimatedCost : Z)
| ComplianceSetUp (complianceCalendar : list CalendarStub) (totalEvents : Z)
    (nextDueDate : Z)
| HandlerFailed (error : string).

Definition result_success (r : StepResult) : bool :=
  match r with
  | NameCheckRejected _ _ => false
  | NameCheckPassed _ _ _ _ _ => true
  | DocumentGenerated s _ _ _ _ => s
  | NameReserved _ _ _ | AgentSecured _ _ _ | ArticlesFiled _ _ _ _
  | LicensesIdentified _ _ _ | ComplianceSetUp _ _ _ => true
  | HandlerFailed _ => false
  end.

Record StepSpec := {
  spec_id : string; spec_name : string; spec_duration : Z; spec_critical : bool
}.

Record Automation := { automated : bool; method : string }.

Record Step := {
  step_id : string;
  step_name : string;
  step_duration : Z;
  step_critical : bool;
  step_status : StepStatus;
  step_startDate : option Z;
  step_completedDate : option Z;
  step_result : option StepResult;
  step_dependencies : list string;
  step_automation : Automation
}.

Record Requirements := {
  req_registeredAgent : bool; req_purpose : bool; req_members : bool;
  req_filingFee : Z; req_annualReportFee : option Z
}.

Record BaseWorkflow := {
  bw_name : string;
  bw_steps : list StepSpec;
  bw_totalDays : Z;
  bw_cost : Z;
  bw_advantages : list string;
  bw_requirements : Requirements;
  bw_optimizations : option (list string)
}.

Record Workflow := {
  wf_id : string;
  wf_businessName : string;
  wf_state : string;
  wf_type : string;
  wf_status : string;
  wf_baseWorkflow : string;
  wf_steps : list Step;
  wf_totalEstimatedDays : Z;
  wf_totalEstimatedCost : Z;
  wf_createdDate : Z;
  wf_nextAction : option string;   (* the step, by its id *)
  wf_progress : Q;
  wf_smartOptimizations : option (list string)
}.

(** A row of table [llc_formation.workflows]. *)
Record WorkflowRow := {
  row_business_name : string;
  row_state : string;
  row_status : string;
  row_workflow_data : Workflow;
  row_created_at : Z;
  row_updated_at : Z;
  row_completed_at : option Z
}.

Record FormationData := {
  fd_businessName : string;
  fd_state : string;
  fd_expedited : bool;
  fd_budget : option Z;
  fd_timeline : option string;
  fd_businessType : option string
}.

Record StepData := {
  sd_agentName : option string;
  sd_agentAddress : option string;
  sd_other : list (string * string)
}.

(** What the language model may answer to the optimisation prompt. *)
Record AiOptimization := {
  ai_steps : option (list StepSpec);
  ai_totalDays : option Z;
  ai_cost : option Z;
  ai_optimizations : option (list string)
}.

(** *** Compliance calendars (compliance_revenue_engine.js) *)

Inductive EventType :=
| annual_report | tax_filing | license_renewal | registered_agent
| other_type (name : string).

(** The spec's event status.  The engine's events carry no such field: a
    generated event has [ev_status = None], and the engine neither reads
    nor writes the field of a stored one. *)
Inductive EventStatus := scheduled | actioned | overdue_unactioned.

Inductive EventDetails :=
| TaxDetails (taxType period : string) (rate : option string) (form : option string)
| LicenseDetails (licenseType renewal : string)
| AgentDetails (agentName state : string).

Record ComplianceEvent := {
  ev_id : string;
  ev_type : EventType;
  ev_title : string;
  ev_dueDate : Z;
  ev_cost : Q;
  ev_penalty : Q;
  ev_critical : bool;
  ev_automatable : bool;
  ev_automationTrigger : Z;
  ev_revenueOpportunity : Q;
  ev_details : option EventDetails;
  ev_status : option EventStatus
}.

Record RevenueOpportunity := {
  ro_eventId : string;
  ro_eventType : EventType;
  ro_title : string;
  ro_dueDate : Z;
  ro_revenueOpportunity : Q;
  ro_automatable : bool
}.

Record ComplianceCalendar := {
  cal_id : string;
  cal_businessName : string;
  cal_state : string;
  cal_ein : string;
  cal_formationDate : Z;
  cal_businessType : string;
  cal_events : list ComplianceEvent;
  cal_totalEvents : Z;
  cal_annualComplianceCost : Q;
  cal_revenueOpportunities : list RevenueOpportunity;
  cal_createdDate : Z;
  cal_nextDueEvent : option ComplianceEvent
}.

(** A row of table [llc_formation.compliance_calendars]. *)
Record CalendarRow := {
  crow_business_name : string;
  crow_state : string;
  crow_ein : string;
  crow_calendar_data : ComplianceCalendar;
  crow_created_at : Z
}.

Record CompanyData := {
  cd_businessName : string;
  cd_state : string;
  cd_formationDate : Z;
  cd_ein : string;
  cd_businessType : string
}.

Record TaxObligation := { tax_type : string; tax_frequency : string; tax_rate : string }.

Record StateRequirements := {
  sr_name : string;
  sr_annualReport_required : bool;
  sr_annualReport_fee : Q;
  sr_annualReport_penalty : Q;
  sr_businessLicense_required : bool;
  sr_businessLicense_renewal : string;
  sr_businessLicense_averageFee : Q;
  sr_taxObligations : list TaxObligation;
  sr_registeredAgent_annualCost : Q
}.

(** An event as listed in a report: the event spread together with the
    field the monitor adds. *)
Record ReportedEvent := {
  rep_event : ComplianceEvent;
  rep_daysOverdue : option Z;
  rep_daysUntilDue : option Z
}.

Record RankedOpportunity := { rk_event : ReportedEvent; rk_urgency : string }.

Record ComplianceReport := {
  rpt_calendarId : string;
  rpt_businessName : string;
  rpt_state : string;
  rpt_reportDate : Z;
  rpt_status : string;
  rpt_upcomingCount : Z;
  rpt_overdueCount : Z;
  rpt_actionableCount : Z;
  rpt_upcoming : list ReportedEvent;
  rpt_overdue : list ReportedEvent;
  rpt_actionable : list ComplianceEvent;
  rpt_recommendations : string;
  rpt_revenueOpportunities : list RankedOpportunity
}.

(** The object returned by [executeAutomatedCompliance]. *)
Record AutomationResult := {
  ar_eventId : string;
  ar_eventType : EventType;
  ar_success : bool;
  ar_action : option string;
  ar_revenue : Q;
  ar_error : option string
}.

(** ** The store, the effect trace and the monad of the engines *)

Inductive DocKind := StateArticles | EINForm | OperatingAgreement.

Inductive DocOutcome :=
| DocReturned (success : bool) (documentPath filename : string) (flag : bool)
| DocThrows (msg : string).

(** The external collaborators whose answers the engines do not control:
    the document engine and the language model.  [None] stands for a call
    that throws. *)
Record Collaborators := {
  generateDocument : DocKind → Z → string → string → StepData → DocOutcome;
  optimizeWithAI : Z → BaseWorkflow → FormationData → option AiOptimization;
  recommend : Z → string → list ReportedEvent → list ReportedEvent → option string
}.

Inductive Effect :=
| SqlInsertWorkflow (workflowId : string)
| SqlUpdateWorkflowData (workflowId : string)
| SqlCompleteWorkflow (workflowId : string)
| SqlInsertCalendar (calendarId : string)
| MemoryStored (kind subject : string)
| EvidenceMinted (evidenceType caseId : string)
| StepHandlerInvoked (workflowId stepId : string) (statusAtCall : option StepStatus)
| AutomationInvoked (calendarId eventId : string)
| ConsoleError (message : string).

Record Store := {
  workflows : gmap string WorkflowRow;
  calendars : gmap string CalendarRow;
  trace : list Effect
}.

Definition emptyStore : Store :=
  {| workflows := ∅; calendars := ∅; trace := [] |}.

Inductive Outcome (A : Type) :=
| Ret (a : A)
| Throw (message : string).
Arguments Ret {A} a.
Arguments Throw {A} message.

Definition M (A : Type) : Type := Store → Outcome A * Store.

#[export] Instance M_ret : MRet M := λ A a s, (Ret a, s).
#[export] Instance M_bind : MBind M := λ A B f m s,
  match m s with
  | (Ret a, s') => f a s'
  | (Throw e, s') => (Throw e, s')
  end.

Definition throw {A} (message : string) : M A := λ s, (Throw message, s).

(** [try { body } catch (error) { handler }]: what the body did before it
    threw stays done. *)
Definition try_catch {A} (body : M A) (handler : string → M A) : M A := λ s,
  match body s with
  | (Ret a, s') => (Ret a, s')
  | (Throw e, s') => handler e s'
  end.

Definition getStore : M Store := λ s, (Ret s, s).

(** The store after the effects [es] have been appended to its trace. *)
Definition logged (s : Store) (es : list Effect) : Store :=
  {| workflows := workflows s; calendars := calendars s; trace := trace s ++ es |}.

Definition emit (e : Effect) : M unit := λ s, (Ret tt, logged s [e]).

Definition setWorkflows (w : gmap string WorkflowRow) : M unit := λ s,
  (Ret tt, {| workflows := w; calendars := calendars s; trace := trace s |}).

Definition setCalendars (c : gmap string CalendarRow) : M unit := λ s,
  (Ret tt, {| workflows := workflows s; calendars := c; trace := trace s |}).

Definition when_ (b : bool) (m : M unit) : M unit := if b then m else mret tt.

Fixpoint forEach {A B} (f : A → M B) (l : list A) : M (list B) :=
  match l with
  | [] => mret []
  | x :: l' => r ← f x; rs ← forEach f l'; mret (r :: rs)
  end.

(** The value a call returns and the store it leaves. *)
Definition run {A} (m : M A) (s : Store) : Outcome A * Store := m s.

(** *** SQL statements *)

(** [SELECT * FROM llc_formation.workflows WHERE workflow_id = ...]: the
    first row, if any. *)
Definition selectWorkflow (workflowId : string) : M (option WorkflowRow) :=
  s ← getStore; mret (workflows s !! workflowId).

(** [INSERT INTO llc_formation.workflows]: the id column is UNIQUE, and the
    database refuses a second row of an id.  The text stands for the
    message of its reply, which the engines pass on as [error.message]. *)
Definition insertWorkflow (workflowId : string) (row : WorkflowRow) : M unit :=
  s ← getStore;
  match workflows s !! workflowId with
  | Some _ => throw "duplicate key value violates unique constraint"
  | None =>
      setWorkflows (<[workflowId := row]> (workflows s));;
      emit (SqlInsertWorkflow workflowId)
  end.

(** [UPDATE llc_formation.workflows SET ... WHERE workflow_id = ...]. *)
Definition updateWorkflow (workflowId : string) (f : WorkflowRow → WorkflowRow)
    (e : Effect) : M unit :=
  s ← getStore;
  setWorkflows (alter f workflowId (workflows s));;
  emit e.

Definition selectCalendar (calendarId : string) : M (option CalendarRow) :=
  s ← getStore; mret (calendars s !! calendarId).

Definition insertCalendar (calendarId : string) (row : CalendarRow) : M unit :=
  s ← getStore;
  match calendars s !! calendarId with
  | Some _ => throw "duplicate key value violates unique constraint"
  | None =>
      setCalendars (<[calendarId := row]> (calendars s));;
      emit (SqlInsertCalendar calendarId)
  end.

Definition storeMemory (kind subject : string) : M unit :=
  emit (MemoryStored kind subject).

Definition mintEvidence (evidenceType caseId : string) : M unit :=
  emit (EvidenceMinted evidenceType caseId).

Definition consoleError (message : string) : M unit :=
  emit (ConsoleError message).

(** ** WorkflowAutomationEngine *)

(** ** Property lookup in an object literal *)

(** The own property names of [Object.prototype]: [table[key]] finds one of
    them, a function or the prototype itself and so a truthy value, when
    the literal [table] has no own property [key]. *)
Definition objectPrototypeKeys : list string :=
  ["constructor"; "__defineGetter__"; "__defineSetter__"; "hasOwnProperty";
   "__lookupGetter__"; "__lookupSetter__"; "isPrototypeOf";
   "propertyIsEnumerable"; "toString"; "valueOf"; "__proto__";
   "toLocaleString"].

Definition inheritedKey (key : string) : bool :=
  existsb (String.eqb key) objectPrototypeKeys.

Module WorkflowAutomationEngine.

Definition mkSpec (id name : string) (duration : Z) (critical : bool) : StepSpec :=
  {| spec_id := id; spec_name := name; spec_duration := duration;
     spec_critical := critical |}.

Definition formationSteps (agent filing : string) (filingDays licenseDays : Z)
    : list StepSpec :=
  [ mkSpec "name_check" "Business Name Availability Check" 1 true;
    mkSpec "name_reservation" "Name Reservation (Optional)" 1 false;
    mkSpec "registered_agent" agent 1 true;
    mkSpec "articles_prep" "Prepare Articles of Organization" 1 true;
    mkSpec "articles_filing" filing filingDays true;
    mkSpec "ein_application" "Apply for Federal EIN" 1 true;
    mkSpec "operating_agreement" "Create Operating Agreement" 2 false;
    mkSpec "business_licenses" "Identify Business Licenses" licenseDays false;
    mkSpec "compliance_setup" "Setup Compliance Calendar" 1 true ].

(** [this.stateWorkflows]: the own properties of the literal.  For a state
    that is an [inheritedKey] the source finds the inherited property
    instead; [createFormationWorkflow] and [executeArticlesFiling] are
    embedded for the states that are no such key. *)
Definition stateWorkflows (state : string) : option BaseWorkflow :=
  if String.eqb state "FL" then Some
    {| bw_name := "Florida LLC Formation";
       bw_steps := formationSteps "Secure Registered Agent"
                     "File Articles with Florida DOS" 5 3;
       bw_totalDays := 15; bw_cost := 125;
       bw_advantages := ["No state income tax"; "Business-friendly laws";
                         "No publication requirement"];
       bw_requirements := {| req_registeredAgent := true; req_purpose := false;
                             req_members := true; req_filingFee := 125;
                             req_annualReportFee := None |};
       bw_optimizations := None |}
  else if String.eqb state "WY" then Some
    {| bw_name := "Wyoming LLC Formation";
       bw_steps := formationSteps "Secure Wyoming Registered Agent"
                     "File Articles with Wyoming SOS" 3 2;
       bw_totalDays := 12; bw_cost := 100;
       bw_advantages := ["No state income tax"; "Strong privacy protection";
                         "Low fees"; "Fast processing"];
       bw_requirements := {| req_registeredAgent := true; req_purpose := false;
                             req_members := false; req_filingFee := 100;
                             req_annualReportFee := None |};
       bw_optimizations := None |}
  else if String.eqb state "IL" then Some
    {| bw_name := "Illinois LLC Formation";
       bw_steps := formationSteps "Secure Registered Agent"
                     "File Articles with Illinois SOS" 7 5;
       bw_totalDays := 19; bw_cost := 150;
       bw_advantages := ["Central location"; "Established business laws";
                         "No publication requirement"];
       bw_requirements := {| req_registeredAgent := true; req_purpose := true;
                             req_members := true; req_filingFee := 150;
                             req_annualReportFee := None |};
       bw_optimizations := None |}
  else None.

(** *** Utility methods *)

(** [dependencies[stepId] || []]: the list of the table, and the empty list
    for an id the table lacks.  For an id that is an [inheritedKey] the
    source returns the inherited property, which is no list:
    [checkStepDependencies], the one place that iterates over the value,
    throws there, and the empty list stands for the value where it is
    only stored. *)
Definition getStepDependencies (stepId : string) : list string :=
  if String.eqb stepId "name_check" then []
  else if String.eqb stepId "name_reservation" then ["name_check"]
  else if String.eqb stepId "registered_agent" then ["name_check"]
  else if String.eqb stepId "articles_prep" then ["name_check"; "registered_agent"]
  else if String.eqb stepId "articles_filing" then ["articles_prep"]
  else if String.eqb stepId "ein_application" then ["articles_filing"]
  else if String.eqb stepId "operating_agreement" then ["ein_application"]
  else if String.eqb stepId "business_licenses" then ["articles_filing"]
  else if String.eqb stepId "compliance_setup" then ["articles_filing"]
  else [].

(** [automations[stepId] || { automated: false, method: 'manual' }]; for an
    id that is an [inheritedKey] the source finds the inherited property,
    whose [automated] is undefined and so falsy as in the default. *)
Definition getStepAutomation (stepId state : string) : Automation :=
  if String.eqb stepId "name_check" then
    {| automated := true; method := "api_call" |}
  else if String.eqb stepId "articles_prep" then
    {| automated := true; method := "document_generation" |}
  else if String.eqb stepId "ein_application" then
    {| automated := true; method := "document_generation" |}
  else if String.eqb stepId "operating_agreement" then
    {| automated := true; method := "ai_generation" |}
  else if String.eqb stepId "compliance_setup" then
    {| automated := true; method := "calendar_generation" |}
  else {| automated := false; method := "manual" |}.

(** [workflow.steps.find(s => s.id === stepId)]. *)
Definition findStep (stepId : string) (steps : list Step) : option Step :=
  List.find (λ s, String.eqb (step_id s) stepId) steps.

Definition isCompleted (s : Step) : bool := status_eqb (step_status s) completed.

Record DependencyCheck := { allCompleted : bool; missing : list string }.

Definition dependencyMissing (workflow : Workflow) (depId : string) : bool :=
  match findStep depId (wf_steps workflow) with
  | None => true
  | Some depStep => negb (isCompleted depStep)
  end.

(** [for (const depId of dependencies)] throws a TypeError when
    [dependencies] is a property inherited from [Object.prototype]. *)
Definition checkStepDependencies (workflow : Workflow) (stepId : string)
    : M DependencyCheck :=
  if inheritedKey stepId then throw "dependencies is not iterable"
  else
    let dependencies := getStepDependencies stepId in
    let missing := List.filter (dependencyMissing workflow) dependencies in
    mret {| allCompleted := (length missing =? 0)%nat; missing := missing |}.

Definition getNextPendingStep (workflow : Workflow) : option Step :=
  List.find (λ step, status_eqb (step_status step) pending) (wf_steps workflow).

Record NextAction := {
  na_stepId : string; na_stepName : string; na_automated : bool;
  na_estimatedDuration : Z; na_critical : bool
}.

Definition getNextActions (workflow : Workflow) : list NextAction :=
  match getNextPendingStep workflow with
  | None => []
  | Some nextStep =>
      [ {| na_stepId := step_id nextStep; na_stepName := step_name nextStep;
           na_automated := automated (step_automation nextStep);
           na_estimatedDuration := step_duration nextStep;
           na_critical := step_critical nextStep |} ]
  end.

Record AvailableAutomation := {
  aa_stepId : string; aa_stepName : string; aa_method : string
}.

Definition getAvailableAutomations (workflow : Workflow) : list AvailableAutomation :=
  List.map
    (λ step, {| aa_stepId := step_id step; aa_stepName := step_name step;
                aa_method := method (step_automation step) |})
    (List.filter
       (λ step, automated (step_automation step)
                && status_eqb (step_status step) pending)
       (wf_steps workflow)).

(** *** Mutation of the step object found by [find] *)

Definition setStep (s : Step) (status : StepStatus) (startDate completedDate : option Z)
    (result : option StepResult) : Step :=
  {| step_id := step_id s; step_name := step_name s;
     step_duration := step_duration s; step_critical := step_critical s;
     step_status := status; step_startDate := startDate;
     step_completedDate := completedDate; step_result := result;
     step_dependencies := step_dependencies s;
     step_automation := step_automation s |}.

(** [step.status = 'in_progress'; step.startDate = now]. *)
Definition markInProgress (now : Z) (s : Step) : Step :=
  setStep s in_progress (Some now) (step_completedDate s) (step_result s).

(** [step.status = result.success ? 'completed' : 'failed';
    step.completedDate = now; step.result = result]. *)
Definition recordResult (now : Z) (result : StepResult) (s : Step) : Step :=
  setStep s (if result_success result then completed else failed)
    (step_startDate s) (Some now) (Some result).

(** The step object is shared with [workflow.steps]: a write to it is a
    write to the first step of that id in the list. *)
Fixpoint updateStep (stepId : string) (f : Step → Step) (steps : list Step)
    : list Step :=
  match steps with
  | [] => []
  | s :: rest =>
      if String.eqb (step_id s) stepId then f s :: rest
      else s :: updateStep stepId f rest
  end.

Definition withSteps (w : Workflow) (steps : list Step) : Workflow :=
  {| wf_id := wf_id w; wf_businessName := wf_businessName w;
     wf_state := wf_state w; wf_type := wf_type w; wf_status := wf_status w;
     wf_baseWorkflow := wf_baseWorkflow w; wf_steps := steps;
     wf_totalEstimatedDays := wf_totalEstimatedDays w;
     wf_totalEstimatedCost := wf_totalEstimatedCost w;
     wf_createdDate := wf_createdDate w; wf_nextAction := wf_nextAction w;
     wf_progress := wf_progress w;
     wf_smartOptimizations := wf_smartOptimizations w |}.

Definition withProgress (w : Workflow) (progress : Q) (nextAction : option string)
    : Workflow :=
  {| wf_id := wf_id w; wf_businessName := wf_businessName w;
     wf_state := wf_state w; wf_type := wf_type w; wf_status := wf_status w;
     wf_baseWorkflow := wf_baseWorkflow w; wf_steps := wf_steps w;
     wf_totalEstimatedDays := wf_totalEstimatedDays w;
     wf_totalEstimatedCost := wf_totalEstimatedCost w;
     wf_createdDate := wf_createdDate w; wf_nextAction := nextAction;
     wf_progress := progress;
     wf_smartOptimizations := wf_smartOptimizations w |}.

(** [workflow.steps.filter(s => s.status === 'completed').length]. *)
Definition completedSteps (steps : list Step) : nat :=
  length (List.filter isCompleted steps).

(** [(completedSteps / workflow.steps.length) * 100].  The engine evaluates
    it only after it has found a step, so on a list that is not empty. *)
Definition computeProgress (steps : list Step) : Q :=
  (inject_Z (Z.of_nat (completedSteps steps))
     / inject_Z (Z.of_nat (length steps))) * 100.

(** *** Step execution methods *)

(** [toLowerCase], on the letters A to Z. *)
Definition lowerAscii (c : Ascii.ascii) : Ascii.ascii :=
  let n := Ascii.nat_of_ascii c in
  if ((65 <=? n) && (n <=? 90))%nat then Ascii.ascii_of_nat (n + 32) else c.

Fixpoint toLowerCase (s : string) : string :=
  match s with
  | EmptyString => EmptyString
  | String c s' => String (lowerAscii c) (toLowerCase s')
  end.

(** [hay.includes(needle)]. *)
Fixpoint includes (needle hay : string) : bool :=
  String.prefix needle hay
  || match hay with
     | EmptyString => false
     | String _ hay' => includes needle hay'
     end.

Definition executeNameCheck (now : Z) (workflow : Workflow) (stepData : StepData)
    : M StepResult :=
  let businessName := wf_businessName workflow in
  let state := wf_state workflow in
  let nameValid :=
    includes "llc" (toLowerCase businessName)
    || includes "limited liability company" (toLowerCase businessName) in
  if negb nameValid then
    mret (NameCheckRejected
            ("Business name must include " +:+ dquote +:+ "LLC" +:+ dquote
             +:+ " or " +:+ dquote +:+ "Limited Liability Company" +:+ dquote)
            [businessName +:+ " LLC";
             businessName +:+ " Limited Liability Company"])
  else
    let available := true in
    mret (NameCheckPassed available businessName state now nameValid).

Definition generate (ext : Collaborators) (kind : DocKind) (now : Z)
    (workflow : Workflow) (stepData : StepData) : M StepResult :=
  match generateDocument ext kind now (wf_businessName workflow)
          (wf_state workflow) stepData with
  | DocReturned success documentPath filename flag =>
      mret (DocumentGenerated success documentPath filename flag now)
  | DocThrows message => mret (HandlerFailed message)
  end.

Definition executeArticlesPreparation ext := generate ext StateArticles.
Definition executeEINApplication ext := generate ext EINForm.
Definition executeOperatingAgreement ext := generate ext OperatingAgreement.

Definition executeNameReservation (now : Z) (workflow : Workflow)
    (stepData : StepData) : M StepResult :=
  mret (NameReserved ("NR-" +:+ wf_state workflow +:+ "-" +:+ pretty now)
          (now + 120 * 24 * 60 * 60 * 1000) 25).

Definition executeRegisteredAgent (now : Z) (workflow : Workflow)
    (stepData : StepData) : M StepResult :=
  mret (AgentSecured
          (str_or (sd_agentName stepData) "CloudEsq Registered Agent Services")
          (str_or (sd_agentAddress stepData)
             ("123 Main St, " +:+ wf_state workflow))
          99).

Definition executeArticlesFiling (now : Z) (workflow : Workflow)
    (stepData : StepData) : M StepResult :=
  match stateWorkflows (wf_state workflow) with
  | None => throw "Cannot read properties of undefined (reading 'cost')"
  | Some base =>
      mret (ArticlesFiled (wf_state workflow +:+ "-LLC-" +:+ pretty now)
              now now (bw_cost base))
  end.

Definition executeBusinessLicenses (now : Z) (workflow : Workflow)
    (stepData : StepData) : M StepResult :=
  let licenses :=
    [ {| lic_name := "General Business License"; lic_authority := "Local";
         lic_required := true; lic_cost := 50 |};
      {| lic_name := "State Business Registration";
         lic_authority := wf_state workflow;
         lic_required := true; lic_cost := 25 |} ] in
  mret (LicensesIdentified licenses (Z.of_nat (length licenses))
          (foldl (λ sum license, sum + lic_cost license) 0 licenses)).

Definition executeComplianceSetup (now : Z) (workflow : Workflow)
    (stepData : StepData) : M StepResult :=
  match stateWorkflows (wf_state workflow) with
  | None => throw "Cannot read properties of undefined (reading 'requirements')"
  | Some base =>
      let annual :=
        {| stub_event := "Annual Report Due";
           stub_dueDate := JSDate.mkDate (JSDate.getFullYear now + 1) 4 1;
           stub_cost := num_or (req_annualReportFee (bw_requirements base)) 50 |} in
      let federal :=
        {| stub_event := "Federal Tax Return Due";
           stub_dueDate := JSDate.mkDate (JSDate.getFullYear now + 1) 2 15;
           stub_cost := 0 |} in
      mret (ComplianceSetUp [annual; federal] 2 (stub_dueDate annual))
  end.

(** The [switch (stepId)] of [executeWorkflowStep].  The trace records the
    call of a handler together with the status the step has, in the
    workflow object handed over, at that moment. *)
Definition runStepHandler (ext : Collaborators) (now : Z) (workflowId : string)
    (workflow : Workflow) (stepId : string) (stepData : StepData) : M StepResult :=
  let handler (h : Z → Workflow → StepData → M StepResult) : M StepResult :=
    emit (StepHandlerInvoked workflowId stepId
            (step_status <$> findStep stepId (wf_steps workflow)));;
    h now workflow stepData in
  if String.eqb stepId "name_check" then handler executeNameCheck
  else if String.eqb stepId "name_reservation" then handler executeNameReservation
  else if String.eqb stepId "registered_agent" then handler executeRegisteredAgent
  else if String.eqb stepId "articles_prep" then handler (executeArticlesPreparation ext)
  else if String.eqb stepId "articles_filing" then handler executeArticlesFiling
  else if String.eqb stepId "ein_application" then handler (executeEINApplication ext)
  else if String.eqb stepId "operating_agreement" then handler (executeOperatingAgreement ext)
  else if String.eqb stepId "business_licenses" then handler executeBusinessLicenses
  else if String.eqb stepId "compliance_setup" then handler executeComplianceSetup
  else throw ("Unknown step type: " +:+ stepId).

(** *** completeWorkflow *)

Definition completeRow (now : Z) (row : WorkflowRow) : WorkflowRow :=
  {| row_business_name := row_business_name row; row_state := row_state row;
     row_status := "completed"; row_workflow_data := row_workflow_data row;
     row_created_at := row_created_at row; row_updated_at := row_updated_at row;
     row_completed_at := Some now |}.

Definition completeWorkflow (now : Z) (workflowId : string) (workflow : Workflow)
    : M unit :=
  updateWorkflow workflowId (completeRow now) (SqlCompleteWorkflow workflowId);;
  storeMemory "workflow_completion" workflowId.

(** *** executeWorkflowStep *)

Inductive ExecResponse :=
| AlreadyCompleted (result : option StepResult)
| DependenciesNotCompleted (missing : list string)
| StepExecuted (stepResult : StepResult) (workflowProgress : Q)
    (nextAction : option string) (workflowCompleted : bool)
| ExecError (error : string).

Definition saveWorkflowData (now : Z) (workflow : Workflow) (row : WorkflowRow)
    : WorkflowRow :=
  {| row_business_name := row_business_name row; row_state := row_state row;
     row_status := row_status row; row_workflow_data := workflow;
     row_created_at := row_created_at row; row_updated_at := now;
     row_completed_at := row_completed_at row |}.

Definition executeWorkflowStep (ext : Collaborators) (now : Z)
    (workflowId stepId : string) (stepData : StepData) : M ExecResponse :=
  try_catch
    (workflowResult ← selectWorkflow workflowId;
     match workflowResult with
     | None => throw "Workflow not found"
     | Some row =>
       let workflow := row_workflow_data row in
       match findStep stepId (wf_steps workflow) with
       | None => throw "Step not found in workflow"
       | Some step =>
         if isCompleted step then mret (AlreadyCompleted (step_result step))
         else
           dependenciesCompleted ← checkStepDependencies workflow stepId;
           if negb (allCompleted dependenciesCompleted) then
             mret (DependenciesNotCompleted (missing dependenciesCompleted))
           else
             let workflow1 :=
               withSteps workflow
                 (updateStep stepId (markInProgress now) (wf_steps workflow)) in
             result ← runStepHandler ext now workflowId workflow1 stepId stepData;
             let workflow2 :=
               withSteps workflow1
                 (updateStep stepId (recordResult now result) (wf_steps workflow1)) in
             let progress := computeProgress (wf_steps workflow2) in
             let workflow3 :=
               withProgress workflow2 progress
                 (step_id <$> getNextPendingStep workflow2) in
             updateWorkflow workflowId (saveWorkflowData now workflow3)
               (SqlUpdateWorkflowData workflowId);;
             storeMemory "workflow_step_execution" workflowId;;
             when_ (Qeq_bool (wf_progress workflow3) 100)
               (completeWorkflow now workflowId workflow3);;
             mret (StepExecuted result (wf_progress workflow3)
                     (wf_nextAction workflow3)
                     (Qeq_bool (wf_progress workflow3) 100))
       end
     end)
    (λ error,
       consoleError ("Error executing workflow step " +:+ stepId +:+ ":");;
       mret (ExecError error)).

(** *** createFormationWorkflow *)

Definition optimizeWorkflowWithAI (ext : Collaborators) (now : Z)
    (baseWorkflow : BaseWorkflow) (formationData : FormationData) : M BaseWorkflow :=
  match optimizeWithAI ext now baseWorkflow formationData with
  | Some aiOptimization =>
      mret {| bw_name := bw_name baseWorkflow;
              bw_steps := default (bw_steps baseWorkflow) (ai_steps aiOptimization);
              bw_totalDays := num_or (ai_totalDays aiOptimization)
                                (bw_totalDays baseWorkflow);
              bw_cost := num_or (ai_cost aiOptimization) (bw_cost baseWorkflow);
              bw_advantages := bw_advantages baseWorkflow;
              bw_requirements := bw_requirements baseWorkflow;
              bw_optimizations :=
                Some (default [] (ai_optimizations aiOptimization)) |}
  | None =>
      consoleError "AI optimization failed, using base workflow:";;
      mret baseWorkflow
  end.

Definition newStep (state : string) (step : StepSpec) : Step :=
  {| step_id := spec_id step; step_name := spec_name step;
     step_duration := spec_duration step; step_critical := spec_critical step;
     step_status := pending; step_startDate := None;
     step_completedDate := None; step_result := None;
     step_dependencies := getStepDependencies (spec_id step);
     step_automation := getStepAutomation (spec_id step) state |}.

Inductive CreateResponse :=
| Created (workflowId : string) (workflow : Workflow)
    (nextSteps : list NextAction) (automation : list AvailableAutomation)
| CreateError (error : string).

Definition createFormationWorkflow (ext : Collaborators) (now : Z)
    (formationData : FormationData) : M CreateResponse :=
  try_catch
    (let businessName := fd_businessName formationData in
     let state := fd_state formationData in
     match stateWorkflows state with
     | None => throw ("Unsupported state: " +:+ state +:+ ". Supported: FL, WY, IL")
     | Some baseWorkflow =>
       optimizedWorkflow ← optimizeWorkflowWithAI ext now baseWorkflow formationData;
       let workflowId := "WF-" +:+ state +:+ "-" +:+ pretty now in
       let workflow :=
         {| wf_id := workflowId; wf_businessName := businessName;
            wf_state := state; wf_type := "llc_formation";
            wf_status := "created"; wf_baseWorkflow := bw_name baseWorkflow;
            wf_steps := newStep state <$> bw_steps optimizedWorkflow;
            wf_totalEstimatedDays := bw_totalDays optimizedWorkflow;
            wf_totalEstimatedCost := bw_cost optimizedWorkflow;
            wf_createdDate := now;
            wf_nextAction := spec_id <$> head (bw_steps optimizedWorkflow);
            wf_progress := 0;
            wf_smartOptimizations := bw_optimizations optimizedWorkflow |} in
       insertWorkflow workflowId
         {| row_business_name := businessName; row_state := state;
            row_status := "created"; row_workflow_data := workflow;
            row_created_at := now; row_updated_at := now;
            row_completed_at := None |};;
       storeMemory "workflow_creation" workflowId;;
       mintEvidence "formation_workflow" workflowId;;
       mret (Created workflowId workflow (getNextActions workflow)
               (getAvailableAutomations workflow))
     end)
    (λ error,
       consoleError "Error creating workflow:";;
       mret (CreateError error)).

End WorkflowAutomationEngine.

(** ** Array.prototype.sort *)

(** [Array.prototype.sort] is stable: an insertion sort on the order
    [le x y], which stands for [compare(x, y) <= 0]. *)
Fixpoint insertBy {A} (le : A → A → bool) (x : A) (l : list A) : list A :=
  match l with
  | [] => [x]
  | y :: l' => if le x y then x :: l else y :: insertBy le x l'
  end.

Definition sortBy {A} (le : A → A → bool) (l : list A) : list A :=
  foldr (insertBy le) [] l.

(** ** ComplianceRevenueEngine *)

Module ComplianceRevenueEngine.

Definition mkTax (type frequency rate : string) : TaxObligation :=
  {| tax_type := type; tax_frequency := frequency; tax_rate := rate |}.

(** [this.complianceRequirements]: the own properties of the literal.  For a
    state that is an [inheritedKey] the source finds the inherited
    property, which has no [annualReport]; [createComplianceCalendar]
    fails on it. *)
Definition complianceRequirements (state : string) : option StateRequirements :=
  if String.eqb state "FL" then Some
    {| sr_name := "Florida";
       sr_annualReport_required := true;
       sr_annualReport_fee := 13875 # 100;
       sr_annualReport_penalty := 400;
       sr_businessLicense_required := true;
       sr_businessLicense_renewal := "Annual";
       sr_businessLicense_averageFee := 50;
       sr_taxObligations := [ mkTax "Sales Tax" "Monthly" "6%";
                              mkTax "Reemployment Tax" "Quarterly" "Variable" ];
       sr_registeredAgent_annualCost := 199 |}
  else if String.eqb state "WY" then Some
    {| sr_name := "Wyoming";
       sr_annualReport_required := true;
       sr_annualReport_fee := 60;
       sr_annualReport_penalty := 25;
       sr_businessLicense_required := false;
       sr_businessLicense_renewal := "Varies by business type";
       sr_businessLicense_averageFee := 25;
       sr_taxObligations := [ mkTax "Sales Tax" "Monthly/Quarterly" "4%" ];
       sr_registeredAgent_annualCost := 149 |}
  else if String.eqb state "IL" then Some
    {| sr_name := "Illinois";
       sr_annualReport_required := true;
       sr_annualReport_fee := 75;
       sr_annualReport_penalty := 100;
       sr_businessLicense_required := true;
       sr_businessLicense_renewal := "Annual";
       sr_businessLicense_averageFee := 75;
       sr_taxObligations := [ mkTax "Income Tax" "Annual" "9.5%";
                              mkTax "Sales Tax" "Monthly" "6.25%" ];
       sr_registeredAgent_annualCost := 199 |}
  else None.

(** [this.revenueServices.ongoing.*.price]. *)
Definition annualReportFilingPrice : Q := 149.
Definition registeredAgentPrice : Q := 199.
Definition taxPreparationPrice : Q := 299.

(** *** Event creation methods

    [stateReqs] is [this.complianceRequirements[state]], which
    [createComplianceCalendar] has found before it calls them. *)

Definition createAnnualReportEvent (stateReqs : StateRequirements)
    (state : string) (year formationDate : Z) : ComplianceEvent :=
  let formationMonth := JSDate.getMonth formationDate in
  let dueDate :=
    if String.eqb state "FL" then JSDate.mkDate year 4 1
    else JSDate.mkDate year formationMonth 15 in
  {| ev_id := "AR-" +:+ state +:+ "-" +:+ pretty year;
     ev_type := annual_report;
     ev_title := state +:+ " Annual Report Filing";
     ev_dueDate := dueDate;
     ev_cost := sr_annualReport_fee stateReqs;
     ev_penalty := sr_annualReport_penalty stateReqs;
     ev_critical := true;
     ev_automatable := true;
     ev_automationTrigger := 45;
     ev_revenueOpportunity := annualReportFilingPrice;
     ev_details := None;
     ev_status := None |}.

Definition createTaxEvents (taxObligation : TaxObligation) (year : Z)
    : list ComplianceEvent :=
  let type := tax_type taxObligation in
  let rate := tax_rate taxObligation in
  if String.eqb (tax_frequency taxObligation) "Monthly" then
    (λ month,
       {| ev_id := "TAX-" +:+ type +:+ "-" +:+ pretty year +:+ "-"
                     +:+ pretty (month + 1);
          ev_type := tax_filing;
          ev_title := type +:+ " Filing";
          ev_dueDate := JSDate.mkDate year (month + 1) 20;
          ev_cost := 0; ev_penalty := 50;
          ev_critical := true; ev_automatable := true;
          ev_automationTrigger := 30;
          ev_revenueOpportunity := taxPreparationPrice / 12;
          ev_details := Some (TaxDetails type "monthly" (Some rate) None);
          ev_status := None |}) <$> seqZ 0 12
  else if String.eqb (tax_frequency taxObligation) "Quarterly" then
    (λ quarter,
       {| ev_id := "TAX-" +:+ type +:+ "-" +:+ pretty year +:+ "-Q"
                     +:+ pretty (quarter + 1);
          ev_type := tax_filing;
          ev_title := type +:+ " Quarterly Filing";
          ev_dueDate := JSDate.mkDate year ((quarter + 1) * 3) 15;
          ev_cost := 0; ev_penalty := 100;
          ev_critical := true; ev_automatable := true;
          ev_automationTrigger := 45;
          ev_revenueOpportunity := taxPreparationPrice / 4;
          ev_details := Some (TaxDetails type "quarterly" (Some rate) None);
          ev_status := None |}) <$> seqZ 0 4
  else if String.eqb (tax_frequency taxObligation) "Annual" then
    [ {| ev_id := "TAX-" +:+ type +:+ "-" +:+ pretty year;
         ev_type := tax_filing;
         ev_title := type +:+ " Annual Return";
         ev_dueDate := JSDate.mkDate (year + 1) 2 15;
         ev_cost := 0; ev_penalty := 200;
         ev_critical := true; ev_automatable := true;
         ev_automationTrigger := 60;
         ev_revenueOpportunity := taxPreparationPrice;
         ev_details := Some (TaxDetails type "annual" (Some rate) None);
         ev_status := None |} ]
  else [].

Definition createBusinessLicenseEvent (stateReqs : StateRequirements)
    (state : string) (year : Z) : ComplianceEvent :=
  {| ev_id := "LIC-" +:+ state +:+ "-" +:+ pretty year;
     ev_type := license_renewal;
     ev_title := "Business License Renewal";
     ev_dueDate := JSDate.mkDate year 11 31;
     ev_cost := sr_businessLicense_averageFee stateReqs;
     ev_penalty := 25;
     ev_critical := false; ev_automatable := true;
     ev_automationTrigger := 60;
     ev_revenueOpportunity := 149;
     ev_details := Some (LicenseDetails "general_business"
                           (sr_businessLicense_renewal stateReqs));
     ev_status := None |}.

Definition createRegisteredAgentEvent (stateReqs : StateRequirements)
    (state : string) (year formationDate : Z) : ComplianceEvent :=
  let anniversaryDate := JSDate.setFullYear formationDate year in
  {| ev_id := "RA-" +:+ state +:+ "-" +:+ pretty year;
     ev_type := registered_agent;
     ev_title := "Registered Agent Service Renewal";
     ev_dueDate := anniversaryDate;
     ev_cost := sr_registeredAgent_annualCost stateReqs;
     ev_penalty := 0;
     ev_critical := true; ev_automatable := true;
     ev_automationTrigger := 30;
     ev_revenueOpportunity := registeredAgentPrice;
     ev_details := Some (AgentDetails "CloudEsq Registered Agent Services" state);
     ev_status := None |}.

Definition createFederalTaxEvents (year : Z) (businessType : string)
    : list ComplianceEvent :=
  {| ev_id := "FED-INCOME-" +:+ pretty year;
     ev_type := tax_filing;
     ev_title := "Federal Income Tax Return";
     ev_dueDate := JSDate.mkDate (year + 1) 2 15;
     ev_cost := 0; ev_penalty := 195;
     ev_critical := true; ev_automatable := true;
     ev_automationTrigger := 60;
     ev_revenueOpportunity := taxPreparationPrice;
     ev_details := Some (TaxDetails "federal_income" "annual" None (Some "1065"));
     ev_status := None |}
  :: ((λ quarter,
         {| ev_id := "FED-EST-" +:+ pretty year +:+ "-Q" +:+ pretty (quarter + 1);
            ev_type := tax_filing;
            ev_title := "Federal Estimated Tax Payment";
            ev_dueDate := JSDate.mkDate year (quarter * 3 + 3) 15;
            ev_cost := 0; ev_penalty := 50;
            ev_critical := false; ev_automatable := true;
            ev_automationTrigger := 30;
            ev_revenueOpportunity := 75;
            ev_details := Some (TaxDetails "estimated_tax" "quarterly" None None);
            ev_status := None |}) <$> seqZ 0 4).

(** The body of the loop [for (year = currentYear; ...)]: the events one
    year contributes, in the order they are pushed. *)
Definition eventsOfYear (stateRequirements : StateRequirements) (state : string)
    (formationDate : Z) (businessType : string) (year : Z) : list ComplianceEvent :=
  (if sr_annualReport_required stateRequirements
   then [createAnnualReportEvent stateRequirements state year formationDate]
   else [])
  ++ concat ((λ taxObligation, createTaxEvents taxObligation year)
               <$> sr_taxObligations stateRequirements)
  ++ (if sr_businessLicense_required stateRequirements
      then [createBusinessLicenseEvent stateRequirements state year]
      else [])
  ++ [createRegisteredAgentEvent stateRequirements state year formationDate]
  ++ createFederalTaxEvents year businessType.

Definition leDueDate (a b : ComplianceEvent) : bool :=
  ev_dueDate a - ev_dueDate b <=? 0.

(** The three years of events, pushed year by year and then sorted by
    due date. *)
Definition generateEvents (stateRequirements : StateRequirements) (state : string)
    (formationDate : Z) (businessType : string) (currentYear : Z)
    : list ComplianceEvent :=
  sortBy leDueDate
    (concat (eventsOfYear stateRequirements state formationDate businessType
               <$> seqZ currentYear 3)).

(** *** Calculation methods *)

Definition Qpositive (q : Q) : bool := negb (Qle_bool q 0).

Definition Qsum (l : list Q) : Q := foldl Qplus 0%Q l.

Definition calculateAnnualComplianceCost (state : string)
    (events : list ComplianceEvent) : Q :=
  Qsum (ev_cost <$> List.filter (λ event, Qpositive (ev_cost event)) events).

Definition identifyRevenueOpportunities (events : list ComplianceEvent)
    : list RevenueOpportunity :=
  sortBy
    (λ a b, Qle_bool (ro_revenueOpportunity b - ro_revenueOpportunity a) 0)
    ((λ event,
        {| ro_eventId := ev_id event; ro_eventType := ev_type event;
           ro_title := ev_title event; ro_dueDate := ev_dueDate event;
           ro_revenueOpportunity := ev_revenueOpportunity event;
           ro_automatable := ev_automatable event |})
       <$> List.filter (λ event, Qpositive (ev_revenueOpportunity event)) events).

Record RevenueProjection := {
  rp_totalOpportunity : Q;
  rp_projectedCapture : Q;
  rp_averageMonthly : Q;
  rp_highValueServices : Z
}.

Definition calculateRevenueProjection (calendar : ComplianceCalendar)
    : RevenueProjection :=
  let totalRevenueOpportunity :=
    Qsum (ev_revenueOpportunity <$> cal_events calendar) in
  {| rp_totalOpportunity := totalRevenueOpportunity;
     rp_projectedCapture := totalRevenueOpportunity * (35 # 100);
     rp_averageMonthly := totalRevenueOpportunity * (35 # 100) / 36;
     rp_highValueServices :=
       Z.of_nat (length (List.filter
                           (λ event, negb (Qle_bool (ev_revenueOpportunity event) 200))
                           (cal_events calendar))) |}.

(** [Math.ceil((eventDate - today) / (1000 * 60 * 60 * 24))]. *)
Definition daysUntilDue (today : Z) (event : ComplianceEvent) : Z :=
  JSDate.ceilDiv (ev_dueDate event - today) JSDate.msPerDay.

Record NextComplianceAction := {
  nca_eventId : string; nca_title : string; nca_dueDate : Z;
  nca_daysUntilDue : Z; nca_automatable : bool; nca_revenueOpportunity : Q
}.

Definition getNextComplianceActions (today : Z) (calendar : ComplianceCalendar)
    : list NextComplianceAction :=
  (λ event,
     {| nca_eventId := ev_id event; nca_title := ev_title event;
        nca_dueDate := ev_dueDate event;
        nca_daysUntilDue := daysUntilDue today event;
        nca_automatable := ev_automatable event;
        nca_revenueOpportunity := ev_revenueOpportunity event |})
  <$> take 5 (List.filter (λ event, today <? ev_dueDate event)
                (cal_events calendar)).

(** *** createComplianceCalendar *)

Inductive CalendarResponse :=
| CalendarCreated (calendarId : string) (complianceCalendar : ComplianceCalendar)
    (nextActions : list NextComplianceAction) (revenueProjection : RevenueProjection)
| CalendarError (error : string).

Definition createComplianceCalendar (now : Z) (companyData : CompanyData)
    : M CalendarResponse :=
  try_catch
    (let businessName := cd_businessName companyData in
     let state := cd_state companyData in
     let formationDate := cd_formationDate companyData in
     match complianceRequirements state with
     | None =>
         if inheritedKey state then
           throw "Cannot read properties of undefined (reading 'required')"
         else
           throw ("Compliance requirements not available for state: " +:+ state)
     | Some stateRequirements =>
       let calendarId := "COMP-" +:+ state +:+ "-" +:+ pretty now in
       let currentYear := JSDate.getFullYear now in
       let complianceEvents :=
         generateEvents stateRequirements state formationDate
           (cd_businessType companyData) currentYear in
       let complianceCalendar :=
         {| cal_id := calendarId; cal_businessName := businessName;
            cal_state := state; cal_ein := cd_ein companyData;
            cal_formationDate := formationDate;
            cal_businessType := cd_businessType companyData;
            cal_events := complianceEvents;
            cal_totalEvents := Z.of_nat (length complianceEvents);
            cal_annualComplianceCost :=
              calculateAnnualComplianceCost state complianceEvents;
            cal_revenueOpportunities :=
              identifyRevenueOpportunities complianceEvents;
            cal_createdDate := now;
            cal_nextDueEvent :=
              List.find (λ event, now <? ev_dueDate event) complianceEvents |} in
       insertCalendar calendarId
         {| crow_business_name := businessName; crow_state := state;
            crow_ein := cd_ein companyData;
            crow_calendar_data := complianceCalendar;
            crow_created_at := now |};;
       storeMemory "compliance_calendar_creation" calendarId;;
       mintEvidence "compliance_calendar" calendarId;;
       mret (CalendarCreated calendarId complianceCalendar
               (getNextComplianceActions now complianceCalendar)
               (calculateRevenueProjection complianceCalendar))
     end)
    (λ error,
       consoleError "Error creating compliance calendar:";;
       mret (CalendarError error)).

(** *** executeAutomatedCompliance and the revenue generation methods *)

Record ActionResult := {
  act_success : bool;
  act_action : option string;
  act_revenue : Q;
  act_error : option string
}.

Definition prepared (action : string) (revenue : Q) : ActionResult :=
  {| act_success := true; act_action := Some action; act_revenue := revenue;
     act_error := None |}.

(** The [catch] of an [automate*] method. *)
Definition caught (error : string) : ActionResult :=
  {| act_success := false; act_action := None; act_revenue := 0;
     act_error := Some error |}.

Definition automateAnnualReport (event : ComplianceEvent)
    (calendar : ComplianceCalendar) : ActionResult :=
  prepared "annual_report_prepared" annualReportFilingPrice.

(** [event.details.agentName] throws when the event has no [details]. *)
Definition automateRegisteredAgentRenewal (event : ComplianceEvent)
    (calendar : ComplianceCalendar) : ActionResult :=
  match ev_details event with
  | None => caught "Cannot read properties of undefined (reading 'agentName')"
  | Some _ => prepared "registered_agent_renewal_prepared" registeredAgentPrice
  end.

Definition automateTaxFiling (event : ComplianceEvent)
    (calendar : ComplianceCalendar) : ActionResult :=
  match ev_details event with
  | None => caught "Cannot read properties of undefined (reading 'taxType')"
  | Some _ => prepared "tax_filing_prepared" taxPreparationPrice
  end.

Definition automateLicenseRenewal (event : ComplianceEvent)
    (calendar : ComplianceCalendar) : ActionResult :=
  match ev_details event with
  | None => caught "Cannot read properties of undefined (reading 'licenseType')"
  | Some _ => prepared "license_renewal_prepared" 149
  end.

Definition executeAutomatedCompliance (event : ComplianceEvent)
    (calendar : ComplianceCalendar) : M AutomationResult :=
  emit (AutomationInvoked (cal_id calendar) (ev_id event));;
  let result :=
    match ev_type event with
    | annual_report => automateAnnualReport event calendar
    | tax_filing => automateTaxFiling event calendar
    | license_renewal => automateLicenseRenewal event calendar
    | registered_agent => automateRegisteredAgentRenewal event calendar
    | other_type _ =>
        {| act_success := false; act_action := Some "unsupported";
           act_revenue := 0; act_error := None |}
    end in
  storeMemory "automated_compliance_execution" (cal_id calendar);;
  mret {| ar_eventId := ev_id event; ar_eventType := ev_type event;
          ar_success := act_success result; ar_action := act_action result;
          ar_revenue := act_revenue result; ar_error := act_error result |}.

Definition calculateGeneratedRevenue (automationResults : list AutomationResult) : Q :=
  foldl (λ total result, total + ar_revenue result)%Q 0%Q automationResults.

(** *** monitorCompliance *)

Record Buckets := {
  upcomingEvents : list ReportedEvent;
  overdueEvents : list ReportedEvent;
  actionableEvents : list ComplianceEvent
}.

(** The body of [for (const event of calendar.events)]. *)
Definition classifyEvent (today : Z) (acc : Buckets) (event : ComplianceEvent)
    : Buckets :=
  let daysUntilDue := daysUntilDue today event in
  let acc1 :=
    if daysUntilDue <? 0 then
      {| upcomingEvents := upcomingEvents acc;
         overdueEvents := overdueEvents acc
           ++ [ {| rep_event := event;
                   rep_daysOverdue := Some (Z.abs daysUntilDue);
                   rep_daysUntilDue := None |} ];
         actionableEvents := actionableEvents acc |}
    else if daysUntilDue <=? 30 then
      {| upcomingEvents := upcomingEvents acc
           ++ [ {| rep_event := event; rep_daysOverdue := None;
                   rep_daysUntilDue := Some daysUntilDue |} ];
         overdueEvents := overdueEvents acc;
         actionableEvents := actionableEvents acc |}
    else acc in
  if ev_automatable event && (daysUntilDue <=? ev_automationTrigger event) then
    {| upcomingEvents := upcomingEvents acc1;
       overdueEvents := overdueEvents acc1;
       actionableEvents := actionableEvents acc1 ++ [event] |}
  else acc1.

Definition classifyEvents (today : Z) (events : list ComplianceEvent) : Buckets :=
  foldl (classifyEvent today)
    {| upcomingEvents := []; overdueEvents := []; actionableEvents := [] |}
    events.

(** [event.daysOverdue ? 'critical' : event.daysUntilDue <= 7 ? 'high' : 'medium'];
    a missing field is [undefined], and [undefined <= 7] is false. *)
Definition urgencyOf (event : ReportedEvent) : string :=
  match rep_daysOverdue event with
  | Some d => if d =? 0 then
                match rep_daysUntilDue event with
                | Some u => if u <=? 7 then "high" else "medium"
                | None => "medium"
                end
              else "critical"
  | None =>
      match rep_daysUntilDue event with
      | Some u => if u <=? 7 then "high" else "medium"
      | None => "medium"
      end
  end.

Definition rankBefore (a b : RankedOpportunity) : bool :=
  if String.eqb (rk_urgency a) "critical" && negb (String.eqb (rk_urgency b) "critical")
  then true
  else if String.eqb (rk_urgency b) "critical"
          && negb (String.eqb (rk_urgency a) "critical")
  then false
  else Qle_bool (ev_revenueOpportunity (rep_event (rk_event b))
                 - ev_revenueOpportunity (rep_event (rk_event a))) 0.

Definition identifyImmediateRevenueOpportunities
    (upcomingEvents overdueEvents : list ReportedEvent) : list RankedOpportunity :=
  sortBy rankBefore
    ((λ event, {| rk_event := event; rk_urgency := urgencyOf event |})
       <$> List.filter (λ event, Qpositive (ev_revenueOpportunity (rep_event event)))
             (upcomingEvents ++ overdueEvents)).

Definition generateComplianceRecommendations (ext : Collaborators) (now : Z)
    (calendar : ComplianceCalendar) (upcomingEvents overdueEvents : list ReportedEvent)
    : string :=
  default "Unable to generate AI recommendations. Manual review recommended."
    (recommend ext now (cal_businessName calendar) upcomingEvents overdueEvents).

Inductive MonitorResponse :=
| Monitored (complianceReport : ComplianceReport)
    (automationResults : list AutomationResult) (revenueGenerated : Q)
| MonitorError (error : string).

Definition monitorCompliance (ext : Collaborators) (now : Z) (calendarId : string)
    : M MonitorResponse :=
  try_catch
    (calendarResult ← selectCalendar calendarId;
     match calendarResult with
     | None => throw "Compliance calendar not found"
     | Some row =>
       let calendar := crow_calendar_data row in
       let today := now in
       let buckets := classifyEvents today (cal_events calendar) in
       let upcomingEvents := upcomingEvents buckets in
       let overdueEvents := overdueEvents buckets in
       let actionableEvents := actionableEvents buckets in
       let complianceReport :=
         {| rpt_calendarId := calendarId;
            rpt_businessName := cal_businessName calendar;
            rpt_state := cal_state calendar;
            rpt_reportDate := now;
            rpt_status :=
              if (0 <? length overdueEvents)%nat then "NON_COMPLIANT"
              else if (0 <? length upcomingEvents)%nat then "ACTION_REQUIRED"
              else "COMPLIANT";
            rpt_upcomingCount := Z.of_nat (length upcomingEvents);
            rpt_overdueCount := Z.of_nat (length overdueEvents);
            rpt_actionableCount := Z.of_nat (length actionableEvents);
            rpt_upcoming := upcomingEvents;
            rpt_overdue := overdueEvents;
            rpt_actionable := actionableEvents;
            rpt_recommendations :=
              generateComplianceRecommendations ext now calendar
                upcomingEvents overdueEvents;
            rpt_revenueOpportunities :=
              identifyImmediateRevenueOpportunities upcomingEvents overdueEvents |} in
       storeMemory "compliance_monitoring" calendarId;;
       automationResults ←
         forEach (λ event, executeAutomatedCompliance event calendar)
           actionableEvents;
       mret (Monitored complianceReport automationResults
               (calculateGeneratedRevenue automationResults))
     end)
    (λ error,
       consoleError "Error monitoring compliance:";;
       mret (MonitorError error)).

End ComplianceRevenueEngine.


Import WorkflowAutomationEngine ComplianceRevenueEngine.

(** ** Vocabulary of the statements about compliance monitoring *)

(** The three tests of the loop of [monitorCompliance]. *)
Definition isOverdue (today : Z) (e : ComplianceEvent) : bool :=
  daysUntilDue today e <? 0.
Definition isUpcoming (today : Z) (e : ComplianceEvent) : bool :=
  (0 <=? daysUntilDue today e) && (daysUntilDue today e <=? 30).
Definition isActionable (today : Z) (e : ComplianceEvent) : bool :=
  ev_automatable e && (daysUntilDue today e <=? ev_automationTrigger e).

Definition reportOverdue (today : Z) (e : ComplianceEvent) : ReportedEvent :=
  {| rep_event := e; rep_daysOverdue := Some (Z.abs (daysUntilDue today e));
     rep_daysUntilDue := None |}.
Definition reportUpcoming (today : Z) (e : ComplianceEvent) : ReportedEvent :=
  {| rep_event := e; rep_daysOverdue := None;
     rep_daysUntilDue := Some (daysUntilDue today e) |}.

(** The event [e] with its status field replaced by [f e]. *)
Definition restatus (f : ComplianceEvent → option EventStatus) (e : ComplianceEvent)
    : ComplianceEvent :=
  {| ev_id := ev_id e; ev_type := ev_type e; ev_title := ev_title e;
     ev_dueDate := ev_dueDate e; ev_cost := ev_cost e; ev_penalty := ev_penalty e;
     ev_critical := ev_critical e; ev_automatable := ev_automatable e;
     ev_automationTrigger := ev_automationTrigger e;
     ev_revenueOpportunity := ev_revenueOpportunity e;
     ev_details := ev_details e; ev_status := f e |}.

(** What one call of the executor returns and what it appends to the trace. *)
Definition automationResultOf (calendar : ComplianceCalendar)
    (event : ComplianceEvent) : AutomationResult :=
  match run (executeAutomatedCompliance event calendar) emptyStore with
  | (Ret r, _) => r
  | (Throw _, _) =>
      {| ar_eventId := ev_id event; ar_eventType := ev_type event;
         ar_success := false; ar_action := None; ar_revenue := 0;
         ar_error := None |}
  end.

Definition automationEffects (calendar : ComplianceCalendar)
    (event : ComplianceEvent) : list Effect :=
  [ AutomationInvoked (cal_id calendar) (ev_id event);
    MemoryStored "automated_compliance_execution" (cal_id calendar) ].

(** The events of a stored calendar, and the status of the first one of a
    given id. *)
Definition storedEvents (s : Store) (calendarId : string) : list ComplianceEvent :=
  match calendars s !! calendarId with
  | Some row => cal_events (crow_calendar_data row)
  | None => []
  end.

Definition storedStatus (s : Store) (calendarId eventId : string)
    : option EventStatus :=
  e ← List.find (λ e, String.eqb (ev_id e) eventId) (storedEvents s calendarId);
  ev_status e.

Definition isInvocationOf (eventId : string) (e : Effect) : bool :=
  match e with
  | AutomationInvoked _ id => String.eqb id eventId
  | _ => false
  end.

(** How often the executor has been invoked for an event id. *)
Definition invocations (eventId : string) (s : Store) : nat :=
  length (List.filter (isInvocationOf eventId) (trace s)).

Definition succeededFor (r : Outcome MonitorResponse) (eventId : string) : bool :=
  match r with
  | Ret (Monitored _ results _) =>
      existsb (λ res, String.eqb (ar_eventId res) eventId && ar_success res) results
  | _ => false
  end.

Definition listedOverdue (r : Outcome MonitorResponse) (eventId : string) : bool :=
  match r with
  | Ret (Monitored report _ _) =>
      existsb (λ rep, String.eqb (ev_id (rep_event rep)) eventId) (rpt_overdue report)
  | _ => false
  end.

(** *** The monitor as the specification words it

    Section 4.4 of the specification: [daysUntilDue = floor(dueDate - now)]
    in days, [overdue] needs [status != actioned], [actionable] needs
    [status == scheduled]. *)
Module SpecMonitor.

Definition statusIs (st : EventStatus) (e : ComplianceEvent) : bool :=
  match ev_status e, st with
  | Some scheduled, scheduled | Some actioned, actioned
  | Some overdue_unactioned, overdue_unactioned => true
  | _, _ => false
  end.

Definition daysUntilDue (now : Z) (e : ComplianceEvent) : Z :=
  (ev_dueDate e - now) / JSDate.msPerDay.

Definition overdue (now : Z) (e : ComplianceEvent) : bool :=
  (daysUntilDue now e <? 0) && negb (statusIs actioned e).

Definition upcoming (now : Z) (e : ComplianceEvent) : bool :=
  (0 <=? daysUntilDue now e) && (daysUntilDue now e <=? 30).

Definition actionable (now : Z) (e : ComplianceEvent) : bool :=
  ev_automatable e && (daysUntilDue now e <=? ev_automationTrigger e)
  && statusIs scheduled e.

End SpecMonitor.

(** The monitor classifies the single event [e] at [now] as the
    specification says. *)
Definition classifiedAsSpecified (now : Z) (e : ComplianceEvent) : Prop :=
  let b := classifyEvents now [e] in
  daysUntilDue now e = SpecMonitor.daysUntilDue now e
  ∧ (overdueEvents b ≠ [] ↔ SpecMonitor.overdue now e = true)
  ∧ (upcomingEvents b ≠ [] ↔ SpecMonitor.upcoming now e = true)
  ∧ (actionableEvents b ≠ [] ↔ SpecMonitor.actionable now e = true).

(** The dispatch of event [eventId] is recorded as the specification says:
    after a pass at [now] and a second pass at [now'], a successful dispatch
    has set the status to [actioned] and is not repeated; a failed one has
    left the status [scheduled] and is repeated. *)
Definition dispatchIsRecorded (ext : Collaborators) (s : Store)
    (calendarId : string) (now now' : Z) (eventId : string) : Prop :=
  let '(r1, s1) := run (monitorCompliance ext now calendarId) s in
  let '(r2, s2) := run (monitorCompliance ext now' calendarId) s1 in
  if succeededFor r1 eventId then
    storedStatus s1 calendarId eventId = Some actioned
    ∧ invocations eventId s2 = invocations eventId s1
  else
    storedStatus s1 calendarId eventId = Some scheduled
    ∧ invocations eventId s2 = S (invocations eventId s1).

(** The event [eventId], past due and still scheduled, is treated as
    overdue-unactioned by a pass at [now]: listed as overdue, not
    dispatched. *)
Definition overdueUnactioned (ext : Collaborators) (s : Store)
    (calendarId : string) (now : Z) (eventId : string) : Prop :=
  let '(r, s') := run (monitorCompliance ext now calendarId) s in
  listedOverdue r eventId = true
  ∧ invocations eventId s' = invocations eventId s.

(** *** Sample data *)

(** Collaborators that always answer: documents are generated, the
    language model is unreachable. *)
Definition sampleCollaborators : Collaborators :=
  {| generateDocument := λ _ _ _ _ _, DocReturned true "/generated/doc.pdf" "doc.pdf" true;
     optimizeWithAI := λ _ _ _, None;
     recommend := λ _ _ _ _, None |}.

(** 2024-06-01T00:00:00Z. *)
Definition sampleNow : Z := JSDate.mkDate 2024 5 1.

Definition sampleEvent (id : string) (dueDate trigger : Z)
    (status : option EventStatus) : ComplianceEvent :=
  {| ev_id := id; ev_type := annual_report; ev_title := "WY Annual Report Filing";
     ev_dueDate := dueDate; ev_cost := 60; ev_penalty := 25;
     ev_critical := true; ev_automatable := true;
     ev_automationTrigger := trigger;
     ev_revenueOpportunity := 149; ev_details := None; ev_status := status |}.

Definition sampleCalendar (events : list ComplianceEvent) : ComplianceCalendar :=
  {| cal_id := "COMP-WY-1"; cal_businessName := "Acme LLC"; cal_state := "WY";
     cal_ein := "12-3456789"; cal_formationDate := JSDate.mkDate 2024 2 10;
     cal_businessType := "General"; cal_events := events;
     cal_totalEvents := Z.of_nat (length events);
     cal_annualComplianceCost := 0; cal_revenueOpportunities := [];
     cal_createdDate := JSDate.mkDate 2024 2 10; cal_nextDueEvent := None |}.

Definition sampleStore (events : list ComplianceEvent) : Store :=
  {| workflows := ∅;
     calendars :=
       {[ "COMP-WY-1" :=
            {| crow_business_name := "Acme LLC"; crow_state := "WY";
               crow_ein := "12-3456789";
               crow_calendar_data := sampleCalendar events;
               crow_created_at := JSDate.mkDate 2024 2 10 |} ]};
     trace := [] |}.

(** Due in ten days, trigger window of fifteen days, scheduled. *)
Definition eventDueInTen : ComplianceEvent :=
  sampleEvent "AR-WY-2024" (sampleNow + 10 * JSDate.msPerDay) 15 (Some scheduled).

(** The same event once actioned. *)
Definition eventActioned : ComplianceEvent :=
  sampleEvent "AR-WY-2024" (sampleNow + 10 * JSDate.msPerDay) 15 (Some actioned).

(** Due twelve hours ago, scheduled. *)
Definition eventDueHalfDayAgo : ComplianceEvent :=
  sampleEvent "AR-WY-2024" (sampleNow - 12 * 60 * 60 * 1000) 45 (Some scheduled).

(** Due five days ago, actioned. *)
Definition eventActionedLate : ComplianceEvent :=
  sampleEvent "AR-WY-2024" (sampleNow - 5 * JSDate.msPerDay) 45 (Some actioned).

(** Due five days ago, scheduled. *)
Definition eventDueFiveDaysAgo : ComplianceEvent :=
  sampleEvent "AR-WY-2024" (sampleNow - 5 * JSDate.msPerDay) 45 (Some scheduled).

(** ** Vocabulary of the statements about calendar generation *)

Definition isAnnualReport (e : ComplianceEvent) : bool :=
  match ev_type e with
  | annual_report => true
  | _ => false
  end.

(** The annual-report events of a calendar. *)
Definition annualReports (events : list ComplianceEvent) : list ComplianceEvent :=
  List.filter isAnnualReport events.

(** The id under which [createComplianceCalendar] stores a calendar. *)
Definition calendarIdOf (now : Z) (companyData : CompanyData) : string :=
  "COMP-" +:+ cd_state companyData +:+ "-" +:+ pretty now.

(** Formed on 2024-03-10. *)
Definition sampleCompany (state : string) : CompanyData :=
  {| cd_businessName := "Acme LLC"; cd_state := state;
     cd_formationDate := JSDate.mkDate 2024 2 10; cd_ein := "12-3456789";
     cd_businessType := "General" |}.

(** The semantic key of an event: which obligation, of which year, for
    which period of that year. *)
Inductive ObligationType :=
| AnnualReport
| StateTax (taxType : string)
| LicenseRenewal
| RegisteredAgentRenewal
| FederalIncomeTax
| FederalEstimatedTax.

Inductive Period := Yearly | Monthly (month : Z) | Quarterly (quarter : Z).

#[export] Instance ObligationType_eq_dec : EqDecision ObligationType.
Proof. solve_decision. Defined.

#[export] Instance Period_eq_dec : EqDecision Period.
Proof. solve_decision. Defined.

(** The id of the event of a key, within a jurisdiction. *)
Definition eventIdOf (state : string) (key : ObligationType * Z * Period) : string :=
  match key with
  | (AnnualReport, year, _) => "AR-" +:+ state +:+ "-" +:+ pretty year
  | (StateTax type, year, Monthly month) =>
      "TAX-" +:+ type +:+ "-" +:+ pretty year +:+ "-" +:+ pretty month
  | (StateTax type, year, Quarterly quarter) =>
      "TAX-" +:+ type +:+ "-" +:+ pretty year +:+ "-Q" +:+ pretty quarter
  | (StateTax type, year, Yearly) => "TAX-" +:+ type +:+ "-" +:+ pretty year
  | (LicenseRenewal, year, _) => "LIC-" +:+ state +:+ "-" +:+ pretty year
  | (RegisteredAgentRenewal, year, _) => "RA-" +:+ state +:+ "-" +:+ pretty year
  | (FederalIncomeTax, year, _) => "FED-INCOME-" +:+ pretty year
  | (FederalEstimatedTax, year, Quarterly quarter) =>
      "FED-EST-" +:+ pretty year +:+ "-Q" +:+ pretty quarter
  | (FederalEstimatedTax, year, Monthly month) =>
      "FED-EST-" +:+ pretty year +:+ "-" +:+ pretty month
  | (FederalEstimatedTax, year, Yearly) => "FED-EST-" +:+ pretty year
  end.

Definition taxPeriods (frequency : string) : list Period :=
  if String.eqb frequency "Monthly" then (λ month, Monthly (month + 1)) <$> seqZ 0 12
  else if String.eqb frequency "Quarterly" then
    (λ quarter, Quarterly (quarter + 1)) <$> seqZ 0 4
  else if String.eqb frequency "Annual" then [Yearly]
  else [].

(** The obligations a jurisdiction's rules raise each year. *)
Definition obligationsOf (stateRequirements : StateRequirements)
    : list (ObligationType * Period) :=
  (if sr_annualReport_required stateRequirements then [(AnnualReport, Yearly)] else [])
  ++ concat ((λ tax, (λ period, (StateTax (tax_type tax), period))
                       <$> taxPeriods (tax_frequency tax))
               <$> sr_taxObligations stateRequirements)
  ++ (if sr_businessLicense_required stateRequirements
      then [(LicenseRenewal, Yearly)] else [])
  ++ [(RegisteredAgentRenewal, Yearly)]
  ++ (FederalIncomeTax, Yearly)
     :: ((λ quarter, (FederalEstimatedTax, Quarterly (quarter + 1))) <$> seqZ 0 4).

Definition keysOfYear (stateRequirements : StateRequirements) (year : Z)
    : list (ObligationType * Z * Period) :=
  (λ ob : ObligationType * Period, (ob.1, year, ob.2)) <$> obligationsOf stateRequirements.

(** The keys of the events of a calendar generated in [currentYear]. *)
Definition eventKeys (stateRequirements : StateRequirements) (currentYear : Z)
    : list (ObligationType * Z * Period) :=
  concat (keysOfYear stateRequirements <$> seqZ currentYear 3).

(** *** Decimal numerals inside ids *)

Definition isDigit (c : Ascii.ascii) : bool :=
  let n := Ascii.nat_of_ascii c in ((48 <=? n) && (n <=? 57))%nat.

Fixpoint allDigits (s : string) : bool :=
  match s with
  | EmptyString => true
  | String c s' => isDigit c && allDigits s'
  end.

Definition nonEmpty (s : string) : bool :=
  match s with
  | EmptyString => false
  | String _ _ => true
  end.

(** A numeral as [pretty] prints an integer: digits, after an optional
    minus sign. *)
Definition isNumeral (s : string) : bool :=
  match s with
  | String "-"%char s' => nonEmpty s' && allDigits s'
  | _ => nonEmpty s && allDigits s
  end.

(** What follows the year in an id: nothing, or a part that starts with a
    dash. *)
Definition isSuffix (s : string) : bool :=
  match s with
  | EmptyString => true
  | String c _ => Ascii.eqb c "-"%char
  end.

(** ** Vocabulary of the statements about workflow execution *)

(** The workflow object [executeWorkflowStep] writes back when the handler
    of step [stepId] has returned [result]. *)
Definition workflowAfter (now : Z) (stepId : string) (result : StepResult)
    (workflow : Workflow) : Workflow :=
  let workflow1 :=
    withSteps workflow (updateStep stepId (markInProgress now) (wf_steps workflow)) in
  let workflow2 :=
    withSteps workflow1
      (updateStep stepId (recordResult now result) (wf_steps workflow1)) in
  withProgress workflow2 (computeProgress (wf_steps workflow2))
    (step_id <$> getNextPendingStep workflow2).

(** The row after that write and, at 100 percent, after [completeWorkflow]. *)
Definition rowAfter (now : Z) (stepId : string) (result : StepResult)
    (row : WorkflowRow) : WorkflowRow :=
  let workflow3 := workflowAfter now stepId result (row_workflow_data row) in
  let saved := saveWorkflowData now workflow3 row in
  if Qeq_bool (wf_progress workflow3) 100 then completeRow now saved else saved.

(** The effects of a call that executes a step to its end. *)
Definition executionEffects (now : Z) (workflowId stepId : string)
    (result : StepResult) (row : WorkflowRow) : list Effect :=
  [ StepHandlerInvoked workflowId stepId (Some in_progress);
    SqlUpdateWorkflowData workflowId;
    MemoryStored "workflow_step_execution" workflowId ]
  ++ (if Qeq_bool (wf_progress (workflowAfter now stepId result (row_workflow_data row))) 100
      then [ SqlCompleteWorkflow workflowId;
             MemoryStored "workflow_completion" workflowId ]
      else []).

Definition isHandlerInvocation (e : Effect) : bool :=
  match e with
  | StepHandlerInvoked _ _ _ => true
  | _ => false
  end.


(** The dependencies of the step [stepId] that are not completed. *)
Definition missingDependencies (workflow : Workflow) (stepId : string) : list string :=
  List.filter (dependencyMissing workflow) (getStepDependencies stepId).

(** A workflow instance as [createFormationWorkflow] makes it and
    [executeWorkflowStep] keeps it: every step records the dependencies of
    the table, and a completed step has its dependencies completed. *)
Definition dependenciesRecorded (workflow : Workflow) : Prop :=
  Forall (λ step, step_dependencies step = getStepDependencies (step_id step))
    (wf_steps workflow).

Definition dependenciesClosed (workflow : Workflow) : Prop :=
  ∀ stepId step,
    findStep stepId (wf_steps workflow) = Some step →
    isCompleted step = true →
    missingDependencies workflow stepId = [].

Definition wellFormed (workflow : Workflow) : Prop :=
  dependenciesRecorded workflow ∧ dependenciesClosed workflow.

(** The stored progress is the share of completed steps. *)
Definition progressConsistent (workflow : Workflow) : Prop :=
  (wf_progress workflow == computeProgress (wf_steps workflow))%Q.

Definition allStepsCompleted (workflow : Workflow) : bool :=
  forallb isCompleted (wf_steps workflow).

Definition criticalStepsCompleted (workflow : Workflow) : bool :=
  forallb (λ step, implb (step_critical step) (isCompleted step)) (wf_steps workflow).

(** A sequence of [executeWorkflowStep] calls. *)
Record Call := {
  call_now : Z;
  call_workflowId : string;
  call_stepId : string;
  call_stepData : StepData
}.

Definition runCall (ext : Collaborators) (s : Store) (c : Call) : Store :=
  (run (executeWorkflowStep ext (call_now c) (call_workflowId c) (call_stepId c)
          (call_stepData c)) s).2.

Definition runCalls (ext : Collaborators) (calls : list Call) (s : Store) : Store :=
  foldl (runCall ext) s calls.

Definition progressOf (s : Store) (workflowId : string) : option Q :=
  row ← workflows s !! workflowId;
  Some (wf_progress (row_workflow_data row)).

Definition stepsOf (s : Store) (workflowId : string) : list Step :=
  match workflows s !! workflowId with
  | Some row => wf_steps (row_workflow_data row)
  | None => []
  end.

Definition rowStatusOf (s : Store) (workflowId : string) : option string :=
  row ← workflows s !! workflowId;
  Some (row_status row).



(** The workflow status follows the critical steps, as the specification
    says: completed exactly when every critical step is completed. *)
Definition statusFollowsCriticalSteps (s : Store) (workflowId : string) : Prop :=
  match workflows s !! workflowId with
  | Some row =>
      row_status row = "completed"
      ↔ criticalStepsCompleted (row_workflow_data row) = true
  | None => False
  end.

(** *** Sample workflows *)

Definition noStepData : StepData :=
  {| sd_agentName := None; sd_agentAddress := None; sd_other := [] |}.

(** A Florida workflow whose steps have the given statuses. *)
Definition sampleWorkflow (status : string → StepStatus) : Workflow :=
  {| wf_id := "WF-FL-1"; wf_businessName := "Acme LLC"; wf_state := "FL";
     wf_type := "llc_formation"; wf_status := "created";
     wf_baseWorkflow := "Florida LLC Formation";
     wf_steps :=
       (λ spec, setStep (newStep "FL" spec) (status (spec_id spec)) None None None)
         <$> formationSteps "Secure Registered Agent"
               "File Articles with Florida DOS" 5 3;
     wf_totalEstimatedDays := 15; wf_totalEstimatedCost := 125;
     wf_createdDate := sampleNow; wf_nextAction := Some "name_check";
     wf_progress := 0; wf_smartOptimizations := None |}.

Definition workflowRow (workflow : Workflow) : WorkflowRow :=
  {| row_business_name := wf_businessName workflow;
     row_state := wf_state workflow; row_status := "created";
     row_workflow_data := workflow;
     row_created_at := wf_createdDate workflow;
     row_updated_at := wf_createdDate workflow;
     row_completed_at := None |}.

Definition workflowStore (workflow : Workflow) : Store :=
  {| workflows := {[ wf_id workflow := workflowRow workflow ]};
     calendars := ∅;
     trace := [] |}.

(** The step of the sample workflow made from a specification. *)
Definition sampleStep (status : StepStatus) (id name : string) (duration : Z)
    (critical : bool) : Step :=
  setStep (newStep "FL" (mkSpec id name duration critical)) status None None None.

Definition allPending : string → StepStatus := λ _, pending.


(** The name check is completed; every other step is pending. *)
Definition nameCheckDone : string → StepStatus :=
  λ id, if String.eqb id "name_check" then completed else pending.

(** The six critical steps of the Florida workflow, in dependency order. *)
Definition criticalCalls : list Call :=
  (λ id, {| call_now := sampleNow; call_workflowId := "WF-FL-1";
            call_stepId := id; call_stepData := noStepData |})
  <$> ["name_check"; "registered_agent"; "articles_prep"; "articles_filing";
       "ein_application"; "compliance_setup"].

(** A check of [wellFormed] that computes. *)
Definition wellFormedb (workflow : Workflow) : bool :=
  forallb
    (λ step,
       bool_decide (step_dependencies step = getStepDependencies (step_id step))
       && match findStep (step_id step) (wf_steps workflow) with
          | Some first =>
              implb (isCompleted first)
                (bool_decide (missingDependencies workflow (step_id step) = []))
          | None => true
          end)
    (wf_steps workflow).

(** ** Vocabulary of the further statements *)

(** The step ids the [switch] of [executeWorkflowStep] knows. *)
Definition knownStepIds : list string :=
  ["name_check"; "name_reservation"; "registered_agent"; "articles_prep";
   "articles_filing"; "ein_application"; "operating_agreement";
   "business_licenses"; "compliance_setup"].

(** The id under which [createFormationWorkflow] stores a workflow. *)
Definition workflowIdOf (now : Z) (formationData : FormationData) : string :=
  "WF-" +:+ fd_state formationData +:+ "-" +:+ pretty now.

Definition sampleFormation (state : string) : FormationData :=
  {| fd_businessName := "Acme LLC"; fd_state := state; fd_expedited := false;
     fd_budget := None; fd_timeline := None; fd_businessType := None |}.

(** A language model that answers with no steps, no days and no cost. *)
Definition emptyAnswer : AiOptimization :=
  {| ai_steps := Some []; ai_totalDays := Some 0; ai_cost := Some 0;
     ai_optimizations := None |}.

Definition emptyAnswerCollaborators : Collaborators :=
  {| generateDocument := generateDocument sampleCollaborators;
     optimizeWithAI := λ _ _ _, Some emptyAnswer;
     recommend := recommend sampleCollaborators |}.


(** The nine steps of a base workflow, in the order of the list. *)
Definition allCalls (workflowId : string) (times : Z → Z) : list Call :=
  (λ '(i, id), {| call_now := times i; call_workflowId := workflowId;
                  call_stepId := id; call_stepData := noStepData |})
  <$> zip (seqZ 0 9) knownStepIds.

(** The Florida workflow after its nine steps. *)
Definition completedStore : Store :=
  runCalls sampleCollaborators (allCalls "WF-FL-1" (λ i, sampleNow + i))
    (workflowStore (sampleWorkflow allPending)).

(** A workflow whose business name lacks the LLC designator. *)
Definition unnamedWorkflow : Workflow :=
  {| wf_id := "WF-FL-2"; wf_businessName := "Acme"; wf_state := "FL";
     wf_type := "llc_formation"; wf_status := "created";
     wf_baseWorkflow := "Florida LLC Formation";
     wf_steps := wf_steps (sampleWorkflow allPending);
     wf_totalEstimatedDays := 15; wf_totalEstimatedCost := 125;
     wf_createdDate := sampleNow; wf_nextAction := Some "name_check";
     wf_progress := 0; wf_smartOptimizations := None |}.

(** *** Statuses of the steps, by id *)





(** The business name passes the name check. *)
Definition nameAccepted (businessName : string) : bool :=
  includes "llc" (toLowerCase businessName)
  || includes "limited liability company" (toLowerCase businessName).

From Stdlib Require Import Sorted.

(** ** Vocabulary of the further statements about the compliance engine *)

(** The events are in ascending order of due date. *)
Definition inDueOrder (events : list ComplianceEvent) : Prop :=
  StronglySorted (λ a b, ev_dueDate a ≤ ev_dueDate b) events.

(** Due in forty days, trigger window of forty-five days. *)
Definition eventDueInForty : ComplianceEvent :=
  sampleEvent "AR-WY-2024" (sampleNow + 40 * JSDate.msPerDay) 45 (Some scheduled).

(** A tax filing that has lost its [details]. *)
Definition eventWithoutDetails : ComplianceEvent :=
  {| ev_id := "TAX-Sales Tax-2024-6"; ev_type := tax_filing;
     ev_title := "Sales Tax Filing";
     ev_dueDate := sampleNow + 10 * JSDate.msPerDay;
     ev_cost := 0; ev_penalty := 50; ev_critical := true; ev_automatable := true;
     ev_automationTrigger := 30; ev_revenueOpportunity := 299 / 12;
     ev_details := None; ev_status := None |}.

(** * Properties *)

(** ** The Date arithmetic on known dates *)

Example mkDate_2024_03_15 : JSDate.mkDate 2024 2 15 = 1710460800000.
Proof. reflexivity. Qed.

Example mkDate_month_overflow : JSDate.mkDate 2024 12 20 = JSDate.mkDate 2025 0 20.
Proof. reflexivity. Qed.

Example getFullYear_2024_03_10 : JSDate.getFullYear 1710028800000 = 2024.
Proof. reflexivity. Qed.

Example getMonth_2024_03_10 : JSDate.getMonth 1710028800000 = 2.
Proof. reflexivity. Qed.

Example setFullYear_leap_day :
  JSDate.setFullYear (JSDate.mkDate 2024 1 29) 2025 = JSDate.mkDate 2025 2 1.
Proof. reflexivity. Qed.

(** [Math.ceil]: the least integer not below the quotient. *)
Lemma ceilDiv_spec x y :
  0 < y → (JSDate.ceilDiv x y - 1) * y < x ≤ JSDate.ceilDiv x y * y.
Proof.
  intros Hy. unfold JSDate.ceilDiv.
  pose proof (Z.div_mod (- x) y ltac:(lia)).
  pose proof (Z.mod_pos_bound (- x) y Hy). nia.
Qed.

Lemma ceilDiv_mono x x' y :
  0 < y → x ≤ x' → JSDate.ceilDiv x y ≤ JSDate.ceilDiv x' y.
Proof.
  intros Hy Hx. unfold JSDate.ceilDiv.
  assert ((- x') / y ≤ (- x) / y) by (apply Z.div_le_mono; lia). lia.
Qed.

(** ** The monad: running a call *)

Ltac unfold_M :=
  unfold run, mbind, M_bind, mret, M_ret, try_catch, throw, getStore, when_,
    storeMemory, mintEvidence, consoleError, emit, setWorkflows, setCalendars
    in *.

Lemma logged_nil s : logged s [] = s.
Proof. destruct s; unfold logged; simpl. by rewrite app_nil_r. Qed.

Lemma logged_logged s es1 es2 : logged (logged s es1) es2 = logged s (es1 ++ es2).
Proof. unfold logged; simpl. by rewrite app_assoc. Qed.

(** ** Compliance monitoring *)

Lemma classifyEvents_from today acc events :
  overdueEvents (foldl (classifyEvent today) acc events)
    = overdueEvents acc ++ (reportOverdue today <$> List.filter (isOverdue today) events)
  ∧ upcomingEvents (foldl (classifyEvent today) acc events)
    = upcomingEvents acc ++ (reportUpcoming today <$> List.filter (isUpcoming today) events)
  ∧ actionableEvents (foldl (classifyEvent today) acc events)
    = actionableEvents acc ++ List.filter (isActionable today) events.
Proof.
  revert acc. induction events as [|e events IH]; intros acc; simpl.
  - by rewrite !app_nil_r.
  - destruct (IH (classifyEvent today acc e)) as (Ho & Hu & Ha).
    rewrite Ho, Hu, Ha. clear IH Ho Hu Ha.
    unfold classifyEvent, isOverdue, isUpcoming, isActionable,
      reportOverdue, reportUpcoming.
    destruct (Z.ltb_spec (daysUntilDue today e) 0);
      destruct (Z.leb_spec (daysUntilDue today e) 30);
      destruct (Z.leb_spec 0 (daysUntilDue today e)); try lia;
      destruct (ev_automatable e && (daysUntilDue today e <=? ev_automationTrigger e));
      simpl; rewrite <- ?app_assoc; done.
Qed.

Lemma classifyEvents_filter today events :
  overdueEvents (classifyEvents today events)
    = reportOverdue today <$> List.filter (isOverdue today) events
  ∧ upcomingEvents (classifyEvents today events)
    = reportUpcoming today <$> List.filter (isUpcoming today) events
  ∧ actionableEvents (classifyEvents today events)
    = List.filter (isActionable today) events.
Proof.
  unfold classifyEvents.
  destruct (classifyEvents_from today
              {| upcomingEvents := []; overdueEvents := []; actionableEvents := [] |}
              events) as (Ho & Hu & Ha).
  rewrite Ho, Hu, Ha. done.
Qed.

Lemma daysUntilDue_antitone today today' e :
  today ≤ today' → daysUntilDue today' e ≤ daysUntilDue today e.
Proof.
  intros. unfold daysUntilDue. apply ceilDiv_mono; [reflexivity | lia].
Qed.

Lemma executeAutomatedCompliance_run event calendar s :
  run (executeAutomatedCompliance event calendar) s
  = (Ret (automationResultOf calendar event),
     logged s (automationEffects calendar event)).
Proof.
  unfold automationResultOf, automationEffects, executeAutomatedCompliance.
  unfold_M. simpl. by rewrite logged_logged.
Qed.

Lemma forEach_executeAutomatedCompliance_run calendar events s :
  run (forEach (λ event, executeAutomatedCompliance event calendar) events) s
  = (Ret (automationResultOf calendar <$> events),
     logged s (concat (automationEffects calendar <$> events))).
Proof.
  revert s. induction events as [|e events IH]; intros s.
  - simpl. unfold_M. by rewrite logged_nil.
  - cbn [forEach]. unfold run, mbind, M_bind in *.
    pose proof (executeAutomatedCompliance_run e calendar s) as He.
    unfold run in He. rewrite He, IH. unfold mret, M_ret.
    rewrite logged_logged. reflexivity.
Qed.

(** The run of a monitoring pass over a stored calendar. *)
Lemma monitorCompliance_run ext now calendarId row s :
  calendars s !! calendarId = Some row →
  ∃ report,
    run (monitorCompliance ext now calendarId) s
    = (Ret (Monitored report
              (automationResultOf (crow_calendar_data row)
                 <$> List.filter (isActionable now)
                       (cal_events (crow_calendar_data row)))
              (calculateGeneratedRevenue
                 (automationResultOf (crow_calendar_data row)
                    <$> List.filter (isActionable now)
                          (cal_events (crow_calendar_data row))))),
       logged s (MemoryStored "compliance_monitoring" calendarId
                 :: concat (automationEffects (crow_calendar_data row)
                              <$> List.filter (isActionable now)
                                    (cal_events (crow_calendar_data row)))))
    ∧ rpt_overdue report
      = reportOverdue now <$> List.filter (isOverdue now)
                                (cal_events (crow_calendar_data row))
    ∧ rpt_upcoming report
      = reportUpcoming now <$> List.filter (isUpcoming now)
                                 (cal_events (crow_calendar_data row))
    ∧ rpt_actionable report
      = List.filter (isActionable now) (cal_events (crow_calendar_data row)).
Proof.
  intros Hrow.
  destruct (classifyEvents_filter now (cal_events (crow_calendar_data row)))
    as (Ho & Hu & Ha).
  eexists. split.
  - unfold monitorCompliance, selectCalendar.
    unfold run, try_catch, mbind, M_bind, getStore, mret, M_ret at 1.
    rewrite Hrow.
    unfold storeMemory, emit.
    pose proof (forEach_executeAutomatedCompliance_run (crow_calendar_data row)
                  (actionableEvents
                     (classifyEvents now (cal_events (crow_calendar_data row))))
                  (logged s [MemoryStored "compliance_monitoring" calendarId])) as Hf.
    unfold run in Hf. rewrite Hf. unfold mret, M_ret.
    rewrite logged_logged, Ha. reflexivity.
  - simpl. auto.
Qed.

(** A pass over an unknown calendar only logs the error. *)
Lemma monitorCompliance_not_found ext now calendarId s :
  calendars s !! calendarId = None →
  run (monitorCompliance ext now calendarId) s
  = (Ret (MonitorError "Compliance calendar not found"),
     logged s [ConsoleError "Error monitoring compliance:"]).
Proof.
  intros Hrow. unfold monitorCompliance, selectCalendar. unfold_M.
  rewrite Hrow. reflexivity.
Qed.

Lemma invocations_logged eventId s es :
  invocations eventId (logged s es)
  = (invocations eventId s + length (List.filter (isInvocationOf eventId) es))%nat.
Proof.
  unfold invocations, logged; simpl.
  by rewrite List.filter_app, length_app.
Qed.

Lemma invoked_when_dispatched calendar e events :
  e ∈ events →
  (0 < length (List.filter (isInvocationOf (ev_id e))
                 (concat (automationEffects calendar <$> events))))%nat.
Proof.
  induction 1 as [e events | e e' events _ IH];
    cbn [fmap list_fmap concat app automationEffects List.filter isInvocationOf].
  - rewrite String.eqb_refl. simpl. lia.
  - destruct (String.eqb (ev_id e') (ev_id e)); simpl; lia.
Qed.

Lemma isActionable_later now now' e :
  now ≤ now' → isActionable now e = true → isActionable now' e = true.
Proof.
  intros Hle. unfold isActionable. rewrite !andb_true_iff, !Z.leb_le.
  pose proof (daysUntilDue_antitone now now' e Hle). intuition lia.
Qed.

Lemma isOverdue_later now now' e :
  now ≤ now' → isOverdue now e = true → isOverdue now' e = true.
Proof.
  intros Hle. unfold isOverdue. rewrite !Z.ltb_lt.
  pose proof (daysUntilDue_antitone now now' e Hle). lia.
Qed.

Lemma elem_of_filter_bool {A} (f : A → bool) (x : A) (l : list A) :
  x ∈ List.filter f l ↔ x ∈ l ∧ f x = true.
Proof. rewrite !list_elem_of_In. apply List.filter_In. Qed.

(** A pass leaves the store as it was, but for the effects it appends, and
    among them is the invocation of the executor for every actionable
    event. *)
Lemma monitorCompliance_invokes ext now calendarId row s e :
  calendars s !! calendarId = Some row →
  e ∈ cal_events (crow_calendar_data row) →
  isActionable now e = true →
  calendars (run (monitorCompliance ext now calendarId) s).2 = calendars s
  ∧ (invocations (ev_id e) s
     < invocations (ev_id e) (run (monitorCompliance ext now calendarId) s).2)%nat.
Proof.
  intros Hrow He Hact.
  destruct (monitorCompliance_run ext now calendarId row s Hrow) as (report & Hrun & _).
  rewrite Hrun. simpl. split; [done|].
  rewrite invocations_logged. simpl.
  assert (e ∈ List.filter (isActionable now) (cal_events (crow_calendar_data row))) as Hin
    by (by apply elem_of_filter_bool).
  pose proof (invoked_when_dispatched (crow_calendar_data row) e _ Hin). lia.
Qed.

(** C10: a monitoring pass never writes back to the stored compliance
    calendars.  For every store, calendar id and time [now], the table of
    calendars after [monitorCompliance] is the table before it: every
    calendar row, and so every event's id, due date, status and other
    fields, is unchanged, and so is the table of workflows; the pass only
    appends to the effect trace. *)
Theorem monitorCompliance_reads_only ext now calendarId s :
  calendars (run (monitorCompliance ext now calendarId) s).2 = calendars s
  ∧ workflows (run (monitorCompliance ext now calendarId) s).2 = workflows s
  ∧ (∀ id, storedEvents (run (monitorCompliance ext now calendarId) s).2 id
           = storedEvents s id)
  ∧ ∃ effects, (run (monitorCompliance ext now calendarId) s).2 = logged s effects.
Proof.
  destruct (calendars s !! calendarId) as [row|] eqn:Hrow.
  - destruct (monitorCompliance_run ext now calendarId row s Hrow)
      as (report & Hrun & _).
    rewrite Hrun. simpl. repeat split; eauto.
  - rewrite (monitorCompliance_not_found ext now calendarId s Hrow).
    simpl. repeat split; eauto.
Qed.

(** C3 (as the code has it): for every list of events and every time
    [now], the monitor computes [daysUntilDue] as the ceiling, not the
    floor, of [(dueDate - now)] in days, and lists an event as overdue iff
    [daysUntilDue < 0], as upcoming iff [0 <= daysUntilDue <= 30], and as
    actionable iff it is automatable and [daysUntilDue <= automationTrigger].
    The status of an event plays no part: replacing the statuses by any
    others leaves every event in the same buckets, so the buckets are a
    function of (dueDate, automatable, automationTrigger, now) alone. *)
Theorem monitor_classification now events :
  (∀ e, (daysUntilDue now e - 1) * JSDate.msPerDay
          < ev_dueDate e - now ≤ daysUntilDue now e * JSDate.msPerDay)
  ∧ overdueEvents (classifyEvents now events)
    = reportOverdue now <$> List.filter (λ e, daysUntilDue now e <? 0) events
  ∧ upcomingEvents (classifyEvents now events)
    = reportUpcoming now
        <$> List.filter (λ e, (0 <=? daysUntilDue now e) && (daysUntilDue now e <=? 30))
              events
  ∧ actionableEvents (classifyEvents now events)
    = List.filter
        (λ e, ev_automatable e && (daysUntilDue now e <=? ev_automationTrigger e))
        events
  ∧ ∀ f,
      rep_event <$> overdueEvents (classifyEvents now (restatus f <$> events))
        = restatus f <$> (rep_event <$> overdueEvents (classifyEvents now events))
      ∧ rep_event <$> upcomingEvents (classifyEvents now (restatus f <$> events))
        = restatus f <$> (rep_event <$> upcomingEvents (classifyEvents now events))
      ∧ actionableEvents (classifyEvents now (restatus f <$> events))
        = restatus f <$> actionableEvents (classifyEvents now events).
Proof.
  split; [|split; [|split; [|split]]].
  - intros e. unfold daysUntilDue. apply ceilDiv_spec. reflexivity.
  - apply classifyEvents_filter.
  - apply classifyEvents_filter.
  - apply classifyEvents_filter.
  - intros f.
    destruct (classifyEvents_filter now events) as (Ho & Hu & Ha).
    destruct (classifyEvents_filter now (restatus f <$> events)) as (Ho' & Hu' & Ha').
    rewrite Ho, Hu, Ha, Ho', Hu', Ha'. clear.
    induction events as [|e events (IHo & IHu & IHa)]; [done|].
    change (isOverdue now (restatus f e)) with (isOverdue now e) in *.
    cbn [fmap list_fmap List.filter].
    change (isOverdue now (restatus f e)) with (isOverdue now e).
    change (isUpcoming now (restatus f e)) with (isUpcoming now e).
    change (isActionable now (restatus f e)) with (isActionable now e).
    destruct (isOverdue now e), (isUpcoming now e), (isActionable now e);
      cbn [fmap list_fmap rep_event reportOverdue reportUpcoming];
      rewrite ?IHo, ?IHu, ?IHa; done.
Qed.

(** C3, counterexample: the claim as stated fails.  An event already
    actioned, due in ten days with a trigger window of fifteen, is still
    listed as actionable; an event already actioned and five days late is
    still listed as overdue; an event due twelve hours ago is given
    [daysUntilDue = 0], not [-1], and is listed as upcoming, not overdue. *)
Lemma classification_differs_from_spec :
  ¬ classifiedAsSpecified sampleNow eventActioned
  ∧ ¬ classifiedAsSpecified sampleNow eventActionedLate
  ∧ ¬ classifiedAsSpecified sampleNow eventDueHalfDayAgo.
Proof.
  split; [|split]; intros (Hd & Ho & Hu & Ha).
  - assert (SpecMonitor.actionable sampleNow eventActioned = true) as H
      by (apply Ha; vm_compute; discriminate).
    vm_compute in H. discriminate.
  - assert (SpecMonitor.overdue sampleNow eventActionedLate = true) as H
      by (apply Ho; vm_compute; discriminate).
    vm_compute in H. discriminate.
  - vm_compute in Hd. discriminate.
Qed.

(** C4 (as the code has it): the monitor does not record the outcome of a
    dispatch.  For every stored calendar, every actionable event of it and
    every later time [now'], a pass at [now] invokes the executor for the
    event and leaves the stored calendar, and so the event's status,
    exactly as it was, whether the executor succeeds or fails; a second
    pass at [now'] invokes the executor for the event again. *)
Theorem dispatch_not_recorded ext s calendarId row now now' e :
  calendars s !! calendarId = Some row →
  e ∈ cal_events (crow_calendar_data row) →
  isActionable now e = true →
  now ≤ now' →
  calendars (run (monitorCompliance ext now calendarId) s).2 = calendars s
  ∧ storedStatus (run (monitorCompliance ext now calendarId) s).2 calendarId (ev_id e)
    = storedStatus s calendarId (ev_id e)
  ∧ (invocations (ev_id e) s
     < invocations (ev_id e) (run (monitorCompliance ext now calendarId) s).2)%nat
  ∧ (invocations (ev_id e) (run (monitorCompliance ext now calendarId) s).2
     < invocations (ev_id e)
         (run (monitorCompliance ext now' calendarId)
            (run (monitorCompliance ext now calendarId) s).2).2)%nat.
Proof.
  intros Hrow He Hact Hle.
  destruct (monitorCompliance_invokes ext now calendarId row s e Hrow He Hact)
    as (Hcal & Hinv).
  split; [done|]. split.
  { unfold storedStatus, storedEvents. by rewrite Hcal. }
  split; [done|].
  apply (monitorCompliance_invokes ext now' calendarId row).
  - by rewrite Hcal.
  - done.
  - by apply (isActionable_later now now').
Qed.

(** C4, witness: the event due in ten days with a trigger window of
    fifteen, monitored today and again tomorrow. *)
Lemma dispatch_not_recorded_witness :
  let s := sampleStore [eventDueInTen] in
  let s1 := (run (monitorCompliance sampleCollaborators sampleNow "COMP-WY-1") s).2 in
  let s2 := (run (monitorCompliance sampleCollaborators
                    (sampleNow + JSDate.msPerDay) "COMP-WY-1") s1).2 in
  calendars s1 = calendars s
  ∧ storedStatus s1 "COMP-WY-1" "AR-WY-2024" = storedStatus s "COMP-WY-1" "AR-WY-2024"
  ∧ (invocations "AR-WY-2024" s < invocations "AR-WY-2024" s1)%nat
  ∧ (invocations "AR-WY-2024" s1 < invocations "AR-WY-2024" s2)%nat.
Proof.
  refine (dispatch_not_recorded sampleCollaborators (sampleStore [eventDueInTen])
            "COMP-WY-1" _ sampleNow (sampleNow + JSDate.msPerDay) eventDueInTen
            _ _ _ _).
  - reflexivity.
  - apply list_elem_of_here.
  - reflexivity.
  - vm_compute. discriminate.
Defined.

(** C4, counterexample: the claim as stated fails on its own example.  The
    event due in ten days is dispatched with success, its stored status is
    still [scheduled], and a second pass at the same time dispatches it
    again. *)
Lemma dispatch_is_not_recorded :
  ¬ dispatchIsRecorded sampleCollaborators (sampleStore [eventDueInTen])
      "COMP-WY-1" sampleNow sampleNow "AR-WY-2024".
Proof. vm_compute. intros [H _]. discriminate H. Qed.

(** C7 (as the code has it): an event at least a full day past due
    ([daysUntilDue < 0]) is listed as overdue by every later pass, but the
    engine has no overdue-unactioned state: the stored calendar is never
    changed, and an overdue automatable event whose trigger window is not
    negative is dispatched to the executor by every later pass. *)
Theorem overdue_still_dispatched ext s calendarId row now now' e :
  calendars s !! calendarId = Some row →
  e ∈ cal_events (crow_calendar_data row) →
  daysUntilDue now e < 0 →
  now ≤ now' →
  listedOverdue (run (monitorCompliance ext now' calendarId) s).1 (ev_id e) = true
  ∧ calendars (run (monitorCompliance ext now' calendarId) s).2 = calendars s
  ∧ (ev_automatable e = true → 0 ≤ ev_automationTrigger e →
     (invocations (ev_id e) s
      < invocations (ev_id e) (run (monitorCompliance ext now' calendarId) s).2)%nat).
Proof.
  intros Hrow He Hd Hle.
  pose proof (daysUntilDue_antitone now now' e Hle) as Hd'.
  destruct (monitorCompliance_run ext now' calendarId row s Hrow)
    as (report & Hrun & Ho & _).
  split; [|split].
  - rewrite Hrun. simpl. rewrite Ho. apply existsb_exists.
    exists (reportOverdue now' e). split; [|apply String.eqb_refl].
    apply list_elem_of_In, list_elem_of_fmap. exists e. split; [done|].
    apply elem_of_filter_bool. split; [done|].
    unfold isOverdue. apply Z.ltb_lt. lia.
  - by rewrite Hrun.
  - intros Hauto Htrig.
    apply (monitorCompliance_invokes ext now' calendarId row s e Hrow He).
    unfold isActionable. rewrite Hauto. apply Z.leb_le. lia.
Qed.

(** C7, witness: the event due five days ago, monitored five days later. *)
Lemma overdue_still_dispatched_witness :
  let s := sampleStore [eventDueFiveDaysAgo] in
  let r := run (monitorCompliance sampleCollaborators
                  (sampleNow + 5 * JSDate.msPerDay) "COMP-WY-1") s in
  listedOverdue r.1 "AR-WY-2024" = true
  ∧ calendars r.2 = calendars s
  ∧ (ev_automatable eventDueFiveDaysAgo = true →
     0 ≤ ev_automationTrigger eventDueFiveDaysAgo →
     (invocations "AR-WY-2024" s < invocations "AR-WY-2024" r.2)%nat).
Proof.
  refine (overdue_still_dispatched sampleCollaborators
            (sampleStore [eventDueFiveDaysAgo]) "COMP-WY-1" _ sampleNow
            (sampleNow + 5 * JSDate.msPerDay) eventDueFiveDaysAgo _ _ _ _).
  - reflexivity.
  - apply list_elem_of_here.
  - vm_compute. reflexivity.
  - vm_compute. discriminate.
Defined.

(** C7, counterexample: the claim as stated fails on its own example.  The
    event due five days ago and still scheduled is listed as overdue, and
    the same pass dispatches it to the executor; the event due twelve hours
    ago and still scheduled is not yet listed as overdue. *)
Lemma overdue_event_is_dispatched :
  ¬ overdueUnactioned sampleCollaborators (sampleStore [eventDueFiveDaysAgo])
      "COMP-WY-1" sampleNow "AR-WY-2024"
  ∧ ¬ overdueUnactioned sampleCollaborators (sampleStore [eventDueHalfDayAgo])
        "COMP-WY-1" sampleNow "AR-WY-2024".
Proof.
  split; vm_compute.
  - intros [_ H]. discriminate H.
  - intros [H _]. discriminate H.
Qed.

(** ** Calendar generation *)

Lemma insertBy_Permutation {A} (le : A → A → bool) x l :
  Permutation (insertBy le x l) (x :: l).
Proof.
  induction l as [|y l IH]; simpl; [done|].
  destruct (le x y); [done|]. rewrite IH. apply perm_swap.
Qed.

Lemma sortBy_Permutation {A} (le : A → A → bool) l : Permutation (sortBy le l) l.
Proof.
  induction l as [|x l IH]; simpl; [done|].
  unfold sortBy in *. rewrite insertBy_Permutation. by constructor.
Qed.

Lemma filter_Permutation_bool {A} (f : A → bool) l l' :
  Permutation l l' → Permutation (List.filter f l) (List.filter f l').
Proof.
  induction 1 as [|x l l' _ IH|x y l|l l' l'' _ IH1 _ IH2]; simpl.
  - done.
  - destruct (f x); [by constructor | done].
  - destruct (f x), (f y); try done. apply perm_swap.
  - by etrans.
Qed.

(** The run of a calendar generation for a supported state whose calendar
    id is not taken. *)
Lemma createComplianceCalendar_run now companyData stateRequirements s :
  complianceRequirements (cd_state companyData) = Some stateRequirements →
  calendars s !! calendarIdOf now companyData = None →
  ∃ calendar nextActions projection s',
    run (createComplianceCalendar now companyData) s
    = (Ret (CalendarCreated (calendarIdOf now companyData) calendar
              nextActions projection), s')
    ∧ cal_events calendar
      = generateEvents stateRequirements (cd_state companyData)
          (cd_formationDate companyData) (cd_businessType companyData)
          (JSDate.getFullYear now)
    ∧ calendars s' !! calendarIdOf now companyData
      = Some {| crow_business_name := cd_businessName companyData;
                crow_state := cd_state companyData;
                crow_ein := cd_ein companyData;
                crow_calendar_data := calendar;
                crow_created_at := now |}.
Proof.
  intros Hreq Hfresh. unfold calendarIdOf in *.
  unfold createComplianceCalendar, insertCalendar. unfold_M.
  rewrite Hreq, Hfresh. simpl.
  do 4 eexists. split; [reflexivity|]. split; [reflexivity|].
  simpl. apply lookup_insert_eq.
Qed.

(** A generation whose calendar id is taken fails on the UNIQUE
    constraint and stores nothing. *)
Lemma createComplianceCalendar_duplicate now companyData stateRequirements s row :
  complianceRequirements (cd_state companyData) = Some stateRequirements →
  calendars s !! calendarIdOf now companyData = Some row →
  run (createComplianceCalendar now companyData) s
  = (Ret (CalendarError "duplicate key value violates unique constraint"),
     logged s [ConsoleError "Error creating compliance calendar:"]).
Proof.
  intros Hreq Htaken. unfold calendarIdOf in *.
  unfold createComplianceCalendar, insertCalendar. unfold_M.
  by rewrite Hreq, Htaken.
Qed.

Lemma supported_requirements state :
  state ∈ ["FL"; "WY"; "IL"] → is_Some (complianceRequirements state).
Proof.
  intros H. repeat (apply elem_of_cons in H as [->|H]; [by eexists|]).
  by apply elem_of_nil in H.
Qed.

Lemma seqZ_three y : seqZ y 3 = [0 + y; 1 + y; 2 + y].
Proof. reflexivity. Qed.

Lemma annualReports_eventsOfYear stateRequirements state formationDate businessType year :
  state ∈ ["WY"; "IL"] →
  complianceRequirements state = Some stateRequirements →
  annualReports (eventsOfYear stateRequirements state formationDate businessType year)
  = [createAnnualReportEvent stateRequirements state year formationDate].
Proof.
  intros H Hreq.
  repeat (apply elem_of_cons in H as [->|H]); [| |by apply elem_of_nil in H];
    vm_compute in Hreq; injection Hreq as <-; reflexivity.
Qed.

Lemma annualReports_generateEvents stateRequirements state formationDate businessType year :
  state ∈ ["WY"; "IL"] →
  complianceRequirements state = Some stateRequirements →
  Permutation
    (annualReports
       (generateEvents stateRequirements state formationDate businessType year))
    ((λ Y, createAnnualReportEvent stateRequirements state Y formationDate)
       <$> seqZ year 3).
Proof.
  intros Hst Hreq. unfold generateEvents, annualReports.
  rewrite (filter_Permutation_bool _ _ _ (sortBy_Permutation _ _)).
  rewrite seqZ_three. cbn [fmap list_fmap concat].
  rewrite !List.filter_app. fold annualReports.
  rewrite !(annualReports_eventsOfYear _ _ _ _ _ Hst Hreq). reflexivity.
Qed.

(** C9: for a jurisdiction whose annual report is due on day 15 of the
    anniversary month (WY or IL), a generated calendar holds exactly one
    annual-report event per year of its three-year horizon, due on
    (Y, month(formationDate), 15) for the years Y from the year of
    generation on; generated in 2024 for an entity formed on 2024-03-10,
    the annual-report events are exactly three, due 2024-03-15,
    2025-03-15 and 2026-03-15. *)
Theorem annual_report_on_anniversary now companyData s :
  cd_state companyData ∈ ["WY"; "IL"] →
  calendars s !! calendarIdOf now companyData = None →
  ∃ calendar nextActions projection s',
    run (createComplianceCalendar now companyData) s
    = (Ret (CalendarCreated (calendarIdOf now companyData) calendar
              nextActions projection), s')
    ∧ Permutation
        (ev_dueDate <$> annualReports (cal_events calendar))
        ((λ Y, JSDate.mkDate Y (JSDate.getMonth (cd_formationDate companyData)) 15)
           <$> seqZ (JSDate.getFullYear now) 3)
    ∧ (JSDate.getFullYear now = 2024 →
       cd_formationDate companyData = JSDate.mkDate 2024 2 10 →
       ev_dueDate <$> annualReports (cal_events calendar)
       = [JSDate.mkDate 2024 2 15; JSDate.mkDate 2025 2 15; JSDate.mkDate 2026 2 15]).
Proof.
  intros Hst Hfresh.
  assert (is_Some (complianceRequirements (cd_state companyData))) as [reqs Hreq].
  { apply supported_requirements. by apply list_elem_of_further. }
  destruct (createComplianceCalendar_run now companyData reqs s Hreq Hfresh)
    as (calendar & nextActions & projection & s' & Hrun & Hev & _).
  exists calendar, nextActions, projection, s'.
  split; [done|]. rewrite Hev. split.
  - rewrite (annualReports_generateEvents _ _ _ _ _ Hst Hreq).
    rewrite <- list_fmap_compose.
    repeat (apply elem_of_cons in Hst as [Hst|Hst]; [rewrite Hst; reflexivity|]).
    by apply elem_of_nil in Hst.
  - intros -> ->.
    repeat (apply elem_of_cons in Hst as [Hst|Hst];
            [rewrite Hst in Hreq |- *; vm_compute in Hreq; injection Hreq as <-;
             vm_compute; reflexivity|]).
    by apply elem_of_nil in Hst.
Qed.

(** C9, witness: a Wyoming company formed on 2024-03-10, its calendar
    generated on 2024-06-01 in an empty store. *)
Lemma annual_report_on_anniversary_witness :
  ∃ calendar nextActions projection s',
    run (createComplianceCalendar sampleNow (sampleCompany "WY")) emptyStore
    = (Ret (CalendarCreated (calendarIdOf sampleNow (sampleCompany "WY")) calendar
              nextActions projection), s')
    ∧ ev_dueDate <$> annualReports (cal_events calendar)
      = [JSDate.mkDate 2024 2 15; JSDate.mkDate 2025 2 15; JSDate.mkDate 2026 2 15].
Proof.
  destruct (annual_report_on_anniversary sampleNow (sampleCompany "WY") emptyStore)
    as (calendar & nextActions & projection & s' & Hrun & _ & Hex).
  - apply list_elem_of_here.
  - reflexivity.
  - exists calendar, nextActions, projection, s'. split; [exact Hrun|].
    apply Hex; reflexivity.
Defined.

(** *** Event ids *)

Lemma append_empty s : "" +:+ s = s.
Proof. reflexivity. Qed.

Lemma append_String c a s : String c a +:+ s = String c (a +:+ s).
Proof. reflexivity. Qed.

Lemma digits_then_suffix a b s t :
  allDigits a = true → allDigits b = true → isSuffix s = true → isSuffix t = true →
  a +:+ s = b +:+ t → a = b ∧ s = t.
Proof.
  revert b. induction a as [|c a IH]; intros [|d b] Ha Hb Hs Ht H;
    rewrite ?append_empty, ?append_String in H.
  - done.
  - subst s. simpl in Hs, Hb. apply Ascii.eqb_eq in Hs as ->. done.
  - subst t. simpl in Ht, Ha. apply Ascii.eqb_eq in Ht as ->. done.
  - simpl in Ha, Hb.
    apply andb_true_iff in Ha as [_ Ha]. apply andb_true_iff in Hb as [_ Hb].
    injection H as -> H. destruct (IH b Ha Hb Hs Ht H) as [-> ->]. done.
Qed.

Lemma numeral_then_suffix a b s t :
  isNumeral a = true → isNumeral b = true → isSuffix s = true → isSuffix t = true →
  a +:+ s = b +:+ t → a = b ∧ s = t.
Proof.
  intros Ha Hb Hs Ht H.
  assert (∀ x, isNumeral x = true →
            (∃ x', x = String "-"%char x' ∧ nonEmpty x' = true ∧ allDigits x' = true)
            ∨ (nonEmpty x = true ∧ allDigits x = true ∧ ∀ c x', x = String c x' → c ≠ "-"%char))
    as Hshape.
  { intros x Hx. unfold isNumeral in Hx.
    destruct x as [|c x]; [done|].
    destruct (Ascii.eqb_spec c "-"%char) as [->|Hc].
    - left. exists x. by apply andb_true_iff in Hx as [? ?].
    - right.
      assert (nonEmpty (String c x) && allDigits (String c x) = true) as Hx'.
      { destruct c as [[] [] [] [] [] [] [] []]; done. }
      apply andb_true_iff in Hx' as [? ?]. repeat split; try done.
      intros c' x' [= -> ->]. done. }
  destruct (Hshape a Ha) as [(a' & -> & Hna & Hda)|(Hna & Hda & Hca)];
    destruct (Hshape b Hb) as [(b' & -> & Hnb & Hdb)|(Hnb & Hdb & Hcb)].
  - rewrite !append_String in H. injection H as H.
    destruct (digits_then_suffix a' b' s t Hda Hdb Hs Ht H) as [-> ->]. done.
  - destruct b as [|d b]; [done|]. rewrite !append_String in H.
    injection H as <- _. by destruct (Hcb _ _ eq_refl).
  - destruct a as [|c a]; [done|]. rewrite !append_String in H.
    injection H as -> _. by destruct (Hca _ _ eq_refl).
  - by apply digits_then_suffix.
Qed.

Lemma pretty_N_go_digits x s :
  allDigits s = true → allDigits (pretty_N_go x s) = true.
Proof.
  revert s. induction (N.lt_wf_0 x) as [x _ IH]; intros s Hs.
  destruct (decide (x = 0)%N) as [->|Hx]; [by rewrite pretty_N_go_0|].
  rewrite pretty_N_go_step by lia. apply IH.
  - apply N.div_lt; lia.
  - simpl. rewrite Hs, andb_true_r.
    unfold pretty_N_char. by repeat case_match.
Qed.

Lemma pretty_N_go_nonEmpty x s :
  nonEmpty s = true → nonEmpty (pretty_N_go x s) = true.
Proof.
  revert s. induction (N.lt_wf_0 x) as [x _ IH]; intros s Hs.
  destruct (decide (x = 0)%N) as [->|Hx]; [by rewrite pretty_N_go_0|].
  rewrite pretty_N_go_step by lia. apply IH; [apply N.div_lt; lia | done].
Qed.

Lemma pretty_N_digits (x : N) :
  nonEmpty (pretty x) = true ∧ allDigits (pretty x) = true.
Proof.
  unfold pretty, pretty_N. case_decide as Hx; [done|].
  split.
  - rewrite pretty_N_go_step by lia. by apply pretty_N_go_nonEmpty.
  - by apply pretty_N_go_digits.
Qed.

Lemma pretty_Z_numeral (x : Z) : isNumeral (pretty x) = true.
Proof.
  assert (∀ s, nonEmpty s = true → allDigits s = true → isNumeral s = true) as Hnum.
  { intros [|c s] Hn Hd; [done|]. unfold isNumeral.
    simpl in Hd. apply andb_true_iff in Hd as [Hc Hd].
    destruct c as [[] [] [] [] [] [] [] []]; try done;
      simpl; by rewrite Hd. }
  destruct x as [|p|p].
  - done.
  - destruct (pretty_N_digits (N.pos p)). by apply Hnum.
  - destruct (pretty_N_digits (N.pos p)) as [Hn Hd].
    change (isNumeral (String "-"%char (pretty (N.pos p))) = true).
    cbv beta iota delta [isNumeral]. by rewrite Hn, Hd.
Qed.

Lemma ids_createTaxEvents state taxObligation year :
  ev_id <$> createTaxEvents taxObligation year
  = eventIdOf state
      <$> ((λ period, (StateTax (tax_type taxObligation), year, period))
             <$> taxPeriods (tax_frequency taxObligation)).
Proof.
  unfold createTaxEvents, taxPeriods.
  repeat case_match; rewrite <- ?list_fmap_compose; reflexivity.
Qed.

(** The ids of the events of one year are the ids of that year's keys. *)
Lemma ids_eventsOfYear stateRequirements state formationDate businessType year :
  ev_id <$> eventsOfYear stateRequirements state formationDate businessType year
  = eventIdOf state <$> keysOfYear stateRequirements year.
Proof.
  unfold eventsOfYear, keysOfYear, obligationsOf.
  rewrite !fmap_app.
  apply (f_equal2 app); [by case_match|].
  apply (f_equal2 app).
  { induction (sr_taxObligations stateRequirements) as [|tax taxes IH]; [done|].
    cbn [fmap list_fmap concat]. rewrite !fmap_app.
    apply (f_equal2 app); [|exact IH].
    rewrite (ids_createTaxEvents state), <- !list_fmap_compose. reflexivity. }
  apply (f_equal2 app); [by case_match|].
  apply (f_equal2 app); [done|].
  unfold createFederalTaxEvents. cbn [fmap list_fmap].
  rewrite <- !list_fmap_compose. reflexivity.
Qed.

Lemma ids_generateEvents stateRequirements state formationDate businessType year :
  Permutation
    (ev_id <$> generateEvents stateRequirements state formationDate businessType year)
    (eventIdOf state <$> eventKeys stateRequirements year).
Proof.
  unfold generateEvents, eventKeys.
  rewrite (sortBy_Permutation leDueDate).
  induction (seqZ year 3) as [|y ys IH]; [done|].
  cbn [fmap list_fmap concat]. rewrite !fmap_app.
  rewrite ids_eventsOfYear. by apply Permutation_app_head.
Qed.

Lemma String_inv c d s t : String c s = String d t → c = d ∧ s = t.
Proof. by intros [= -> ->]. Qed.

(** Two keys of a supported jurisdiction that have the same id are the
    same key.  The year's numeral is kept abstract; what precedes and
    follows it in an id is compared character by character. *)
Ltac same_id_same_key :=
  let y1 := fresh "y" in
  let y2 := fresh "y" in
  let H := fresh "H" in
  let Hn1 := fresh "Hn" in
  let Hn2 := fresh "Hn" in
  let Hinj := fresh "Hinj" in
  let a := fresh "a" in
  let b := fresh "b" in
  intros y1 y2 H;
  cbn [eventIdOf fst snd] in H;
  pose proof (pretty_Z_numeral y1) as Hn1;
  pose proof (pretty_Z_numeral y2) as Hn2;
  assert (pretty y1 = pretty y2 → y1 = y2) as Hinj by apply (inj pretty);
  revert H Hn1 Hn2 Hinj;
  generalize (pretty y1) (pretty y2);
  intros a b H Hn1 Hn2 Hinj;
  vm_compute in H;
  repeat (match type of H with
          | String _ _ = String _ _ =>
              let Hc := fresh "Hc" in
              apply String_inv in H as [Hc H];
              first [discriminate Hc | clear Hc]
          end);
  try discriminate;
  lazymatch type of H with
  | a = b => split; [reflexivity | by apply Hinj]
  | _ a ?s = _ b ?t =>
      apply (numeral_then_suffix a b s t Hn1 Hn2 eq_refl eq_refl) in H
        as [H ?];
      split; [first [reflexivity | discriminate] | by apply Hinj]
  end.

Lemma eventIdOf_inj state stateRequirements :
  state ∈ ["FL"; "WY"; "IL"] →
  complianceRequirements state = Some stateRequirements →
  Forall (λ ob1,
    Forall (λ ob2,
      ∀ y1 y2,
        eventIdOf state (ob1.1, y1, ob1.2) = eventIdOf state (ob2.1, y2, ob2.2) →
        ob1 = ob2 ∧ y1 = y2)
      (obligationsOf stateRequirements))
    (obligationsOf stateRequirements).
Proof.
  intros Hst Hreq.
  repeat (apply elem_of_cons in Hst as [->|Hst]);
    [| | |by apply elem_of_nil in Hst];
    vm_compute in Hreq; injection Hreq as <-;
    match goal with
    | |- Forall _ ?l => let obs := eval vm_compute in l in change l with obs
    end.
  - repeat (first [apply Forall_nil_2 | apply Forall_cons_2]);
      same_id_same_key.
  - repeat (first [apply Forall_nil_2 | apply Forall_cons_2]);
      same_id_same_key.
  - repeat (first [apply Forall_nil_2 | apply Forall_cons_2]);
      same_id_same_key.
Qed.

Lemma NoDup_obligationsOf state stateRequirements :
  state ∈ ["FL"; "WY"; "IL"] →
  complianceRequirements state = Some stateRequirements →
  NoDup (obligationsOf stateRequirements).
Proof.
  intros Hst Hreq.
  repeat (apply elem_of_cons in Hst as [->|Hst]);
    [| | |by apply elem_of_nil in Hst];
    vm_compute in Hreq; injection Hreq as <-;
    apply (bool_decide_unpack _); vm_compute; reflexivity.
Qed.

Lemma elem_of_keysOfYear stateRequirements year key :
  key ∈ keysOfYear stateRequirements year ↔
  ∃ ob, key = (ob.1, year, ob.2) ∧ ob ∈ obligationsOf stateRequirements.
Proof. unfold keysOfYear. apply list_elem_of_fmap. Qed.

Lemma NoDup_keysOfYear stateRequirements year :
  NoDup (obligationsOf stateRequirements) →
  NoDup (keysOfYear stateRequirements year).
Proof.
  intros Hnd. unfold keysOfYear. apply NoDup_fmap_2_strong; [|done].
  intros [t1 p1] [t2 p2] _ _ [= -> ->]. done.
Qed.

Lemma elem_of_eventKeys stateRequirements currentYear key :
  key ∈ eventKeys stateRequirements currentYear →
  ∃ ob year, key = (ob.1, year, ob.2) ∧ ob ∈ obligationsOf stateRequirements.
Proof.
  unfold eventKeys. rewrite seqZ_three. cbn [fmap list_fmap concat].
  rewrite !elem_of_app, !elem_of_keysOfYear, elem_of_nil.
  intros [(ob & -> & ?)|[(ob & -> & ?)|[(ob & -> & ?)|[]]]]; eauto.
Qed.

Lemma NoDup_eventKeys stateRequirements currentYear :
  NoDup (obligationsOf stateRequirements) →
  NoDup (eventKeys stateRequirements currentYear).
Proof.
  intros Hnd. unfold eventKeys. rewrite seqZ_three. cbn [fmap list_fmap concat].
  rewrite app_nil_r.
  repeat (apply NoDup_app; split; [by apply NoDup_keysOfYear|split]);
    try by apply NoDup_keysOfYear.
  - intros key (ob & -> & _)%elem_of_keysOfYear.
    rewrite elem_of_app, !elem_of_keysOfYear.
    intros [(ob' & [= _ ? _] & _)|(ob' & [= _ ? _] & _)]; lia.
  - intros key (ob & -> & _)%elem_of_keysOfYear.
    rewrite !elem_of_keysOfYear. intros (ob' & [= _ ? _] & _). lia.
Qed.

(** No two events of a generated calendar share an id. *)
Lemma NoDup_ids_generateEvents stateRequirements state formationDate businessType year :
  state ∈ ["FL"; "WY"; "IL"] →
  complianceRequirements state = Some stateRequirements →
  NoDup (ev_id <$> generateEvents stateRequirements state formationDate businessType year).
Proof.
  intros Hst Hreq. rewrite ids_generateEvents.
  pose proof (eventIdOf_inj state stateRequirements Hst Hreq) as Hinj.
  apply NoDup_fmap_2_strong.
  - intros k1 k2 (ob1 & y1 & -> & Hob1)%elem_of_eventKeys
      (ob2 & y2 & -> & Hob2)%elem_of_eventKeys Hid.
    rewrite Forall_forall in Hinj. specialize (Hinj ob1 Hob1).
    rewrite Forall_forall in Hinj.
    destruct (Hinj ob2 Hob2 y1 y2 Hid) as [-> ->]. done.
  - apply NoDup_eventKeys. by apply (NoDup_obligationsOf state).
Qed.

(** C5: calendar generation is deterministic and idempotent.  For a fixed
    company (entity, jurisdiction among FL, WY and IL, formation date) and
    the fixed three-year horizon, two generations in the same calendar
    year, in particular at the same time, from any two stores in which the
    calendar id is free, yield calendars with identical events; the event
    ids are the images of the keys (type, year, period) of the
    jurisdiction's obligations under the function [eventIdOf]; and no two
    events of a generated calendar share an id. *)
Theorem calendar_generation_deterministic now1 now2 companyData s1 s2 :
  cd_state companyData ∈ ["FL"; "WY"; "IL"] →
  JSDate.getFullYear now1 = JSDate.getFullYear now2 →
  calendars s1 !! calendarIdOf now1 companyData = None →
  calendars s2 !! calendarIdOf now2 companyData = None →
  ∃ stateRequirements calendar1 next1 projection1 s1' calendar2 next2 projection2 s2',
    complianceRequirements (cd_state companyData) = Some stateRequirements
    ∧ run (createComplianceCalendar now1 companyData) s1
      = (Ret (CalendarCreated (calendarIdOf now1 companyData) calendar1
                next1 projection1), s1')
    ∧ run (createComplianceCalendar now2 companyData) s2
      = (Ret (CalendarCreated (calendarIdOf now2 companyData) calendar2
                next2 projection2), s2')
    ∧ cal_events calendar1 = cal_events calendar2
    ∧ Permutation (ev_id <$> cal_events calendar1)
        (eventIdOf (cd_state companyData)
           <$> eventKeys stateRequirements (JSDate.getFullYear now1))
    ∧ NoDup (ev_id <$> cal_events calendar1).
Proof.
  intros Hst Hyear Hfresh1 Hfresh2.
  destruct (supported_requirements _ Hst) as [reqs Hreq].
  destruct (createComplianceCalendar_run now1 companyData reqs s1 Hreq Hfresh1)
    as (calendar1 & next1 & projection1 & s1' & Hrun1 & Hev1 & _).
  destruct (createComplianceCalendar_run now2 companyData reqs s2 Hreq Hfresh2)
    as (calendar2 & next2 & projection2 & s2' & Hrun2 & Hev2 & _).
  exists reqs, calendar1, next1, projection1, s1', calendar2, next2, projection2, s2'.
  split; [done|]. split; [done|]. split; [done|].
  rewrite Hev1, Hev2, Hyear. split; [done|]. split.
  - rewrite <- Hyear. apply ids_generateEvents.
  - by apply NoDup_ids_generateEvents.
Qed.

(** C5, witness: a Florida company, its calendar generated on 2024-06-01
    in an empty store and again a day later in the store the first
    generation left. *)
Lemma calendar_generation_deterministic_witness :
  let company := sampleCompany "FL" in
  let s1 := emptyStore in
  let s2 := (run (createComplianceCalendar sampleNow company) s1).2 in
  ∃ stateRequirements calendar1 next1 projection1 s1' calendar2 next2 projection2 s2',
    complianceRequirements "FL" = Some stateRequirements
    ∧ run (createComplianceCalendar sampleNow company) s1
      = (Ret (CalendarCreated (calendarIdOf sampleNow company) calendar1
                next1 projection1), s1')
    ∧ run (createComplianceCalendar (sampleNow + JSDate.msPerDay) company) s2
      = (Ret (CalendarCreated (calendarIdOf (sampleNow + JSDate.msPerDay) company)
                calendar2 next2 projection2), s2')
    ∧ cal_events calendar1 = cal_events calendar2
    ∧ Permutation (ev_id <$> cal_events calendar1)
        (eventIdOf "FL" <$> eventKeys stateRequirements (JSDate.getFullYear sampleNow))
    ∧ NoDup (ev_id <$> cal_events calendar1).
Proof.
  refine (calendar_generation_deterministic sampleNow (sampleNow + JSDate.msPerDay)
            (sampleCompany "FL") emptyStore _ _ _ _ _).
  - apply list_elem_of_here.
  - reflexivity.
  - reflexivity.
  - vm_compute. reflexivity.
Defined.

(** ** Workflow execution *)

Lemma findStep_updateStep stepId f steps :
  (∀ s, step_id (f s) = step_id s) →
  findStep stepId (updateStep stepId f steps) = f <$> findStep stepId steps.
Proof.
  intros Hf. unfold findStep. induction steps as [|s steps IH]; simpl; [done|].
  destruct (String.eqb (step_id s) stepId) eqn:E; simpl.
  - by rewrite Hf, E.
  - by rewrite E.
Qed.

Lemma findStep_updateStep_ne stepId stepId' f steps :
  (∀ s, step_id (f s) = step_id s) →
  stepId' ≠ stepId →
  findStep stepId' (updateStep stepId f steps) = findStep stepId' steps.
Proof.
  intros Hf Hne. unfold findStep. induction steps as [|s steps IH]; simpl; [done|].
  destruct (String.eqb (step_id s) stepId) eqn:E; simpl.
  - rewrite Hf. apply String.eqb_eq in E. rewrite E.
    destruct (String.eqb_spec stepId stepId'); [congruence | done].
  - by rewrite IH.
Qed.

Lemma length_updateStep stepId f steps :
  length (updateStep stepId f steps) = length steps.
Proof.
  induction steps as [|s steps IH]; simpl; [done|].
  destruct (String.eqb (step_id s) stepId); simpl; congruence.
Qed.

Lemma updateStep_updateStep stepId f g steps :
  (∀ s, step_id (f s) = step_id s) →
  updateStep stepId g (updateStep stepId f steps) = updateStep stepId (g ∘ f) steps.
Proof.
  intros Hf. induction steps as [|s steps IH]; simpl; [done|].
  destruct (String.eqb (step_id s) stepId) eqn:E; simpl.
  - by rewrite Hf, E.
  - by rewrite E, IH.
Qed.

Lemma findStep_Some stepId steps step :
  findStep stepId steps = Some step → step ∈ steps ∧ step_id step = stepId.
Proof.
  intros H. apply List.find_some in H as [Hin E].
  split; [by apply list_elem_of_In | by apply String.eqb_eq].
Qed.

(** The handler of a step is called at most once; nothing else is added to
    the trace, and the status recorded is the one the step has in the
    workflow handed over. *)
Lemma runStepHandler_cases ext now workflowId workflow stepId stepData s :
  (∃ message, run (runStepHandler ext now workflowId workflow stepId stepData) s
              = (Throw message, s))
  ∨ (∃ outcome, run (runStepHandler ext now workflowId workflow stepId stepData) s
                = (outcome,
                   logged s [StepHandlerInvoked workflowId stepId
                               (step_status <$> findStep stepId (wf_steps workflow))])).
Proof.
  unfold runStepHandler.
  repeat (case_match; [right|]); [..|left; eexists; reflexivity].
  all: unfold run, mbind, M_bind, emit.
  all: unfold executeNameCheck, executeNameReservation, executeRegisteredAgent,
      executeArticlesPreparation, executeArticlesFiling, executeEINApplication,
      executeOperatingAgreement, executeBusinessLicenses, executeComplianceSetup,
      generate, mret, M_ret, throw.
  all: repeat case_match; eexists; reflexivity.
Qed.

Lemma alter_lookup_insert {A} (f : A → A) (i : string) (x : A) (m : gmap string A) :
  m !! i = Some x → alter f i m = <[i := f x]> m.
Proof.
  intros Hi. apply map_eq. intros j.
  rewrite lookup_alter, lookup_insert.
  destruct (decide (i = j)) as [->|]; by rewrite ?Hi.
Qed.

Lemma alter_insert_same {A} (f : A → A) (i : string) (x : A) (m : gmap string A) :
  alter f i (<[i := x]> m) = <[i := f x]> m.
Proof.
  apply map_eq. intros j.
  rewrite lookup_alter, !lookup_insert.
  destruct (decide (i = j)) as [->|]; [|done]. by rewrite decide_True.
Qed.

(** The dependency table has no key inherited from [Object.prototype]. *)
Lemma getStepDependencies_inherited stepId :
  inheritedKey stepId = true → getStepDependencies stepId = [].
Proof.
  unfold inheritedKey, objectPrototypeKeys. cbn [existsb]. intros H.
  repeat (apply orb_true_iff in H as [H|H]; [apply String.eqb_eq in H as ->; done|]).
  done.
Qed.

Lemma missingDependencies_own workflow stepId :
  missingDependencies workflow stepId ≠ [] → inheritedKey stepId = false.
Proof.
  intros Hmiss. destruct (inheritedKey stepId) eqn:Hkey; [|done].
  destruct Hmiss. unfold missingDependencies.
  by rewrite getStepDependencies_inherited.
Qed.

Lemma executeWorkflowStep_workflow_not_found ext now workflowId stepId stepData s :
  workflows s !! workflowId = None →
  run (executeWorkflowStep ext now workflowId stepId stepData) s
  = (Ret (ExecError "Workflow not found"),
     logged s [ConsoleError ("Error executing workflow step " +:+ stepId +:+ ":")]).
Proof.
  intros Hrow. unfold executeWorkflowStep, selectWorkflow. unfold_M.
  by rewrite Hrow.
Qed.

Lemma executeWorkflowStep_step_not_found ext now workflowId stepId stepData s row :
  workflows s !! workflowId = Some row →
  findStep stepId (wf_steps (row_workflow_data row)) = None →
  run (executeWorkflowStep ext now workflowId stepId stepData) s
  = (Ret (ExecError "Step not found in workflow"),
     logged s [ConsoleError ("Error executing workflow step " +:+ stepId +:+ ":")]).
Proof.
  intros Hrow Hstep. unfold executeWorkflowStep, selectWorkflow. unfold_M.
  by rewrite Hrow, Hstep.
Qed.

(** A completed step: the stored result is returned, nothing is done. *)
Lemma executeWorkflowStep_completed ext now workflowId stepId stepData s row step :
  workflows s !! workflowId = Some row →
  findStep stepId (wf_steps (row_workflow_data row)) = Some step →
  isCompleted step = true →
  run (executeWorkflowStep ext now workflowId stepId stepData) s
  = (Ret (AlreadyCompleted (step_result step)), s).
Proof.
  intros Hrow Hstep Hdone. unfold executeWorkflowStep, selectWorkflow. unfold_M.
  by rewrite Hrow, Hstep, Hdone.
Qed.

(** A dependency that is not completed: the call reports the missing
    dependencies, nothing is done. *)
Lemma executeWorkflowStep_dependencies ext now workflowId stepId stepData s row step :
  workflows s !! workflowId = Some row →
  findStep stepId (wf_steps (row_workflow_data row)) = Some step →
  isCompleted step = false →
  missingDependencies (row_workflow_data row) stepId ≠ [] →
  run (executeWorkflowStep ext now workflowId stepId stepData) s
  = (Ret (DependenciesNotCompleted
            (missingDependencies (row_workflow_data row) stepId)), s).
Proof.
  intros Hrow Hstep Hdone Hmiss.
  unfold executeWorkflowStep, selectWorkflow, checkStepDependencies. unfold_M.
  rewrite Hrow, Hstep, Hdone, (missingDependencies_own _ _ Hmiss). simpl.
  fold (missingDependencies (row_workflow_data row) stepId).
  destruct (missingDependencies (row_workflow_data row) stepId); done.
Qed.

(** A step whose id names a property of [Object.prototype]: the dependency
    check throws, nothing is done. *)
Lemma executeWorkflowStep_inherited ext now workflowId stepId stepData s row step :
  workflows s !! workflowId = Some row →
  findStep stepId (wf_steps (row_workflow_data row)) = Some step →
  isCompleted step = false →
  inheritedKey stepId = true →
  run (executeWorkflowStep ext now workflowId stepId stepData) s
  = (Ret (ExecError "dependencies is not iterable"),
     logged s [ConsoleError ("Error executing workflow step " +:+ stepId +:+ ":")]).
Proof.
  intros Hrow Hstep Hdone Hkey.
  unfold executeWorkflowStep, selectWorkflow, checkStepDependencies. unfold_M.
  by rewrite Hrow, Hstep, Hdone, Hkey.
Qed.

(** A handler is found only for an id the [switch] knows. *)
Lemma runStepHandler_own ext now workflowId workflow stepId stepData s result s1 :
  run (runStepHandler ext now workflowId workflow stepId stepData) s = (Ret result, s1) →
  inheritedKey stepId = false.
Proof.
  destruct (inheritedKey stepId) eqn:Hkey; [|done].
  unfold inheritedKey, objectPrototypeKeys in Hkey. cbn [existsb] in Hkey.
  repeat (apply orb_true_iff in Hkey as [Hkey|Hkey];
          [apply String.eqb_eq in Hkey as ->; by vm_compute|]).
  done.
Qed.

(** A step that is not completed and whose dependencies are: the step is
    marked in progress, the handler is called and, unless it throws, its
    result is committed. *)
Lemma executeWorkflowStep_executes ext now workflowId stepId stepData s row step :
  workflows s !! workflowId = Some row →
  findStep stepId (wf_steps (row_workflow_data row)) = Some step →
  isCompleted step = false →
  missingDependencies (row_workflow_data row) stepId = [] →
  (∃ message effects,
     run (executeWorkflowStep ext now workflowId stepId stepData) s
     = (Ret (ExecError message), logged s effects)
     ∧ (effects = [ConsoleError ("Error executing workflow step " +:+ stepId +:+ ":")]
        ∨ effects = [StepHandlerInvoked workflowId stepId (Some in_progress);
                     ConsoleError ("Error executing workflow step " +:+ stepId +:+ ":")]))
  ∨ (∃ result,
       run (executeWorkflowStep ext now workflowId stepId stepData) s
       = (Ret (StepExecuted result
                 (wf_progress (workflowAfter now stepId result (row_workflow_data row)))
                 (wf_nextAction (workflowAfter now stepId result (row_workflow_data row)))
                 (Qeq_bool
                    (wf_progress
                       (workflowAfter now stepId result (row_workflow_data row))) 100)),
          {| workflows := <[workflowId := rowAfter now stepId result row]> (workflows s);
             calendars := calendars s;
             trace := trace s
                      ++ executionEffects now workflowId stepId result row |})).
Proof.
  intros Hrow Hstep Hdone Hmiss.
  assert (step_status
            <$> findStep stepId
                  (wf_steps (withSteps (row_workflow_data row)
                               (updateStep stepId (markInProgress now)
                                  (wf_steps (row_workflow_data row)))))
          = Some in_progress) as Hst.
  { cbn [wf_steps withSteps]. rewrite findStep_updateStep by done. by rewrite Hstep. }
  pose proof (runStepHandler_cases ext now workflowId
                (withSteps (row_workflow_data row)
                   (updateStep stepId (markInProgress now)
                      (wf_steps (row_workflow_data row))))
                stepId stepData s) as Hh.
  rewrite Hst in Hh. clear Hst.
  destruct (inheritedKey stepId) eqn:Hkey.
  { left. eexists _, _. split; [by apply (executeWorkflowStep_inherited _ _ _ _ _ _ row step)|].
    by left. }
  unfold executeWorkflowStep, selectWorkflow, completeWorkflow, updateWorkflow,
    checkStepDependencies.
  unfold run, mbind, M_bind, mret, M_ret, try_catch, throw, getStore, when_,
    storeMemory, consoleError, emit, setWorkflows in *.
  rewrite Hrow, Hstep, Hdone, Hkey. cbn [allCompleted missing].
  fold (missingDependencies (row_workflow_data row) stepId). rewrite Hmiss.
  cbn [length Nat.eqb negb].
  destruct Hh as [[message Hh]|[[result|message] Hh]]; rewrite Hh.
  - left. exists message, [ConsoleError ("Error executing workflow step " +:+ stepId +:+ ":")].
    split; [reflexivity | by left].
  - right. exists result.
    unfold rowAfter, executionEffects.
    fold (workflowAfter now stepId result (row_workflow_data row)).
    cbn [workflows calendars trace logged].
    rewrite (alter_lookup_insert _ _ _ _ Hrow).
    destruct (Qeq_bool _ 100); cbn [workflows calendars trace logged].
    + rewrite alter_insert_same. f_equal.
      unfold logged; cbn [workflows calendars trace]. f_equal.
      by rewrite <- !app_assoc.
    + f_equal. unfold logged; cbn [workflows calendars trace]. f_equal.
      by rewrite <- !app_assoc.
  - left. eexists message, _. split; [|by right].
    by rewrite logged_logged.
Qed.

(** What a call appends to the trace. *)
Lemma executeWorkflowStep_trace ext now workflowId stepId stepData s :
  ∃ effects,
    trace (run (executeWorkflowStep ext now workflowId stepId stepData) s).2
    = trace s ++ effects
    ∧ (length (List.filter isHandlerInvocation effects) ≤ 1)%nat
    ∧ ∀ w i st, StepHandlerInvoked w i st ∈ effects →
        w = workflowId ∧ i = stepId ∧ st = Some in_progress.
Proof.
  assert (∀ w i st e, StepHandlerInvoked w i st ∈ [ConsoleError e] → False) as Hno.
  { intros w i st e H. apply list_elem_of_singleton in H. done. }
  destruct (workflows s !! workflowId) as [row|] eqn:Hrow.
  2: { rewrite executeWorkflowStep_workflow_not_found by done.
       eexists. split; [reflexivity|]. split; [simpl; lia|].
       intros ??? H. by destruct (Hno _ _ _ _ H). }
  destruct (findStep stepId (wf_steps (row_workflow_data row))) as [step|] eqn:Hstep.
  2: { rewrite (executeWorkflowStep_step_not_found _ _ _ _ _ _ row) by done.
       eexists. split; [reflexivity|]. split; [simpl; lia|].
       intros ??? H. by destruct (Hno _ _ _ _ H). }
  destruct (isCompleted step) eqn:Hdone.
  { rewrite (executeWorkflowStep_completed _ _ _ _ _ _ row step) by done.
    exists []. split; [by rewrite app_nil_r|]. split; [simpl; lia|].
    intros ??? H. by apply elem_of_nil in H. }
  destruct (missingDependencies (row_workflow_data row) stepId) as [|dep deps] eqn:Hmiss.
  2: { rewrite (executeWorkflowStep_dependencies _ _ _ _ _ _ row step), Hmiss
         by (done || by rewrite Hmiss).
       exists []. split; [by rewrite app_nil_r|]. split; [simpl; lia|].
       intros ??? H. by apply elem_of_nil in H. }
  destruct (executeWorkflowStep_executes ext now workflowId stepId stepData s row step
              Hrow Hstep Hdone Hmiss)
    as [(message & effects & Hrun & [->| ->])|(result & Hrun)]; rewrite Hrun.
  - eexists. split; [reflexivity|]. split; [simpl; lia|].
    intros ??? H. by destruct (Hno _ _ _ _ H).
  - eexists. split; [reflexivity|]. split; [simpl; lia|].
    intros w i st H. apply elem_of_cons in H as [[= -> -> ->]|H]; [done|].
    by destruct (Hno _ _ _ _ H).
  - eexists. split; [reflexivity|]. unfold executionEffects. split.
    + destruct (Qeq_bool _ 100); simpl; lia.
    + intros w i st H. apply elem_of_app in H as [H|H].
      * apply elem_of_cons in H as [[= -> -> ->]|H]; [done|].
        apply elem_of_cons in H as [[=]|H].
        apply list_elem_of_singleton in H. done.
      * destruct (Qeq_bool _ 100); [|by apply elem_of_nil in H].
        apply elem_of_cons in H as [[=]|H].
        apply list_elem_of_singleton in H. done.
Qed.




(** *** Dependencies *)

Lemma missingDependencies_nil workflow stepId :
  missingDependencies workflow stepId = [] ↔
  ∀ dep, dep ∈ getStepDependencies stepId → dependencyMissing workflow dep = false.
Proof.
  unfold missingDependencies. split.
  - intros Hnil dep Hdep. destruct (dependencyMissing workflow dep) eqn:E; [|done].
    assert (dep ∈ List.filter (dependencyMissing workflow) (getStepDependencies stepId))
      as Hin by (by apply elem_of_filter_bool).
    rewrite Hnil in Hin. by apply elem_of_nil in Hin.
  - intros Hall. induction (getStepDependencies stepId) as [|d ds IH]; [done|].
    simpl. rewrite (Hall d) by apply list_elem_of_here.
    apply IH. intros dep Hdep. apply Hall. by apply list_elem_of_further.
Qed.

(** C2: a dependency that is not completed blocks the step.  For every
    stored workflow instance in the shape the engine gives it (each step
    records the dependencies of the table, and a completed step has its
    dependencies completed) and every step of it, if some id among the
    step's dependencies refers to a step that is not completed, then
    [executeWorkflowStep] answers that dependencies are not completed,
    naming that dependency, and the store after the call is the store
    before it: the step's status and every other field of the instance
    are unchanged, and nothing is appended to the trace. *)
Theorem unmet_dependency_blocks ext now workflowId stepId stepData s row step dep :
  workflows s !! workflowId = Some row →
  wellFormed (row_workflow_data row) →
  findStep stepId (wf_steps (row_workflow_data row)) = Some step →
  dep ∈ step_dependencies step →
  dependencyMissing (row_workflow_data row) dep = true →
  run (executeWorkflowStep ext now workflowId stepId stepData) s
  = (Ret (DependenciesNotCompleted
            (missingDependencies (row_workflow_data row) stepId)), s)
  ∧ dep ∈ missingDependencies (row_workflow_data row) stepId.
Proof.
  intros Hrow [Hrec Hclosed] Hstep Hdep Hmiss.
  destruct (findStep_Some _ _ _ Hstep) as [Hin Hid].
  unfold dependenciesRecorded in Hrec.
  rewrite Forall_forall in Hrec. rewrite (Hrec step Hin), Hid in Hdep.
  assert (dep ∈ missingDependencies (row_workflow_data row) stepId) as Hdep'.
  { unfold missingDependencies. by apply elem_of_filter_bool. }
  split; [|done].
  apply (executeWorkflowStep_dependencies _ _ _ _ _ _ row step); try done.
  - destruct (isCompleted step) eqn:Hdone; [|done].
    rewrite (Hclosed stepId step Hstep Hdone) in Hdep'.
    by apply elem_of_nil in Hdep'.
  - intros Hnil. rewrite Hnil in Hdep'. by apply elem_of_nil in Hdep'.
Qed.

Lemma wellFormedb_sound workflow : wellFormedb workflow = true → wellFormed workflow.
Proof.
  unfold wellFormedb. rewrite forallb_forall. intros H. split.
  - apply Forall_forall. intros step Hin.
    apply list_elem_of_In, H in Hin. apply andb_true_iff in Hin as [Hin _].
    by apply bool_decide_eq_true in Hin.
  - intros stepId step Hstep Hdone.
    destruct (findStep_Some _ _ _ Hstep) as [Hin Hid].
    apply list_elem_of_In, H in Hin. apply andb_true_iff in Hin as [_ Hin].
    rewrite Hid, Hstep, Hdone in Hin. simpl in Hin.
    by apply bool_decide_eq_true in Hin.
Qed.

(** C2, witness: the Florida workflow whose name check is completed and
    whose registered agent is pending; the articles cannot be prepared. *)
Lemma unmet_dependency_blocks_witness :
  let s := workflowStore (sampleWorkflow nameCheckDone) in
  run (executeWorkflowStep sampleCollaborators sampleNow "WF-FL-1" "articles_prep"
         noStepData) s
  = (Ret (DependenciesNotCompleted ["registered_agent"]), s)
  ∧ "registered_agent" ∈ missingDependencies (sampleWorkflow nameCheckDone) "articles_prep".
Proof.
  refine (unmet_dependency_blocks sampleCollaborators sampleNow "WF-FL-1"
            "articles_prep" noStepData (workflowStore (sampleWorkflow nameCheckDone))
            (workflowRow (sampleWorkflow nameCheckDone))
            (sampleStep pending "articles_prep" "Prepare Articles of Organization" 1 true)
            "registered_agent" _ _ _ _ _).
  - reflexivity.
  - apply wellFormedb_sound. vm_compute. reflexivity.
  - reflexivity.
  - vm_compute. apply list_elem_of_further, list_elem_of_here.
  - reflexivity.
Defined.

(** *** Progress *)

Lemma computeProgress_mono steps steps' :
  length steps' = length steps →
  (completedSteps steps ≤ completedSteps steps')%nat →
  (computeProgress steps <= computeProgress steps')%Q.
Proof.
  intros Hlen Hle. unfold computeProgress. rewrite Hlen.
  apply Qmult_le_compat_r; [|done].
  apply Qmult_le_compat_r.
  - rewrite <- Zle_Qle. lia.
  - apply Qinv_le_0_compat. change 0%Q with (inject_Z 0). rewrite <- Zle_Qle. lia.
Qed.

Lemma completedSteps_le_length steps : (completedSteps steps ≤ length steps)%nat.
Proof. unfold completedSteps. apply List.filter_length_le. Qed.

Lemma completedSteps_all steps :
  completedSteps steps = length steps ↔ forallb isCompleted steps = true.
Proof.
  unfold completedSteps. induction steps as [|s steps IH]; simpl; [done|].
  pose proof (List.filter_length_le isCompleted steps).
  destruct (isCompleted s); simpl.
  - rewrite <- IH. lia.
  - split; [lia | done].
Qed.

(** [workflow.progress === 100] holds exactly when every step is
    completed. *)
Lemma computeProgress_100 steps :
  steps ≠ [] →
  Qeq_bool (computeProgress steps) 100 = forallb isCompleted steps.
Proof.
  intros Hne. apply eq_true_iff_eq.
  rewrite Qeq_bool_iff, <- completedSteps_all.
  pose proof (completedSteps_le_length steps) as Hle.
  unfold computeProgress. destruct steps as [|s0 steps]; [done|].
  generalize dependent (completedSteps (s0 :: steps)). intros k Hk.
  cbn [length] in *. unfold Qeq, Qmult, Qdiv, Qinv, inject_Z.
  cbn [Qnum Qden]. rewrite Nat2Z.inj_succ.
  destruct (Z.succ (Z.of_nat (length steps))) as [|p|p] eqn:E; try lia.
  cbn [Qnum Qden Qmult]. rewrite !Pos.mul_1_l, !Pos.mul_1_r. split; intros H.
  - assert (Z.of_nat k = Z.pos p) by lia. lia.
  - assert (Z.of_nat k = Z.pos p) by lia. lia.
Qed.

Lemma completedSteps_updateStep stepId f steps step :
  findStep stepId steps = Some step →
  isCompleted step = false →
  (completedSteps steps ≤ completedSteps (updateStep stepId f steps))%nat.
Proof.
  unfold findStep, completedSteps.
  induction steps as [|s steps IH]; simpl; [done|].
  destruct (String.eqb (step_id s) stepId) eqn:E.
  - intros [= ->] Hdone. simpl. rewrite Hdone.
    destruct (isCompleted (f step)); simpl; lia.
  - intros Hfind Hdone. simpl. specialize (IH Hfind Hdone).
    destruct (isCompleted s); simpl; lia.
Qed.

Lemma steps_workflowAfter now stepId result workflow :
  wf_steps (workflowAfter now stepId result workflow)
  = updateStep stepId (recordResult now result ∘ markInProgress now) (wf_steps workflow).
Proof.
  unfold workflowAfter. cbn [wf_steps withSteps withProgress].
  by rewrite updateStep_updateStep.
Qed.

Lemma progress_workflowAfter now stepId result workflow :
  wf_progress (workflowAfter now stepId result workflow)
  = computeProgress (wf_steps (workflowAfter now stepId result workflow)).
Proof. reflexivity. Qed.

(** Every call either leaves the table of workflows as it was, or commits
    the result of a step that was not completed and had its dependencies
    completed. *)
Lemma executeWorkflowStep_outcome ext now workflowId stepId stepData s :
  (workflows (run (executeWorkflowStep ext now workflowId stepId stepData) s).2
   = workflows s
   ∧ ∀ result progress next done,
       (run (executeWorkflowStep ext now workflowId stepId stepData) s).1
       ≠ Ret (StepExecuted result progress next done))
  ∨ (∃ row step result,
       workflows s !! workflowId = Some row
       ∧ findStep stepId (wf_steps (row_workflow_data row)) = Some step
       ∧ isCompleted step = false
       ∧ missingDependencies (row_workflow_data row) stepId = []
       ∧ run (executeWorkflowStep ext now workflowId stepId stepData) s
         = (Ret (StepExecuted result
                   (wf_progress (workflowAfter now stepId result (row_workflow_data row)))
                   (wf_nextAction (workflowAfter now stepId result (row_workflow_data row)))
                   (Qeq_bool
                      (wf_progress
                         (workflowAfter now stepId result (row_workflow_data row))) 100)),
            {| workflows := <[workflowId := rowAfter now stepId result row]> (workflows s);
               calendars := calendars s;
               trace := trace s
                        ++ executionEffects now workflowId stepId result row |})).
Proof.
  destruct (workflows s !! workflowId) as [row|] eqn:Hrow.
  2: { left. by rewrite executeWorkflowStep_workflow_not_found. }
  destruct (findStep stepId (wf_steps (row_workflow_data row))) as [step|] eqn:Hstep.
  2: { left. by rewrite (executeWorkflowStep_step_not_found _ _ _ _ _ _ row). }
  destruct (isCompleted step) eqn:Hdone.
  { left. by rewrite (executeWorkflowStep_completed _ _ _ _ _ _ row step). }
  destruct (missingDependencies (row_workflow_data row) stepId) as [|dep deps] eqn:Hmiss.
  2: { left.
       rewrite (executeWorkflowStep_dependencies _ _ _ _ _ _ row step)
         by (done || by rewrite Hmiss).
       done. }
  destruct (executeWorkflowStep_executes ext now workflowId stepId stepData s row step
              Hrow Hstep Hdone Hmiss)
    as [(message & effects & Hrun & _)|(result & Hrun)].
  - left. by rewrite Hrun.
  - right. exists row, step, result. by rewrite Hmiss.
Qed.

Lemma rowAfter_data now stepId result row :
  row_workflow_data (rowAfter now stepId result row)
  = workflowAfter now stepId result (row_workflow_data row).
Proof. unfold rowAfter. by destruct (Qeq_bool _ 100). Qed.

Lemma rowAfter_status now stepId result row :
  row_status (rowAfter now stepId result row)
  = if Qeq_bool (wf_progress (workflowAfter now stepId result (row_workflow_data row))) 100
    then "completed" else row_status row.
Proof. unfold rowAfter. by destruct (Qeq_bool _ 100). Qed.

Lemma steps_workflowAfter_nonempty now stepId result workflow step :
  findStep stepId (wf_steps workflow) = Some step →
  wf_steps (workflowAfter now stepId result workflow) ≠ [].
Proof.
  intros Hstep Hnil. apply (f_equal length) in Hnil.
  rewrite steps_workflowAfter, length_updateStep in Hnil.
  destruct (wf_steps workflow); done.
Qed.

(** C6 (as the code has it): the critical flag plays no part in
    completion.  For every stored workflow and every call of
    [executeWorkflowStep] on it, the call sets the workflow's status to
    completed exactly when it has executed a step and left every step of
    the instance, critical or not, completed (progress 100); otherwise the
    status is as before.  In particular a step that is not critical and
    still pending after the call keeps the call from completing the
    workflow. *)
Theorem workflow_completes_when_all_steps_do ext now workflowId stepId stepData s row :
  workflows s !! workflowId = Some row →
  ∃ row',
    workflows (run (executeWorkflowStep ext now workflowId stepId stepData) s).2
      !! workflowId = Some row'
    ∧ match (run (executeWorkflowStep ext now workflowId stepId stepData) s).1 with
      | Ret (StepExecuted _ _ _ workflowCompleted) =>
          workflowCompleted = allStepsCompleted (row_workflow_data row')
          ∧ row_status row'
            = (if workflowCompleted then "completed" else row_status row)
      | _ => row' = row
      end
    ∧ ∀ step,
        step ∈ wf_steps (row_workflow_data row') →
        step_critical step = false →
        step_status step = pending →
        row_status row' = row_status row.
Proof.
  intros Hrow.
  destruct (executeWorkflowStep_outcome ext now workflowId stepId stepData s)
    as [[Hsame Hno]|(row0 & step & result & Hrow0 & Hstep & Hdone & Hmiss & Hrun)].
  - exists row. rewrite Hsame. split; [done|]. split; [|done].
    destruct (run _ s).1 as [[]|] eqn:E; try done. by destruct (Hno _ _ _ _ eq_refl).
  - rewrite Hrow in Hrow0. injection Hrow0 as <-.
    exists (rowAfter now stepId result row). rewrite Hrun.
    cbn [fst snd workflows]. rewrite lookup_insert_eq. split; [done|].
    rewrite rowAfter_data, rowAfter_status, progress_workflowAfter.
    rewrite computeProgress_100 by (by eapply steps_workflowAfter_nonempty).
    fold (allStepsCompleted (workflowAfter now stepId result (row_workflow_data row))).
    split; [done|].
    intros st Hin _ Hpend.
    destruct (allStepsCompleted _) eqn:Hall; [|done].
    unfold allStepsCompleted in Hall. rewrite forallb_forall in Hall.
    apply list_elem_of_In, Hall in Hin. unfold isCompleted in Hin.
    by rewrite Hpend in Hin.
Qed.

(** C6, witness: the name check of the all-pending Florida workflow is
    executed; eight steps remain pending and the status stays [created]. *)
Lemma workflow_completes_when_all_steps_do_witness :
  let s := workflowStore (sampleWorkflow allPending) in
  let r := run (executeWorkflowStep sampleCollaborators sampleNow "WF-FL-1"
                  "name_check" noStepData) s in
  ∃ row',
    workflows r.2 !! "WF-FL-1" = Some row'
    ∧ match r.1 with
      | Ret (StepExecuted _ _ _ workflowCompleted) =>
          workflowCompleted = allStepsCompleted (row_workflow_data row')
          ∧ row_status row' = (if workflowCompleted then "completed" else "created")
      | _ => row' = workflowRow (sampleWorkflow allPending)
      end
    ∧ ∀ step,
        step ∈ wf_steps (row_workflow_data row') →
        step_critical step = false →
        step_status step = pending →
        row_status row' = "created".
Proof.
  refine (workflow_completes_when_all_steps_do sampleCollaborators sampleNow
            "WF-FL-1" "name_check" noStepData
            (workflowStore (sampleWorkflow allPending))
            (workflowRow (sampleWorkflow allPending)) _).
  reflexivity.
Defined.

(** C6, counterexample: the claim as stated fails.  After the six
    critical steps of the Florida workflow have been executed with
    success, every critical step is completed, three steps that are not
    critical are pending, and the status of the workflow is still
    [created]. *)
Lemma critical_steps_do_not_complete_workflow :
  ¬ statusFollowsCriticalSteps
      (runCalls sampleCollaborators criticalCalls
         (workflowStore (sampleWorkflow allPending)))
      "WF-FL-1".
Proof.
  unfold statusFollowsCriticalSteps.
  destruct (workflows _ !! "WF-FL-1") as [row|] eqn:Hrow; [|vm_compute in Hrow; done].
  vm_compute in Hrow. injection Hrow as <-.
  intros [_ H]. specialize (H eq_refl). discriminate H.
Qed.

(** One call never lowers the stored progress of a workflow, and keeps it
    equal to the share of completed steps. *)
Lemma runCall_progress ext s c workflowId row :
  workflows s !! workflowId = Some row →
  progressConsistent (row_workflow_data row) →
  ∃ row',
    workflows (runCall ext s c) !! workflowId = Some row'
    ∧ progressConsistent (row_workflow_data row')
    ∧ (wf_progress (row_workflow_data row) <= wf_progress (row_workflow_data row'))%Q.
Proof.
  intros Hrow Hcons. unfold runCall.
  destruct (executeWorkflowStep_outcome ext (call_now c) (call_workflowId c)
              (call_stepId c) (call_stepData c) s)
    as [[Hsame _]|(row0 & step & result & Hrow0 & Hstep & Hdone & Hmiss & Hrun)].
  - exists row. rewrite Hsame. split; [done|]. split; [done|]. apply Qle_refl.
  - rewrite Hrun. cbn [snd workflows].
    destruct (decide (call_workflowId c = workflowId)) as [Heq|Hne].
    + rewrite Heq in *. rewrite Hrow in Hrow0. injection Hrow0 as <-.
      exists (rowAfter (call_now c) (call_stepId c) result row).
      rewrite lookup_insert_eq. split; [done|].
      rewrite rowAfter_data. split; [unfold progressConsistent; reflexivity|].
      unfold progressConsistent in Hcons. rewrite Hcons, progress_workflowAfter.
      rewrite steps_workflowAfter.
      apply computeProgress_mono; [apply length_updateStep|].
      by apply (completedSteps_updateStep _ _ _ step).
    + exists row. rewrite lookup_insert_ne by done.
      split; [done|]. split; [done|]. apply Qle_refl.
Qed.

Lemma runCalls_progress ext calls s workflowId row :
  workflows s !! workflowId = Some row →
  progressConsistent (row_workflow_data row) →
  ∃ row',
    workflows (runCalls ext calls s) !! workflowId = Some row'
    ∧ progressConsistent (row_workflow_data row')
    ∧ (wf_progress (row_workflow_data row) <= wf_progress (row_workflow_data row'))%Q.
Proof.
  revert s row. induction calls as [|c calls IH]; intros s row Hrow Hcons.
  - exists row. split; [done|]. split; [done|]. apply Qle_refl.
  - destruct (runCall_progress ext s c workflowId row Hrow Hcons)
      as (row1 & Hrow1 & Hcons1 & Hle1).
    destruct (IH (runCall ext s c) row1 Hrow1 Hcons1) as (row2 & Hrow2 & Hcons2 & Hle2).
    exists row2. split; [done|]. split; [done|]. by eapply Qle_trans.
Qed.

(** C8: progress is the share of completed steps and never decreases.
    For every stored workflow instance whose progress is
    completedSteps/totalSteps*100, as it is from creation on, and every
    sequence of [executeWorkflowStep] calls (on any workflows, for any
    steps), the instance's progress after a prefix of the sequence is at
    most its progress after the whole sequence, and after every call it
    is again completedSteps/totalSteps*100 of the stored steps (an
    instance without steps keeps the progress 0 of its creation). *)
Theorem progress_never_decreases ext s workflowId row calls1 calls2 :
  workflows s !! workflowId = Some row →
  progressConsistent (row_workflow_data row) →
  ∃ row1 row2,
    workflows (runCalls ext calls1 s) !! workflowId = Some row1
    ∧ workflows (runCalls ext (calls1 ++ calls2) s) !! workflowId = Some row2
    ∧ (wf_progress (row_workflow_data row) <= wf_progress (row_workflow_data row1))%Q
    ∧ (wf_progress (row_workflow_data row1) <= wf_progress (row_workflow_data row2))%Q
    ∧ (wf_steps (row_workflow_data row2) ≠ [] →
       (wf_progress (row_workflow_data row2)
        == inject_Z (Z.of_nat (completedSteps (wf_steps (row_workflow_data row2))))
           / inject_Z (Z.of_nat (length (wf_steps (row_workflow_data row2)))) * 100)%Q).
Proof.
  intros Hrow Hcons.
  destruct (runCalls_progress ext calls1 s workflowId row Hrow Hcons)
    as (row1 & Hrow1 & Hcons1 & Hle1).
  destruct (runCalls_progress ext calls2 (runCalls ext calls1 s) workflowId row1
              Hrow1 Hcons1) as (row2 & Hrow2 & Hcons2 & Hle2).
  exists row1, row2. unfold runCalls in *. rewrite foldl_app.
  repeat split; done.
Qed.

(** C8, witness: the all-pending Florida workflow, after its name check
    and after all six critical steps. *)
Lemma progress_never_decreases_witness :
  let s := workflowStore (sampleWorkflow allPending) in
  ∃ row1 row2,
    workflows (runCalls sampleCollaborators (take 1 criticalCalls) s) !! "WF-FL-1"
    = Some row1
    ∧ workflows (runCalls sampleCollaborators
                   (take 1 criticalCalls ++ drop 1 criticalCalls) s) !! "WF-FL-1"
      = Some row2
    ∧ (0 <= wf_progress (row_workflow_data row1))%Q
    ∧ (wf_progress (row_workflow_data row1) <= wf_progress (row_workflow_data row2))%Q
    ∧ (wf_steps (row_workflow_data row2) ≠ [] →
       (wf_progress (row_workflow_data row2)
        == inject_Z (Z.of_nat (completedSteps (wf_steps (row_workflow_data row2))))
           / inject_Z (Z.of_nat (length (wf_steps (row_workflow_data row2)))) * 100)%Q).
Proof.
  refine (progress_never_decreases sampleCollaborators
            (workflowStore (sampleWorkflow allPending)) "WF-FL-1"
            (workflowRow (sampleWorkflow allPending))
            (take 1 criticalCalls) (drop 1 criticalCalls) _ _).
  - reflexivity.
  - vm_compute. reflexivity.
Defined.

Example progress_after_critical_steps :
  progressOf (runCalls sampleCollaborators criticalCalls
                (workflowStore (sampleWorkflow allPending))) "WF-FL-1"
  = Some (computeProgress
            (stepsOf (runCalls sampleCollaborators criticalCalls
                        (workflowStore (sampleWorkflow allPending))) "WF-FL-1"))
  ∧ completedSteps
      (stepsOf (runCalls sampleCollaborators criticalCalls
                  (workflowStore (sampleWorkflow allPending))) "WF-FL-1") = 6%nat
  ∧ rowStatusOf (runCalls sampleCollaborators criticalCalls
                   (workflowStore (sampleWorkflow allPending))) "WF-FL-1"
    = Some "created".
Proof. vm_compute. done. Qed.

(** *** The shape of the instances the engine makes and keeps *)

Lemma completedSteps_newStep state specs :
  completedSteps (newStep state <$> specs) = 0%nat.
Proof. unfold completedSteps. induction specs as [|spec specs IH]; done. Qed.

Lemma fresh_workflow_shape workflow state specs :
  wf_steps workflow = newStep state <$> specs →
  wf_progress workflow = 0%Q →
  wellFormed workflow ∧ progressConsistent workflow.
Proof.
  intros Hsteps Hprog. split; [split|].
  - unfold dependenciesRecorded. rewrite Hsteps, Forall_fmap.
    apply Forall_forall. by intros spec _.
  - intros stepId step Hstep Hdone. exfalso.
    apply findStep_Some in Hstep as [Hin _]. rewrite Hsteps in Hin.
    apply list_elem_of_fmap in Hin as (spec & -> & _). done.
  - unfold progressConsistent, computeProgress.
    rewrite Hprog, Hsteps, completedSteps_newStep. done.
Qed.

(** A created workflow is well formed, its progress is consistent, and
    it is stored under its id with status [created]. *)
Lemma createFormationWorkflow_creates ext now formationData s
    workflowId workflow nextSteps automation s' :
  run (createFormationWorkflow ext now formationData) s
  = (Ret (Created workflowId workflow nextSteps automation), s') →
  wellFormed workflow ∧ progressConsistent workflow
  ∧ ∃ row, workflows s' !! workflowId = Some row
           ∧ row_workflow_data row = workflow ∧ row_status row = "created".
Proof.
  unfold createFormationWorkflow, optimizeWorkflowWithAI, insertWorkflow.
  unfold_M.
  destruct (stateWorkflows (fd_state formationData)) as [base|]; [|done].
  destruct (optimizeWithAI ext now base formationData) as [ai|];
    cbn [workflows calendars trace logged];
    destruct (workflows s !! _) eqn:Hfresh; try done;
    intros [= <- <- <- <- <-]; cbn [workflows calendars trace logged].
  - split; [|split].
    1-2: by eapply fresh_workflow_shape.
    eexists. split; [apply lookup_insert_eq|done].
  - split; [|split].
    1-2: by eapply fresh_workflow_shape.
    eexists. split; [apply lookup_insert_eq|done].
Qed.

Lemma dependencyMissing_workflowAfter now stepId result workflow step dep :
  findStep stepId (wf_steps workflow) = Some step →
  isCompleted step = false →
  dependencyMissing workflow dep = false →
  dependencyMissing (workflowAfter now stepId result workflow) dep = false.
Proof.
  intros Hstep Hdone Hdep. unfold dependencyMissing in *.
  rewrite steps_workflowAfter.
  destruct (decide (dep = stepId)) as [->|Hne].
  - rewrite Hstep, Hdone in Hdep. done.
  - by rewrite findStep_updateStep_ne.
Qed.

(** Executing a step keeps a workflow well formed. *)
Lemma wellFormed_workflowAfter now stepId result workflow step :
  wellFormed workflow →
  findStep stepId (wf_steps workflow) = Some step →
  isCompleted step = false →
  missingDependencies workflow stepId = [] →
  wellFormed (workflowAfter now stepId result workflow).
Proof.
  intros [Hrec Hclosed] Hstep Hdone Hmiss. split.
  - unfold dependenciesRecorded in *. rewrite steps_workflowAfter.
    clear Hstep Hclosed Hmiss. induction Hrec as [|s steps Hs Hrest IH]; [constructor|].
    simpl. destruct (String.eqb (step_id s) stepId); constructor; done.
  - intros stepId' step' Hstep' Hdone'.
    apply missingDependencies_nil. intros dep Hdep.
    apply (dependencyMissing_workflowAfter _ _ _ _ step); try done.
    rewrite steps_workflowAfter in Hstep'.
    destruct (decide (stepId' = stepId)) as [->|Hne].
    + by apply (proj1 (missingDependencies_nil workflow stepId) Hmiss).
    + rewrite findStep_updateStep_ne in Hstep' by done.
      by apply (proj1 (missingDependencies_nil workflow stepId')
                  (Hclosed stepId' step' Hstep' Hdone')).
Qed.

(** Every call keeps every stored workflow well formed. *)
Lemma runCall_wellFormed ext s c :
  (∀ id row, workflows s !! id = Some row → wellFormed (row_workflow_data row)) →
  ∀ id row, workflows (runCall ext s c) !! id = Some row →
            wellFormed (row_workflow_data row).
Proof.
  intros Hwf id row'. unfold runCall.
  destruct (executeWorkflowStep_outcome ext (call_now c) (call_workflowId c)
              (call_stepId c) (call_stepData c) s)
    as [[Hsame _]|(row0 & step & result & Hrow0 & Hstep & Hdone & Hmiss & Hrun)].
  - rewrite Hsame. apply Hwf.
  - rewrite Hrun. cbn [snd workflows]. rewrite lookup_insert.
    destruct (decide (call_workflowId c = id)) as [_|_]; [|apply Hwf].
    intros [= <-]. rewrite rowAfter_data.
    apply (wellFormed_workflowAfter _ _ _ _ step); try done. by apply (Hwf _ _ Hrow0).
Qed.

(** A step is only ever handed to its handler, and so marked in progress,
    when all its dependencies are completed. *)
Lemma handler_needs_dependencies ext now workflowId stepId stepData s row w i st :
  workflows s !! workflowId = Some row →
  In (StepHandlerInvoked w i st)
     (drop (length (trace s))
        (trace (run (executeWorkflowStep ext now workflowId stepId stepData) s).2)) →
  missingDependencies (row_workflow_data row) stepId = [].
Proof.
  intros Hrow Hin.
  destruct (findStep stepId (wf_steps (row_workflow_data row))) as [step|] eqn:Hstep.
  2: { rewrite (executeWorkflowStep_step_not_found _ _ _ _ _ _ row) in Hin by done.
       cbn [snd logged trace] in Hin. rewrite drop_app_length in Hin.
       destruct Hin as [[=]|[]]. }
  destruct (isCompleted step) eqn:Hdone.
  { rewrite (executeWorkflowStep_completed _ _ _ _ _ _ row step) in Hin by done.
    cbn [snd] in Hin. rewrite drop_all in Hin. done. }
  destruct (missingDependencies (row_workflow_data row) stepId) as [|dep deps] eqn:Hmiss;
    [done|].
  rewrite (executeWorkflowStep_dependencies _ _ _ _ _ _ row step) in Hin
    by (done || by rewrite Hmiss).
  cbn [snd] in Hin. rewrite drop_all in Hin. done.
Qed.

(** * Further properties of the engines *)

(** ** Creating a workflow *)

Lemma stateWorkflows_supported state :
  state ∈ ["FL"; "WY"; "IL"] ↔ is_Some (stateWorkflows state).
Proof.
  unfold stateWorkflows. split.
  - intros H. repeat (apply elem_of_cons in H as [->|H]; [by eexists|]).
    by apply elem_of_nil in H.
  - intros [base H].
    destruct (String.eqb_spec state "FL") as [->|_]; [apply list_elem_of_here|].
    destruct (String.eqb_spec state "WY") as [->|_];
      [apply list_elem_of_further, list_elem_of_here|].
    destruct (String.eqb_spec state "IL") as [->|_]; [|done].
    do 2 apply list_elem_of_further. apply list_elem_of_here.
Qed.



(** X2: when the id WF-state-now is already taken, a creation fails on the
    UNIQUE constraint: the answer is the error, and the tables of workflows
    and calendars are left as they were, so the workflow stored under that
    id is not overwritten. *)
Theorem createFormationWorkflow_duplicate_id ext now formationData s row :
  fd_state formationData ∈ ["FL"; "WY"; "IL"] →
  workflows s !! workflowIdOf now formationData = Some row →
  (run (createFormationWorkflow ext now formationData) s).1
  = Ret (CreateError "duplicate key value violates unique constraint")
  ∧ workflows (run (createFormationWorkflow ext now formationData) s).2 = workflows s
  ∧ calendars (run (createFormationWorkflow ext now formationData) s).2 = calendars s.
Proof.
  intros Hst Htaken. unfold workflowIdOf in Htaken.
  apply stateWorkflows_supported in Hst as [base Hbase].
  unfold createFormationWorkflow, optimizeWorkflowWithAI, insertWorkflow. unfold_M.
  rewrite Hbase.
  destruct (optimizeWithAI ext now base formationData);
    cbn [workflows calendars trace logged]; by rewrite Htaken.
Qed.

Lemma createFormationWorkflow_duplicate_id_witness :
  let s := (run (createFormationWorkflow sampleCollaborators sampleNow
                   (sampleFormation "FL")) emptyStore).2 in
  (run (createFormationWorkflow sampleCollaborators sampleNow (sampleFormation "FL")) s).1
  = Ret (CreateError "duplicate key value violates unique constraint")
  ∧ workflows (run (createFormationWorkflow sampleCollaborators sampleNow
                      (sampleFormation "FL")) s).2 = workflows s
  ∧ calendars (run (createFormationWorkflow sampleCollaborators sampleNow
                      (sampleFormation "FL")) s).2 = calendars s.
Proof.
  refine (createFormationWorkflow_duplicate_id sampleCollaborators sampleNow
            (sampleFormation "FL") _ _ _ _).
  - apply list_elem_of_here.
  - vm_compute. reflexivity.
Defined.

(** X3: for a supported state and a free id, [createFormationWorkflow]
    stores the new workflow under WF-state-now with status [created] and
    adds nothing else to the table; every step of it is pending, with no
    dates and no result, its progress is 0, and its steps are those the
    language model proposed or, failing that, those of the state's base
    workflow, in order. *)
Theorem createFormationWorkflow_stores ext now formationData s base :
  stateWorkflows (fd_state formationData) = Some base →
  workflows s !! workflowIdOf now formationData = None →
  ∃ workflow nextSteps automation s',
    run (createFormationWorkflow ext now formationData) s
    = (Ret (Created (workflowIdOf now formationData) workflow nextSteps automation), s')
    ∧ workflows s'
      = <[workflowIdOf now formationData :=
            {| row_business_name := fd_businessName formationData;
               row_state := fd_state formationData; row_status := "created";
               row_workflow_data := workflow; row_created_at := now;
               row_updated_at := now; row_completed_at := None |}]> (workflows s)
    ∧ calendars s' = calendars s
    ∧ step_id <$> wf_steps workflow
      = spec_id <$> default (bw_steps base)
                     (optimizeWithAI ext now base formationData ≫= ai_steps)
    ∧ Forall (λ step, step_status step = pending ∧ step_startDate step = None
                      ∧ step_completedDate step = None ∧ step_result step = None)
        (wf_steps workflow)
    ∧ wf_progress workflow = 0%Q
    ∧ nextSteps = getNextActions workflow.
Proof.
  intros Hbase Hfresh. unfold workflowIdOf in *.
  unfold createFormationWorkflow, optimizeWorkflowWithAI, insertWorkflow. unfold_M.
  rewrite Hbase.
  destruct (optimizeWithAI ext now base formationData) as [ai|];
    cbn [workflows calendars trace logged]; rewrite Hfresh;
    cbn [workflows calendars trace logged];
    do 4 eexists; (split; [reflexivity|]); cbn [wf_steps wf_progress];
    (split; [reflexivity|]); (split; [reflexivity|]);
    (split; [by rewrite <- list_fmap_compose|]);
    (split; [|done]); rewrite Forall_fmap; by apply Forall_forall.
Qed.

Lemma createFormationWorkflow_stores_witness :
  ∃ workflow nextSteps automation s',
    run (createFormationWorkflow sampleCollaborators sampleNow (sampleFormation "WY"))
      emptyStore
    = (Ret (Created (workflowIdOf sampleNow (sampleFormation "WY")) workflow
              nextSteps automation), s')
    ∧ step_id <$> wf_steps workflow = knownStepIds
    ∧ Forall (λ step, step_status step = pending ∧ step_startDate step = None
                      ∧ step_completedDate step = None ∧ step_result step = None)
        (wf_steps workflow)
    ∧ wf_progress workflow = 0%Q.
Proof.
  destruct (stateWorkflows "WY") as [base|] eqn:Hbase; [|discriminate Hbase].
  destruct (createFormationWorkflow_stores sampleCollaborators sampleNow
              (sampleFormation "WY") emptyStore base Hbase eq_refl)
    as (workflow & nextSteps & automation & s' & Hrun & _ & _ & Hids & Hall & Hp & _).
  exists workflow, nextSteps, automation, s'.
  split; [exact Hrun|]. split; [|by split].
  rewrite Hids. vm_compute in Hbase. injection Hbase as <-. reflexivity.
Defined.

(** X4: the estimates of a created workflow are never zero.  Whatever the
    language model answers, a cost or a number of days of 0 (falsy) is
    replaced by the value of the state's base workflow, so for FL, WY and
    IL both estimates are different from 0. *)
Theorem created_estimates_not_zero ext now formationData s
    workflowId workflow nextSteps automation s' :
  run (createFormationWorkflow ext now formationData) s
  = (Ret (Created workflowId workflow nextSteps automation), s') →
  wf_totalEstimatedCost workflow ≠ 0 ∧ wf_totalEstimatedDays workflow ≠ 0.
Proof.
  unfold createFormationWorkflow, optimizeWorkflowWithAI, insertWorkflow. unfold_M.
  destruct (stateWorkflows (fd_state formationData)) as [base|] eqn:Hbase; [|done].
  assert (bw_cost base ≠ 0 ∧ bw_totalDays base ≠ 0) as [Hc Hd].
  { unfold stateWorkflows in Hbase.
    repeat case_match; try done; by injection Hbase as <-. }
  assert (∀ o d, d ≠ 0 → num_or o d ≠ 0) as Hor.
  { intros [v|] d Hd'; simpl; [|done]. destruct (Z.eqb_spec v 0); done. }
  destruct (optimizeWithAI ext now base formationData) as [ai|];
    cbn [workflows calendars trace logged];
    destruct (workflows s !! _); try done;
    intros [= <- <- <- <- <-]; cbn [wf_totalEstimatedCost wf_totalEstimatedDays bw_cost
                                      bw_totalDays]; auto.
Qed.

Lemma created_estimates_not_zero_witness :
  ∃ workflow,
    (run (createFormationWorkflow emptyAnswerCollaborators sampleNow
            (sampleFormation "IL")) emptyStore).1
    = Ret (Created "WF-IL-1717200000000" workflow [] [])
    ∧ wf_totalEstimatedCost workflow ≠ 0 ∧ wf_totalEstimatedDays workflow ≠ 0.
Proof.
  eexists. split; [vm_compute; reflexivity|].
  refine (created_estimates_not_zero emptyAnswerCollaborators sampleNow
            (sampleFormation "IL") emptyStore "WF-IL-1717200000000" _ [] [] _ _).
  vm_compute. reflexivity.
Defined.

(** ** Executing a step: what is written, and when *)

(** X5: [executeWorkflowStep] never writes to the table of calendars and
    never touches another workflow; it writes to the workflow it was
    called for only when it answers with an executed step.  With every
    other answer (already completed, dependencies not completed, an
    error) the table of workflows is as before. *)
Theorem executeWorkflowStep_writes_only_on_execution ext now workflowId stepId stepData s :
  calendars (run (executeWorkflowStep ext now workflowId stepId stepData) s).2
  = calendars s
  ∧ (∀ other, other ≠ workflowId →
       workflows (run (executeWorkflowStep ext now workflowId stepId stepData) s).2
         !! other = workflows s !! other)
  ∧ ((∃ result progress next done,
        (run (executeWorkflowStep ext now workflowId stepId stepData) s).1
        = Ret (StepExecuted result progress next done))
     ∨ workflows (run (executeWorkflowStep ext now workflowId stepId stepData) s).2
       = workflows s).
Proof.
  destruct (executeWorkflowStep_outcome ext now workflowId stepId stepData s)
    as [[Hsame Hno]|(row & step & result & Hrow & Hstep & Hdone & Hmiss & Hrun)].
  - split; [|split; [by rewrite Hsame | by right]].
    destruct (executeWorkflowStep_trace ext now workflowId stepId stepData s) as (es & _).
    clear Hno Hsame.
    destruct (workflows s !! workflowId) as [row|] eqn:Hrow.
    2: { by rewrite executeWorkflowStep_workflow_not_found. }
    destruct (findStep stepId (wf_steps (row_workflow_data row))) as [step|] eqn:Hstep.
    2: { by rewrite (executeWorkflowStep_step_not_found _ _ _ _ _ _ row). }
    destruct (isCompleted step) eqn:Hdone.
    { by rewrite (executeWorkflowStep_completed _ _ _ _ _ _ row step). }
    destruct (missingDependencies (row_workflow_data row) stepId) as [|d ds] eqn:Hmiss.
    2: { by rewrite (executeWorkflowStep_dependencies _ _ _ _ _ _ row step)
           by (done || by rewrite Hmiss). }
    destruct (executeWorkflowStep_executes ext now workflowId stepId stepData s row step
                Hrow Hstep Hdone Hmiss)
      as [(message & effects & Hrun & _)|(result & Hrun)]; by rewrite Hrun.
  - rewrite Hrun. cbn [fst snd workflows calendars].
    split; [done|]. split; [|left; by do 4 eexists].
    intros other Hne. by rewrite lookup_insert_ne.
Qed.






(** ** What a sequence of calls keeps *)

(** A relation between the row of a workflow before and after, kept by
    every committed execution, is kept by every sequence of calls. *)
Lemma runCalls_keeps (R : WorkflowRow → WorkflowRow → Prop) ext calls s workflowId row :
  (∀ r, R r r) →
  (∀ a b c, R a b → R b c → R a c) →
  (∀ now stepId result r step,
     findStep stepId (wf_steps (row_workflow_data r)) = Some step →
     isCompleted step = false →
     missingDependencies (row_workflow_data r) stepId = [] →
     R r (rowAfter now stepId result r)) →
  workflows s !! workflowId = Some row →
  ∃ row', workflows (runCalls ext calls s) !! workflowId = Some row' ∧ R row row'.
Proof.
  intros Hrefl Htrans Hstep. revert s row.
  induction calls as [|c calls IH]; intros s row Hrow; [by exists row|].
  assert (∃ row1, workflows (runCall ext s c) !! workflowId = Some row1 ∧ R row row1)
    as (row1 & Hrow1 & HR1).
  { unfold runCall.
    destruct (executeWorkflowStep_outcome ext (call_now c) (call_workflowId c)
                (call_stepId c) (call_stepData c) s)
      as [[Hsame _]|(row0 & step & result & Hrow0 & Hfind & Hdone & Hmiss & Hrun)].
    - exists row. by rewrite Hsame.
    - rewrite Hrun. cbn [snd workflows].
      destruct (decide (call_workflowId c = workflowId)) as [Heq|Hne].
      + rewrite Heq in *. rewrite Hrow in Hrow0. injection Hrow0 as <-.
        eexists. rewrite lookup_insert_eq. split; [done|]. by eapply Hstep.
      + exists row. by rewrite lookup_insert_ne. }
  destruct (IH (runCall ext s c) row1 Hrow1) as (row2 & Hrow2 & HR2).
  exists row2. split; [done|]. by eapply Htrans.
Qed.

Lemma elem_of_updateStep stepId f steps x :
  x ∈ updateStep stepId f steps →
  x ∈ steps ∨ ∃ y, y ∈ steps ∧ step_id y = stepId ∧ x = f y.
Proof.
  induction steps as [|s steps IH]; simpl; [by left|].
  destruct (String.eqb_spec (step_id s) stepId) as [Heq|Hne].
  - intros [->|Hin]%elem_of_cons.
    + right. exists s. split; [apply list_elem_of_here|done].
    + left. by apply list_elem_of_further.
  - intros [->|Hin]%elem_of_cons; [left; apply list_elem_of_here|].
    destruct (IH Hin) as [?|(y & ? & ? & ?)].
    + left. by apply list_elem_of_further.
    + right. exists y. split; [by apply list_elem_of_further|done].
Qed.

Lemma ids_updateStep stepId f steps :
  (∀ s, step_id (f s) = step_id s) →
  step_id <$> updateStep stepId f steps = step_id <$> steps.
Proof.
  intros Hf. induction steps as [|s steps IH]; [done|].
  cbn [updateStep]. destruct (String.eqb (step_id s) stepId); cbn [fmap list_fmap].
  - by rewrite Hf.
  - f_equal. exact IH.
Qed.

(** X7: a completed step is final.  Once a step of a stored workflow is
    completed, no sequence of [executeWorkflowStep] calls, on any
    workflows and steps, with any collaborators, changes it: its status,
    its dates and its result stay exactly as they are. *)
Theorem completed_step_is_final ext calls s workflowId row stepId step :
  workflows s !! workflowId = Some row →
  findStep stepId (wf_steps (row_workflow_data row)) = Some step →
  isCompleted step = true →
  findStep stepId (stepsOf (runCalls ext calls s) workflowId) = Some step.
Proof.
  intros Hrow Hstep Hdone.
  destruct (runCalls_keeps
              (λ a b, ∀ id st,
                 findStep id (wf_steps (row_workflow_data a)) = Some st →
                 isCompleted st = true →
                 findStep id (wf_steps (row_workflow_data b)) = Some st)
              ext calls s workflowId row) as (row' & Hrow' & HR); try done.
  - eauto.
  - intros now id result r st0 Hfind0 Hdone0 _ id' st Hfind Hdone'.
    rewrite rowAfter_data, steps_workflowAfter.
    destruct (decide (id' = id)) as [->|Hne]; [congruence|].
    by rewrite findStep_updateStep_ne.
  - unfold stepsOf. rewrite Hrow'. eauto.
Qed.

Lemma completed_step_is_final_witness :
  findStep "name_check"
    (stepsOf (runCalls sampleCollaborators criticalCalls
                (workflowStore (sampleWorkflow nameCheckDone))) "WF-FL-1")
  = Some (sampleStep completed "name_check" "Business Name Availability Check" 1 true).
Proof.
  refine (completed_step_is_final sampleCollaborators criticalCalls
            (workflowStore (sampleWorkflow nameCheckDone)) "WF-FL-1"
            (workflowRow (sampleWorkflow nameCheckDone)) "name_check" _ _ _ _);
    reflexivity.
Defined.

(** X8: no stored step is ever in progress.  The in-progress mark lives
    only in the working copy of a call: if no step of a stored workflow
    has status [in_progress], then after any sequence of
    [executeWorkflowStep] calls none has, and the steps are still the same
    ids in the same order. *)
Theorem in_progress_is_never_stored ext calls s workflowId row :
  workflows s !! workflowId = Some row →
  Forall (λ step, step_status step ≠ in_progress) (wf_steps (row_workflow_data row)) →
  Forall (λ step, step_status step ≠ in_progress)
    (stepsOf (runCalls ext calls s) workflowId)
  ∧ step_id <$> stepsOf (runCalls ext calls s) workflowId
    = step_id <$> wf_steps (row_workflow_data row).
Proof.
  intros Hrow Hall.
  destruct (runCalls_keeps
              (λ a b,
                 (Forall (λ step, step_status step ≠ in_progress)
                    (wf_steps (row_workflow_data a)) →
                  Forall (λ step, step_status step ≠ in_progress)
                    (wf_steps (row_workflow_data b)))
                 ∧ step_id <$> wf_steps (row_workflow_data b)
                   = step_id <$> wf_steps (row_workflow_data a))
              ext calls s workflowId row) as (row' & Hrow' & HR & Hids); try done.
  - intros a b c [Hab Hab'] [Hbc Hbc']. split; [auto | congruence].
  - intros now id result r st0 _ _ _.
    rewrite rowAfter_data, steps_workflowAfter. split.
    + rewrite !Forall_forall. intros Hr x Hx.
      apply elem_of_updateStep in Hx as [Hx|(y & _ & _ & ->)]; [by apply Hr|].
      cbn. by destruct (result_success result).
    + by apply ids_updateStep.
  - unfold stepsOf. rewrite Hrow'. auto.
Qed.

Lemma in_progress_is_never_stored_witness :
  Forall (λ step, step_status step ≠ in_progress)
    (stepsOf (runCalls sampleCollaborators criticalCalls
                (workflowStore (sampleWorkflow allPending))) "WF-FL-1")
  ∧ step_id <$> stepsOf (runCalls sampleCollaborators criticalCalls
                           (workflowStore (sampleWorkflow allPending))) "WF-FL-1"
    = step_id <$> wf_steps (sampleWorkflow allPending).
Proof.
  refine (in_progress_is_never_stored sampleCollaborators criticalCalls
            (workflowStore (sampleWorkflow allPending)) "WF-FL-1"
            (workflowRow (sampleWorkflow allPending)) _ _).
  - reflexivity.
  - cbn [row_workflow_data workflowRow sampleWorkflow wf_steps].
    rewrite Forall_fmap. apply Forall_forall. intros spec _. discriminate.
Defined.

(** X9: dependency order in every reachable state.  A workflow in the
    shape [createFormationWorkflow] gives it keeps that shape under any
    sequence of [executeWorkflowStep] calls: every step records the
    dependencies of the table, and every completed step has all its
    dependencies completed. *)
Theorem dependency_order_is_kept ext calls s workflowId row :
  workflows s !! workflowId = Some row →
  wellFormed (row_workflow_data row) →
  ∃ row',
    workflows (runCalls ext calls s) !! workflowId = Some row'
    ∧ wellFormed (row_workflow_data row').
Proof.
  intros Hrow Hwf.
  destruct (runCalls_keeps
              (λ a b, wellFormed (row_workflow_data a) → wellFormed (row_workflow_data b))
              ext calls s workflowId row) as (row' & Hrow' & HR); try done.
  - eauto.
  - intros now id result r st Hfind Hdone Hmiss Hr. rewrite rowAfter_data.
    by apply (wellFormed_workflowAfter _ _ _ _ st).
  - eauto.
Qed.

Lemma dependency_order_is_kept_witness :
  ∃ row',
    workflows (runCalls sampleCollaborators criticalCalls
                 (workflowStore (sampleWorkflow allPending))) !! "WF-FL-1" = Some row'
    ∧ wellFormed (row_workflow_data row').
Proof.
  refine (dependency_order_is_kept sampleCollaborators criticalCalls
            (workflowStore (sampleWorkflow allPending)) "WF-FL-1"
            (workflowRow (sampleWorkflow allPending)) _ _).
  - reflexivity.
  - apply wellFormedb_sound. vm_compute. reflexivity.
Defined.

(** X10: completion is final.  Once the status of a stored workflow is
    [completed], it stays [completed] under any sequence of
    [executeWorkflowStep] calls. *)
Theorem completed_workflow_stays_completed ext calls s workflowId row :
  workflows s !! workflowId = Some row →
  row_status row = "completed" →
  rowStatusOf (runCalls ext calls s) workflowId = Some "completed".
Proof.
  intros Hrow Hst.
  destruct (runCalls_keeps
              (λ a b, row_status a = "completed" → row_status b = "completed")
              ext calls s workflowId row) as (row' & Hrow' & HR); try done.
  - eauto.
  - intros now id result r st _ _ _ Hr. rewrite rowAfter_status.
    by destruct (Qeq_bool _ 100).
  - unfold rowStatusOf. rewrite Hrow'. simpl. by rewrite HR.
Qed.

Lemma completed_workflow_stays_completed_witness :
  rowStatusOf (runCalls sampleCollaborators criticalCalls completedStore) "WF-FL-1"
  = Some "completed".
Proof.
  destruct (workflows completedStore !! "WF-FL-1") as [row|] eqn:Hrow;
    [|vm_compute in Hrow; discriminate Hrow].
  refine (completed_workflow_stays_completed sampleCollaborators criticalCalls
            completedStore "WF-FL-1" row Hrow _).
  vm_compute in Hrow. injection Hrow as <-. reflexivity.
Defined.

(** What a call that executes a step writes and answers. *)
Lemma executed_step_store ext now workflowId stepId stepData s
    result progress next done s' :
  run (executeWorkflowStep ext now workflowId stepId stepData) s
  = (Ret (StepExecuted result progress next done), s') →
  ∃ row step,
    workflows s !! workflowId = Some row
    ∧ findStep stepId (wf_steps (row_workflow_data row)) = Some step
    ∧ workflows s' = <[workflowId := rowAfter now stepId result row]> (workflows s)
    ∧ progress = wf_progress (workflowAfter now stepId result (row_workflow_data row))
    ∧ next = wf_nextAction (workflowAfter now stepId result (row_workflow_data row)).
Proof.
  intros Hrun.
  destruct (executeWorkflowStep_outcome ext now workflowId stepId stepData s)
    as [[_ Hno]|(row & step & result' & Hrow & Hstep & Hdone & Hmiss & Hrun')].
  { rewrite Hrun in Hno. by destruct (Hno result progress next done). }
  rewrite Hrun in Hrun'. injection Hrun' as -> -> -> -> ->.
  by exists row, step.
Qed.

(** X11: what an executed step leaves in the store.  When
    [executeWorkflowStep] answers with an executed step, the stored step
    is completed if the handler's result has [success], failed otherwise;
    it carries the result and the time of the call as start and
    completion date; every step of another id is as before; and the
    progress and next action of the answer are those of the stored
    workflow: the share of completed steps and the first pending step. *)
Theorem executed_step_is_recorded ext now workflowId stepId stepData s
    result progress next done s' :
  run (executeWorkflowStep ext now workflowId stepId stepData) s
  = (Ret (StepExecuted result progress next done), s') →
  ∃ step',
    findStep stepId (stepsOf s' workflowId) = Some step'
    ∧ step_status step' = (if result_success result then completed else failed)
    ∧ step_startDate step' = Some now
    ∧ step_completedDate step' = Some now
    ∧ step_result step' = Some result
    ∧ (∀ other, other ≠ stepId →
         findStep other (stepsOf s' workflowId) = findStep other (stepsOf s workflowId))
    ∧ progressOf s' workflowId = Some progress
    ∧ progress = computeProgress (stepsOf s' workflowId)
    ∧ next = step_id <$> List.find (λ step, status_eqb (step_status step) pending)
                           (stepsOf s' workflowId).
Proof.
  intros Hrun.
  destruct (executed_step_store _ _ _ _ _ _ _ _ _ _ _ Hrun)
    as (row & step & Hrow & Hstep & Hs' & -> & ->).
  unfold stepsOf, progressOf. rewrite Hs', lookup_insert_eq, Hrow.
  cbn [mbind option_bind]. rewrite rowAfter_data.
  exists (recordResult now result (markInProgress now step)).
  rewrite steps_workflowAfter, findStep_updateStep, Hstep by done.
  repeat split; try done.
  - intros other Hne. by rewrite findStep_updateStep_ne.
  - by rewrite <- steps_workflowAfter.
  - by rewrite <- steps_workflowAfter.
Qed.

Lemma executed_step_is_recorded_witness :
  ∃ result progress next done s' step',
    run (executeWorkflowStep sampleCollaborators sampleNow "WF-FL-1" "name_check"
           noStepData) (workflowStore (sampleWorkflow allPending))
    = (Ret (StepExecuted result progress next done), s')
    ∧ findStep "name_check" (stepsOf s' "WF-FL-1") = Some step'
    ∧ step_status step' = completed
    ∧ next = Some "name_reservation".
Proof.
  destruct (run (executeWorkflowStep sampleCollaborators sampleNow "WF-FL-1"
                   "name_check" noStepData) (workflowStore (sampleWorkflow allPending)))
    as [[[| |result progress next done|]|] s'] eqn:Hrun;
    try (vm_compute in Hrun; discriminate Hrun).
  destruct (executed_step_is_recorded _ _ _ _ _ _ _ _ _ _ _ Hrun)
    as (step' & Hfind & Hst & _ & _ & _ & _ & _ & _ & Hnext).
  exists result, progress, next, done, s', step'.
  split; [done|]. split; [done|].
  vm_compute in Hrun. injection Hrun as <- <- <- <- <-. split; [exact Hst | reflexivity].
Defined.

(** ** The name check *)

Lemma toLowerCase_app a b : toLowerCase (a +:+ b) = toLowerCase a +:+ toLowerCase b.
Proof.
  induction a as [|c a IH]; [done|].
  rewrite append_String. cbn [toLowerCase]. by rewrite append_String, IH.
Qed.

Lemma includes_app_r needle a b :
  includes needle b = true → includes needle (a +:+ b) = true.
Proof.
  intros Hb. induction a as [|c a IH]; [done|].
  rewrite append_String. cbn [includes]. rewrite IH. apply orb_true_r.
Qed.

(** X12: the names the name check suggests pass the name check.  When
    [executeNameCheck] rejects a business name, each of the two names it
    suggests is accepted when checked in turn. *)
Theorem suggested_names_pass now workflow stepData s error suggestions s' :
  run (executeNameCheck now workflow stepData) s
  = (Ret (NameCheckRejected error suggestions), s') →
  ∀ name workflow' now' stepData' s'',
    name ∈ suggestions →
    wf_businessName workflow' = name →
    run (executeNameCheck now' workflow' stepData') s''
    = (Ret (NameCheckPassed true name (wf_state workflow') now' true), s'').
Proof.
  unfold executeNameCheck. unfold_M.
  destruct (negb _) eqn:Hrej; [|done]. intros [= _ <- _].
  intros name workflow' now' stepData' s'' Hin Hname.
  assert (includes "llc" (toLowerCase name)
          || includes "limited liability company" (toLowerCase name) = true) as Hok.
  { apply elem_of_cons in Hin as [->|Hin];
      [|apply list_elem_of_singleton in Hin as ->];
      rewrite toLowerCase_app.
    - rewrite includes_app_r; done.
    - apply orb_true_iff. right. by rewrite includes_app_r. }
  rewrite Hname, Hok. reflexivity.
Qed.

Lemma suggested_names_pass_witness :
  run (executeNameCheck sampleNow (sampleWorkflow allPending) noStepData) emptyStore
  = (Ret (NameCheckPassed true "Acme LLC" "FL" sampleNow true), emptyStore).
Proof.
  refine (suggested_names_pass sampleNow unnamedWorkflow noStepData emptyStore
            _ ["Acme LLC"; "Acme Limited Liability Company"] emptyStore _
            "Acme LLC" (sampleWorkflow allPending) sampleNow noStepData emptyStore _ _).
  - vm_compute. reflexivity.
  - apply list_elem_of_here.
  - reflexivity.
Defined.

(** ** The next action *)

Lemma same_id_same_step (steps : list Step) x y :
  NoDup (step_id <$> steps) → x ∈ steps → y ∈ steps → step_id x = step_id y → x = y.
Proof.
  induction steps as [|s steps IH]; intros Hnd Hx Hy Hid; [by apply elem_of_nil in Hx|].
  cbn [fmap list_fmap] in Hnd. apply NoDup_cons in Hnd as [Hs Hnd].
  apply elem_of_cons in Hx as [->|Hx]; apply elem_of_cons in Hy as [->|Hy]; try done.
  - destruct Hs. rewrite Hid. apply list_elem_of_fmap. by exists y.
  - destruct Hs. rewrite <- Hid. apply list_elem_of_fmap. by exists x.
  - by apply IH.
Qed.

(** X13: the step just executed is never offered as the next action.  In
    a workflow whose step ids are distinct, the next action of an answer
    is the first step still pending and so never the step the call has
    executed, whether that step succeeded or failed: a failed step can be
    retried, but the engine does not propose it. *)
Theorem next_action_skips_executed_step ext now workflowId stepId stepData s
    result progress next done s' :
  run (executeWorkflowStep ext now workflowId stepId stepData) s
  = (Ret (StepExecuted result progress next done), s') →
  NoDup (step_id <$> stepsOf s workflowId) →
  next ≠ Some stepId.
Proof.
  intros Hrun Hnd Hnext.
  destruct (executed_step_store _ _ _ _ _ _ _ _ _ _ _ Hrun)
    as (row & step & Hrow & Hstep & Hs' & _ & Hn).
  unfold stepsOf in Hnd. rewrite Hrow in Hnd.
  set (steps' := wf_steps (workflowAfter now stepId result (row_workflow_data row))).
  assert (next = step_id <$> List.find (λ step, status_eqb (step_status step) pending)
                               steps') as Hfirst by (by rewrite Hn).
  assert (step_id <$> steps' = step_id <$> wf_steps (row_workflow_data row)) as Hids.
  { unfold steps'. rewrite steps_workflowAfter. by apply ids_updateStep. }
  assert (findStep stepId steps'
          = Some (recordResult now result (markInProgress now step))) as Hfind.
  { unfold steps'. by rewrite steps_workflowAfter, findStep_updateStep, Hstep. }
  rewrite <- Hids in Hnd. rewrite Hfirst in Hnext.
  destruct (List.find _ steps') as [p|] eqn:Hp; [|done].
  injection Hnext as Hid. apply List.find_some in Hp as [Hin Hpend].
  apply findStep_Some in Hfind as [Hin' Hid'].
  assert (p = recordResult now result (markInProgress now step)) as ->.
  { apply (same_id_same_step steps'); try done.
    - by apply list_elem_of_In.
    - congruence. }
  cbn in Hpend. by destruct (result_success result).
Qed.

Lemma next_action_skips_executed_step_witness :
  ∃ result progress done s',
    run (executeWorkflowStep sampleCollaborators sampleNow "WF-FL-2" "name_check"
           noStepData) (workflowStore unnamedWorkflow)
    = (Ret (StepExecuted result progress (Some "name_reservation") done), s')
    ∧ result_success result = false
    ∧ Some "name_reservation" ≠ Some "name_check".
Proof.
  destruct (run (executeWorkflowStep sampleCollaborators sampleNow "WF-FL-2"
                   "name_check" noStepData) (workflowStore unnamedWorkflow))
    as [[[| |result progress next done|]|] s'] eqn:Hrun;
    try (vm_compute in Hrun; discriminate Hrun).
  pose proof (next_action_skips_executed_step _ _ _ _ _ _ _ _ _ _ _ Hrun) as Hskip.
  vm_compute in Hrun. injection Hrun as <- <- <- <- <-.
  do 4 eexists. split; [reflexivity|]. split; [reflexivity|].
  apply Hskip. apply (bool_decide_unpack _). vm_compute. reflexivity.
Defined.

Lemma findStep_NoDup (steps : list Step) step :
  NoDup (step_id <$> steps) → step ∈ steps → findStep (step_id step) steps = Some step.
Proof.
  intros Hnd Hin. unfold findStep.
  destruct (List.find _ steps) as [q|] eqn:Hq.
  - apply List.find_some in Hq as [Hq Hid]. apply String.eqb_eq in Hid.
    f_equal. apply (same_id_same_step steps); try done. by apply list_elem_of_In.
  - apply list_elem_of_In in Hin.
    pose proof (List.find_none _ _ Hq _ Hin) as Hno. cbn in Hno.
    by rewrite String.eqb_refl in Hno.
Qed.

(** X14: the proposed next action can be blocked.  The next action is the
    first pending step, whatever its dependencies: when a step fails and
    the next action of the answer depends on that step, executing the
    next action is refused with the failed step among the missing
    dependencies, and nothing is written. *)
Theorem failed_step_blocks_next_action ext now now' workflowId stepId stepData
    stepData' s result progress next done s' :
  run (executeWorkflowStep ext now workflowId stepId stepData) s
  = (Ret (StepExecuted result progress (Some next) done), s') →
  NoDup (step_id <$> stepsOf s workflowId) →
  result_success result = false →
  stepId ∈ getStepDependencies next →
  ∃ missing,
    run (executeWorkflowStep ext now' workflowId next stepData') s'
    = (Ret (DependenciesNotCompleted missing), s')
    ∧ stepId ∈ missing.
Proof.
  intros Hrun Hnd Hfail Hdep.
  destruct (executed_step_store _ _ _ _ _ _ _ _ _ _ _ Hrun)
    as (row & step & Hrow & Hstep & Hs' & _ & Hn).
  unfold stepsOf in Hnd. rewrite Hrow in Hnd.
  assert (workflows s' !! workflowId = Some (rowAfter now stepId result row)) as Hrow'.
  { rewrite Hs'. apply lookup_insert_eq. }
  set (workflow' := workflowAfter now stepId result (row_workflow_data row)) in *.
  assert (step_id <$> wf_steps workflow' = step_id <$> wf_steps (row_workflow_data row))
    as Hids.
  { unfold workflow'. rewrite steps_workflowAfter. by apply ids_updateStep. }
  assert (Some next = step_id <$> getNextPendingStep workflow') as Hfirst
    by (by rewrite Hn).
  unfold getNextPendingStep in Hfirst.
  destruct (List.find _ (wf_steps workflow')) as [p|] eqn:Hp; [|done].
  injection Hfirst as ->. apply List.find_some in Hp as [Hin Hpend].
  apply list_elem_of_In in Hin.
  assert (findStep (step_id p) (wf_steps workflow') = Some p) as Hfind.
  { apply findStep_NoDup; [by rewrite Hids|done]. }
  assert (isCompleted p = false) as Hopen.
  { unfold isCompleted. by destruct (step_status p). }
  assert (dependencyMissing workflow' stepId = true) as Hmissing.
  { unfold dependencyMissing, workflow'.
    rewrite steps_workflowAfter, findStep_updateStep, Hstep by done.
    unfold isCompleted, recordResult. cbn. by rewrite Hfail. }
  assert (stepId ∈ missingDependencies workflow' (step_id p)) as Hlisted.
  { unfold missingDependencies. by apply elem_of_filter_bool. }
  exists (missingDependencies workflow' (step_id p)). split; [|done].
  pose proof (executeWorkflowStep_dependencies ext now' workflowId (step_id p)
                stepData' s' (rowAfter now stepId result row) p Hrow') as Hblocked.
  rewrite rowAfter_data in Hblocked. apply Hblocked; try done.
  intros Hnil. fold workflow' in Hnil. rewrite Hnil in Hlisted.
  by apply elem_of_nil in Hlisted.
Qed.

Lemma failed_step_blocks_next_action_witness :
  ∃ result progress done s' missing,
    run (executeWorkflowStep sampleCollaborators sampleNow "WF-FL-2" "name_check"
           noStepData) (workflowStore unnamedWorkflow)
    = (Ret (StepExecuted result progress (Some "name_reservation") done), s')
    ∧ run (executeWorkflowStep sampleCollaborators (sampleNow + 1) "WF-FL-2"
             "name_reservation" noStepData) s'
      = (Ret (DependenciesNotCompleted missing), s')
    ∧ "name_check" ∈ missing.
Proof.
  destruct (run (executeWorkflowStep sampleCollaborators sampleNow "WF-FL-2"
                   "name_check" noStepData) (workflowStore unnamedWorkflow))
    as [[[| |result progress next done|]|] s'] eqn:Hrun;
    try (vm_compute in Hrun; discriminate Hrun).
  assert (next = Some "name_reservation" ∧ result_success result = false)
    as [-> Hfail].
  { vm_compute in Hrun. by injection Hrun as <- <- <- <- <-. }
  destruct (failed_step_blocks_next_action sampleCollaborators sampleNow
              (sampleNow + 1) "WF-FL-2" "name_check" noStepData noStepData
              (workflowStore unnamedWorkflow) result progress "name_reservation"
              done s' Hrun) as (missing & Hblocked & Hin).
  - apply (bool_decide_unpack _). vm_compute. reflexivity.
  - exact Hfail.
  - apply list_elem_of_here.
  - by exists result, progress, done, s', missing.
Defined.

(** ** The whole workflow *)






(** A call whose handler returns commits the handler's result. *)
Lemma executeWorkflowStep_commits ext now workflowId stepId stepData s row step result :
  workflows s !! workflowId = Some row →
  findStep stepId (wf_steps (row_workflow_data row)) = Some step →
  isCompleted step = false →
  missingDependencies (row_workflow_data row) stepId = [] →
  run (runStepHandler ext now workflowId
         (withSteps (row_workflow_data row)
            (updateStep stepId (markInProgress now) (wf_steps (row_workflow_data row))))
         stepId stepData) s
  = (Ret result, logged s [StepHandlerInvoked workflowId stepId (Some in_progress)]) →
  workflows (run (executeWorkflowStep ext now workflowId stepId stepData) s).2
  = <[workflowId := rowAfter now stepId result row]> (workflows s).
Proof.
  intros Hrow Hstep Hdone Hmiss Hh.
  pose proof (runStepHandler_own _ _ _ _ _ _ _ _ _ Hh) as Hkey.
  destruct (executeWorkflowStep_executes ext now workflowId stepId stepData s row step
              Hrow Hstep Hdone Hmiss)
    as [(message & effects & Hrun & _)|(result' & Hrun)].
  - exfalso. revert Hrun.
    unfold executeWorkflowStep, selectWorkflow, completeWorkflow, updateWorkflow,
      checkStepDependencies.
    unfold run, mbind, M_bind, mret, M_ret, try_catch, throw, getStore, when_,
      storeMemory, consoleError, emit, setWorkflows in *.
    rewrite Hrow, Hstep, Hdone, Hkey. cbn [allCompleted missing].
    fold (missingDependencies (row_workflow_data row) stepId). rewrite Hmiss.
    cbn [length Nat.eqb negb]. rewrite Hh. by destruct (Qeq_bool _ 100).
  - assert (result' = result) as ->; [|by rewrite Hrun].
    revert Hrun.
    unfold executeWorkflowStep, selectWorkflow, completeWorkflow, updateWorkflow,
      checkStepDependencies.
    unfold run, mbind, M_bind, mret, M_ret, try_catch, throw, getStore, when_,
      storeMemory, consoleError, emit, setWorkflows in *.
    rewrite Hrow, Hstep, Hdone, Hkey. cbn [allCompleted missing].
    fold (missingDependencies (row_workflow_data row) stepId). rewrite Hmiss.
    cbn [length Nat.eqb negb]. rewrite Hh.
    destruct (Qeq_bool _ 100); by intros [= ->].
Qed.







(** ** From creation to completion *)





(** X17: an empty plan cannot run.  An empty list of steps in the answer
    of the language model is kept as it is (an empty array is truthy): the
    created workflow has no steps and offers no next action, and every
    later [executeWorkflowStep] on it answers that the step is not found
    and leaves the workflow as stored. *)
Theorem empty_plan_cannot_run ext now formationData s base aiOptimization :
  stateWorkflows (fd_state formationData) = Some base →
  workflows s !! workflowIdOf now formationData = None →
  optimizeWithAI ext now base formationData = Some aiOptimization →
  ai_steps aiOptimization = Some [] →
  ∃ workflow s',
    run (createFormationWorkflow ext now formationData) s
    = (Ret (Created (workflowIdOf now formationData) workflow [] []), s')
    ∧ wf_steps workflow = []
    ∧ ∀ now' stepId stepData,
        run (executeWorkflowStep ext now' (workflowIdOf now formationData) stepId
               stepData) s'
        = (Ret (ExecError "Step not found in workflow"),
           logged s' [ConsoleError ("Error executing workflow step " +:+ stepId +:+ ":")]).
Proof.
  intros Hbase Hfresh Hai Hempty. unfold workflowIdOf in *.
  unfold createFormationWorkflow, optimizeWorkflowWithAI, insertWorkflow. unfold_M.
  rewrite Hbase, Hai, Hempty. cbn [workflows calendars trace logged default bw_steps].
  rewrite Hfresh. cbn [workflows calendars trace logged].
  do 2 eexists. split; [reflexivity|]. split; [reflexivity|].
  intros now' stepId stepData.
  eapply executeWorkflowStep_step_not_found; [apply lookup_insert_eq|reflexivity].
Qed.

Lemma empty_plan_cannot_run_witness :
  ∃ workflow s',
    run (createFormationWorkflow emptyAnswerCollaborators sampleNow
           (sampleFormation "IL")) emptyStore
    = (Ret (Created (workflowIdOf sampleNow (sampleFormation "IL")) workflow [] []), s')
    ∧ wf_steps workflow = []
    ∧ ∀ now' stepId stepData,
        run (executeWorkflowStep emptyAnswerCollaborators now'
               (workflowIdOf sampleNow (sampleFormation "IL")) stepId stepData) s'
        = (Ret (ExecError "Step not found in workflow"),
           logged s' [ConsoleError ("Error executing workflow step " +:+ stepId +:+ ":")]).
Proof.
  refine (empty_plan_cannot_run emptyAnswerCollaborators sampleNow
            (sampleFormation "IL") emptyStore _ emptyAnswer _ _ _ _).
  - reflexivity.
  - reflexivity.
  - reflexivity.
  - reflexivity.
Defined.

(** ** A business name that does not pass *)

(** A call either leaves the table of workflows alone or stores the result
    its handler has returned. *)
Lemma executeWorkflowStep_handled ext now workflowId stepId stepData s :
  workflows (run (executeWorkflowStep ext now workflowId stepId stepData) s).2
  = workflows s
  ∨ ∃ row step result s1,
      workflows s !! workflowId = Some row
      ∧ findStep stepId (wf_steps (row_workflow_data row)) = Some step
      ∧ isCompleted step = false
      ∧ run (runStepHandler ext now workflowId
               (withSteps (row_workflow_data row)
                  (updateStep stepId (markInProgress now)
                     (wf_steps (row_workflow_data row))))
               stepId stepData) s = (Ret result, s1)
      ∧ workflows (run (executeWorkflowStep ext now workflowId stepId stepData) s).2
        = <[workflowId := rowAfter now stepId result row]> (workflows s).
Proof.
  destruct (executeWorkflowStep_outcome ext now workflowId stepId stepData s)
    as [[Hsame _]|(row & step & result' & Hrow & Hstep & Hdone & Hmiss & Hrun)];
    [by left|].
  destruct (runStepHandler_cases ext now workflowId
              (withSteps (row_workflow_data row)
                 (updateStep stepId (markInProgress now)
                    (wf_steps (row_workflow_data row))))
              stepId stepData s) as [[message Hh]|[[result|message] Hh]].
  all: destruct (inheritedKey stepId) eqn:Hkey;
    [by rewrite (executeWorkflowStep_inherited _ _ _ _ _ _ row step) in Hrun|].
  - exfalso. revert Hrun.
    unfold executeWorkflowStep, selectWorkflow, completeWorkflow, updateWorkflow,
      checkStepDependencies.
    unfold run, mbind, M_bind, mret, M_ret, try_catch, throw, getStore, when_,
      storeMemory, consoleError, emit, setWorkflows in *.
    rewrite Hrow, Hstep, Hdone, Hkey. cbn [allCompleted missing].
    fold (missingDependencies (row_workflow_data row) stepId). rewrite Hmiss.
    cbn [length Nat.eqb negb]. by rewrite Hh.
  - right. exists row, step, result. eexists. split; [done|]. split; [done|].
    split; [done|]. split; [exact Hh|].
    eapply executeWorkflowStep_commits; try done.
    rewrite Hh. cbn [wf_steps withSteps]. rewrite findStep_updateStep by done.
    by rewrite Hstep.
  - exfalso. revert Hrun.
    unfold executeWorkflowStep, selectWorkflow, completeWorkflow, updateWorkflow,
      checkStepDependencies.
    unfold run, mbind, M_bind, mret, M_ret, try_catch, throw, getStore, when_,
      storeMemory, consoleError, emit, setWorkflows in *.
    rewrite Hrow, Hstep, Hdone, Hkey. cbn [allCompleted missing].
    fold (missingDependencies (row_workflow_data row) stepId). rewrite Hmiss.
    cbn [length Nat.eqb negb]. by rewrite Hh.
Qed.

(** A relation between the rows of a workflow that every stored result of
    a handler keeps is kept by every sequence of calls. *)
Lemma runCalls_keeps_handled (R : WorkflowRow → WorkflowRow → Prop) ext calls s
    workflowId row :
  (∀ r, R r r) →
  (∀ a b c, R a b → R b c → R a c) →
  (∀ now stepId stepData result r step s0 s1,
     findStep stepId (wf_steps (row_workflow_data r)) = Some step →
     isCompleted step = false →
     run (runStepHandler ext now workflowId
            (withSteps (row_workflow_data r)
               (updateStep stepId (markInProgress now) (wf_steps (row_workflow_data r))))
            stepId stepData) s0 = (Ret result, s1) →
     R r (rowAfter now stepId result r)) →
  workflows s !! workflowId = Some row →
  ∃ row', workflows (runCalls ext calls s) !! workflowId = Some row' ∧ R row row'.
Proof.
  intros Hrefl Htrans Hstep. revert s row.
  induction calls as [|c calls IH]; intros s row Hrow; [by exists row|].
  assert (∃ row1, workflows (runCall ext s c) !! workflowId = Some row1 ∧ R row row1)
    as (row1 & Hrow1 & HR1).
  { unfold runCall.
    destruct (executeWorkflowStep_handled ext (call_now c) (call_workflowId c)
                (call_stepId c) (call_stepData c) s)
      as [Hsame|(row0 & step & result & s1 & Hrow0 & Hfind & Hdone & Hh & Hrun)].
    - exists row. by rewrite Hsame.
    - rewrite Hrun.
      destruct (decide (call_workflowId c = workflowId)) as [Heq|Hne].
      + rewrite Heq in *. rewrite Hrow in Hrow0. injection Hrow0 as <-.
        eexists. rewrite lookup_insert_eq. split; [done|]. by eapply Hstep.
      + exists row. by rewrite lookup_insert_ne. }
  destruct (IH (runCall ext s c) row1 Hrow1) as (row2 & Hrow2 & HR2).
  exists row2. split; [done|]. by eapply Htrans.
Qed.

Lemma forallb_isCompleted_false steps step :
  step ∈ steps → isCompleted step = false → forallb isCompleted steps = false.
Proof.
  intros Hin Hopen. destruct (forallb isCompleted steps) eqn:Hall; [|done].
  rewrite forallb_forall in Hall. apply list_elem_of_In in Hin.
  specialize (Hall step Hin). congruence.
Qed.

(** X18: a workflow whose business name does not pass the name check can
    never complete.  The engine has no operation that changes the name
    of a stored workflow, so when the name contains neither [llc] nor
    [limited liability company] and the name check is not yet completed,
    then under any sequence of [executeWorkflowStep] calls, with any
    collaborators, the name check stays not completed and the status of
    the workflow row never changes. *)
Theorem rejected_name_never_completes ext calls s workflowId row step :
  workflows s !! workflowId = Some row →
  nameAccepted (wf_businessName (row_workflow_data row)) = false →
  findStep "name_check" (wf_steps (row_workflow_data row)) = Some step →
  isCompleted step = false →
  ∃ row' step',
    workflows (runCalls ext calls s) !! workflowId = Some row'
    ∧ row_status row' = row_status row
    ∧ wf_businessName (row_workflow_data row') = wf_businessName (row_workflow_data row)
    ∧ findStep "name_check" (wf_steps (row_workflow_data row')) = Some step'
    ∧ isCompleted step' = false.
Proof.
  intros Hrow Hname Hstep Hopen.
  set (stuck := λ r : WorkflowRow,
         nameAccepted (wf_businessName (row_workflow_data r)) = false
         ∧ ∃ st, findStep "name_check" (wf_steps (row_workflow_data r)) = Some st
                 ∧ isCompleted st = false).
  destruct (runCalls_keeps_handled
              (λ a b, stuck a →
                      stuck b ∧ row_status b = row_status a
                      ∧ wf_businessName (row_workflow_data b)
                        = wf_businessName (row_workflow_data a))
              ext calls s workflowId row) as (row' & Hrow' & HR); try done.
  - intros a b c Hab Hbc Ha. destruct (Hab Ha) as (Hb & Hst & Hn).
    destruct (Hbc Hb) as (Hc & Hst' & Hn'). split; [done|]. split; congruence.
  - intros now stepId stepData result r st0 s0 s1 Hfind Hopen0 Hh
      [Hn (st & Hst & Hno)].
    assert (∃ st', findStep "name_check"
                     (wf_steps (workflowAfter now stepId result (row_workflow_data r)))
                   = Some st' ∧ isCompleted st' = false) as (st' & Hst' & Hno').
    { rewrite steps_workflowAfter.
      destruct (decide (stepId = "name_check")) as [->|Hne].
      - rewrite findStep_updateStep, Hst by done. eexists. split; [reflexivity|].
        revert Hh. unfold runStepHandler, executeNameCheck. unfold_M.
        cbn [String.eqb Ascii.eqb Bool.eqb wf_businessName withSteps].
        unfold nameAccepted in Hn. rewrite Hn. cbn [negb]. by intros [= <- _].
      - rewrite findStep_updateStep_ne by done. eauto. }
    unfold stuck. rewrite rowAfter_data, rowAfter_status.
    split; [split; [exact Hn|eauto]|]. split; [|reflexivity].
    rewrite progress_workflowAfter.
    apply findStep_Some in Hst' as [Hin _].
    rewrite computeProgress_100 by (intros Hnil; rewrite Hnil in Hin;
                                    by apply elem_of_nil in Hin).
    by rewrite (forallb_isCompleted_false _ st').
  - destruct HR as ((_ & step' & Hstep' & Hopen') & Hst & Hn); [split; eauto|].
    by exists row', step'.
Qed.

Lemma rejected_name_never_completes_witness :
  ∃ row' step',
    workflows (runCalls sampleCollaborators (allCalls "WF-FL-2" (λ i, sampleNow + i))
                 (workflowStore unnamedWorkflow)) !! "WF-FL-2" = Some row'
    ∧ row_status row' = "created"
    ∧ wf_businessName (row_workflow_data row') = "Acme"
    ∧ findStep "name_check" (wf_steps (row_workflow_data row')) = Some step'
    ∧ isCompleted step' = false.
Proof.
  refine (rejected_name_never_completes sampleCollaborators
            (allCalls "WF-FL-2" (λ i, sampleNow + i)) (workflowStore unnamedWorkflow)
            "WF-FL-2" (workflowRow unnamedWorkflow) _ _ _ _ _).
  - reflexivity.
  - reflexivity.
  - reflexivity.
  - reflexivity.
Defined.

(** ** Creation of a compliance calendar *)

(** The calendar a successful creation stores and returns. *)
Lemma createComplianceCalendar_fields now companyData stateRequirements s :
  complianceRequirements (cd_state companyData) = Some stateRequirements →
  calendars s !! calendarIdOf now companyData = None →
  ∃ calendar s',
    run (createComplianceCalendar now companyData) s
    = (Ret (CalendarCreated (calendarIdOf now companyData) calendar
              (getNextComplianceActions now calendar)
              (calculateRevenueProjection calendar)), s')
    ∧ cal_events calendar
      = generateEvents stateRequirements (cd_state companyData)
          (cd_formationDate companyData) (cd_businessType companyData)
          (JSDate.getFullYear now)
    ∧ cal_nextDueEvent calendar
      = List.find (λ event, now <? ev_dueDate event) (cal_events calendar)
    ∧ cal_annualComplianceCost calendar
      = calculateAnnualComplianceCost (cd_state companyData) (cal_events calendar)
    ∧ cal_revenueOpportunities calendar
      = identifyRevenueOpportunities (cal_events calendar)
    ∧ cal_totalEvents calendar = Z.of_nat (length (cal_events calendar))
    ∧ cal_businessName calendar = cd_businessName companyData
    ∧ cal_state calendar = cd_state companyData
    ∧ calendars s'
      = <[calendarIdOf now companyData :=
            {| crow_business_name := cd_businessName companyData;
               crow_state := cd_state companyData;
               crow_ein := cd_ein companyData;
               crow_calendar_data := calendar;
               crow_created_at := now |}]> (calendars s)
    ∧ workflows s' = workflows s.
Proof.
  intros Hreq Hfresh. unfold calendarIdOf in *.
  unfold createComplianceCalendar, insertCalendar. unfold_M.
  rewrite Hreq, Hfresh. cbn [calendars workflows logged].
  do 2 eexists. split; [reflexivity|]. cbn. repeat split.
Qed.



(** *** The order of the events *)

Section Sorting.
Context {A : Type} (le : A → A → bool).
Hypothesis le_total : ∀ a b, le a b = false → le b a = true.
Hypothesis le_trans : ∀ a b c, le a b = true → le b c = true → le a c = true.

Lemma insertBy_StronglySorted x l :
  StronglySorted (λ a b, le a b = true) l →
  StronglySorted (λ a b, le a b = true) (insertBy le x l).
Proof.
  induction 1 as [|y l Hl IH Hy]; cbn [insertBy].
  - by repeat constructor.
  - destruct (le x y) eqn:Hxy.
    + constructor; [by constructor|]. constructor; [done|].
      eapply Forall_impl; [exact Hy|]. intros z Hz. by eapply le_trans.
    + constructor; [exact IH|].
      rewrite (insertBy_Permutation le x l). constructor; [by apply le_total|done].
Qed.

Lemma sortBy_StronglySorted l : StronglySorted (λ a b, le a b = true) (sortBy le l).
Proof.
  induction l as [|x l IH]; [constructor|].
  cbn [sortBy foldr]. by apply insertBy_StronglySorted.
Qed.
End Sorting.

Lemma StronglySorted_impl {A} (R R' : A → A → Prop) l :
  (∀ a b, R a b → R' a b) → StronglySorted R l → StronglySorted R' l.
Proof.
  intros HR. induction 1 as [|x l Hl IH Hx]; constructor; [done|].
  eapply Forall_impl; [exact Hx|]. auto.
Qed.

Lemma generateEvents_inDueOrder stateRequirements state formationDate businessType year :
  inDueOrder (generateEvents stateRequirements state formationDate businessType year).
Proof.
  unfold inDueOrder, generateEvents.
  eapply StronglySorted_impl; [|apply (sortBy_StronglySorted leDueDate)].
  - intros a b. unfold leDueDate. lia.
  - intros a b. unfold leDueDate. lia.
  - intros a b c. unfold leDueDate. lia.
Qed.

(** The first event after [now] of a list in due order is the earliest. *)
Lemma find_earliest now events :
  inDueOrder events →
  match List.find (λ event, now <? ev_dueDate event) events with
  | Some next =>
      next ∈ events ∧ now < ev_dueDate next
      ∧ ∀ event, event ∈ events → now < ev_dueDate event →
                 ev_dueDate next ≤ ev_dueDate event
  | None => ∀ event, event ∈ events → ev_dueDate event ≤ now
  end.
Proof.
  induction 1 as [|a l Hl IH Ha]; cbn [List.find].
  - intros event Hin. by apply elem_of_nil in Hin.
  - destruct (Z.ltb_spec now (ev_dueDate a)) as [Hlt|Hge].
    + split; [apply list_elem_of_here|]. split; [done|].
      intros event Hin _. apply elem_of_cons in Hin as [->|Hin]; [lia|].
      rewrite Forall_forall in Ha. by apply Ha.
    + destruct (List.find _ l) as [next|].
      * destruct IH as (Hin & Hlt & Hmin). split; [by apply list_elem_of_further|].
        split; [done|]. intros event Hev Hfut.
        apply elem_of_cons in Hev as [->|Hev]; [lia|]. by apply Hmin.
      * intros event Hev. apply elem_of_cons in Hev as [->|Hev]; [lia|]. by apply IH.
Qed.

(** X20: the events of a created calendar are in ascending order of due
    date, and its next due event is the earliest event due after the time
    of creation; there is none only when every event is due by then. *)
Theorem calendar_events_in_due_order now companyData stateRequirements s :
  complianceRequirements (cd_state companyData) = Some stateRequirements →
  calendars s !! calendarIdOf now companyData = None →
  ∃ calendar nextActions projection s',
    run (createComplianceCalendar now companyData) s
    = (Ret (CalendarCreated (calendarIdOf now companyData) calendar
              nextActions projection), s')
    ∧ inDueOrder (cal_events calendar)
    ∧ match cal_nextDueEvent calendar with
      | Some next =>
          next ∈ cal_events calendar ∧ now < ev_dueDate next
          ∧ ∀ event, event ∈ cal_events calendar → now < ev_dueDate event →
                     ev_dueDate next ≤ ev_dueDate event
      | None => ∀ event, event ∈ cal_events calendar → ev_dueDate event ≤ now
      end.
Proof.
  intros Hreq Hfresh.
  destruct (createComplianceCalendar_fields now companyData stateRequirements s
              Hreq Hfresh) as (calendar & s' & Hrun & Hev & Hnext & _).
  exists calendar, (getNextComplianceActions now calendar),
    (calculateRevenueProjection calendar), s'.
  split; [exact Hrun|].
  assert (inDueOrder (cal_events calendar)) as Hsorted.
  { rewrite Hev. apply generateEvents_inDueOrder. }
  split; [exact Hsorted|]. rewrite Hnext. by apply find_earliest.
Qed.

Lemma calendar_events_in_due_order_witness :
  ∃ calendar nextActions projection s',
    run (createComplianceCalendar sampleNow (sampleCompany "FL")) emptyStore
    = (Ret (CalendarCreated (calendarIdOf sampleNow (sampleCompany "FL")) calendar
              nextActions projection), s')
    ∧ inDueOrder (cal_events calendar)
    ∧ match cal_nextDueEvent calendar with
      | Some next =>
          next ∈ cal_events calendar ∧ sampleNow < ev_dueDate next
          ∧ ∀ event, event ∈ cal_events calendar → sampleNow < ev_dueDate event →
                     ev_dueDate next ≤ ev_dueDate event
      | None => ∀ event, event ∈ cal_events calendar → ev_dueDate event ≤ sampleNow
      end.
Proof.
  refine (calendar_events_in_due_order sampleNow (sampleCompany "FL") _ emptyStore _ _).
  - reflexivity.
  - reflexivity.
Defined.

(** *** The events of a calendar *)

Lemma elem_of_concat {A} (x : A) (ls : list (list A)) :
  x ∈ concat ls ↔ ∃ l, x ∈ l ∧ l ∈ ls.
Proof.
  rewrite list_elem_of_In, in_concat. split.
  - intros (l & Hl & Hx). exists l. by rewrite <- !list_elem_of_In in *.
  - intros (l & Hx & Hl). exists l. by rewrite <- !list_elem_of_In.
Qed.

Lemma elem_of_generateEvents stateRequirements state formationDate businessType year e :
  e ∈ generateEvents stateRequirements state formationDate businessType year
  ↔ ∃ Y, Y ∈ seqZ year 3
         ∧ e ∈ eventsOfYear stateRequirements state formationDate businessType Y.
Proof.
  unfold generateEvents. rewrite (sortBy_Permutation leDueDate).
  rewrite elem_of_concat. split.
  - intros (l & He & Hl). apply list_elem_of_fmap in Hl as (Y & -> & HY). eauto.
  - intros (Y & HY & He). eexists. split; [exact He|].
    apply list_elem_of_fmap. eauto.
Qed.

Lemma elem_of_createTaxEvents taxObligation year e :
  e ∈ createTaxEvents taxObligation year →
  ev_type e = tax_filing ∧ ev_automatable e = true ∧ is_Some (ev_details e)
  ∧ ev_cost e = 0%Q.
Proof.
  unfold createTaxEvents. repeat case_match; intros He.
  - apply list_elem_of_fmap in He as (m & -> & _). by cbn.
  - apply list_elem_of_fmap in He as (q & -> & _). by cbn.
  - apply list_elem_of_singleton in He as ->. by cbn.
  - by apply elem_of_nil in He.
Qed.

Lemma elem_of_createFederalTaxEvents year businessType e :
  e ∈ createFederalTaxEvents year businessType →
  ev_type e = tax_filing ∧ ev_automatable e = true ∧ is_Some (ev_details e)
  ∧ ev_cost e = 0%Q.
Proof.
  unfold createFederalTaxEvents. intros He.
  apply elem_of_cons in He as [->|He]; [by cbn|].
  apply list_elem_of_fmap in He as (q & -> & _). by cbn.
Qed.

(** The events one year contributes, by kind. *)
Lemma elem_of_eventsOfYear stateRequirements state formationDate businessType year e :
  e ∈ eventsOfYear stateRequirements state formationDate businessType year →
  (sr_annualReport_required stateRequirements = true
   ∧ e = createAnnualReportEvent stateRequirements state year formationDate)
  ∨ (∃ taxObligation, taxObligation ∈ sr_taxObligations stateRequirements
                      ∧ e ∈ createTaxEvents taxObligation year)
  ∨ (sr_businessLicense_required stateRequirements = true
     ∧ e = createBusinessLicenseEvent stateRequirements state year)
  ∨ e = createRegisteredAgentEvent stateRequirements state year formationDate
  ∨ e ∈ createFederalTaxEvents year businessType.
Proof.
  unfold eventsOfYear. rewrite !elem_of_app.
  intros [He|[He|[He|[He|He]]]].
  - left. destruct (sr_annualReport_required stateRequirements);
      [|by apply elem_of_nil in He].
    by apply list_elem_of_singleton in He.
  - right; left. apply elem_of_concat in He as (l & He & Hl).
    apply list_elem_of_fmap in Hl as (tax & -> & Htax). eauto.
  - right; right; left. destruct (sr_businessLicense_required stateRequirements);
      [|by apply elem_of_nil in He].
    by apply list_elem_of_singleton in He.
  - right; right; right; left. by apply list_elem_of_singleton in He.
  - do 4 right. exact He.
Qed.

(** What the executor does with an event of the generator. *)
Lemma generated_event_automates stateRequirements state formationDate businessType
    year event calendar :
  event ∈ generateEvents stateRequirements state formationDate businessType year →
  ev_automatable event = true
  ∧ ar_success (automationResultOf calendar event) = true
  ∧ ar_error (automationResultOf calendar event) = None
  ∧ (0 < ar_revenue (automationResultOf calendar event))%Q.
Proof.
  intros He. apply elem_of_generateEvents in He as (Y & _ & He).
  apply elem_of_eventsOfYear in He
    as [[_ ->]|[(tax & _ & He)|[[_ ->]|[->|He]]]]; try by cbn.
  - apply elem_of_createTaxEvents in He as (Hty & Hauto & [d Hd] & _).
    split; [done|]. unfold automationResultOf, executeAutomatedCompliance.
    unfold_M. cbn. unfold automateTaxFiling. by rewrite Hty, Hd.
  - apply elem_of_createFederalTaxEvents in He as (Hty & Hauto & [d Hd] & _).
    split; [done|]. unfold automationResultOf, executeAutomatedCompliance.
    unfold_M. cbn. unfold automateTaxFiling. by rewrite Hty, Hd.
Qed.

(** X21: the executor succeeds on every event the generator creates.
    Each event of a generated calendar is automatable, and
    [executeAutomatedCompliance] run on it, with any calendar and in any
    store, returns a result with [success], no error and a revenue above
    zero. *)
Theorem generated_events_automate stateRequirements state formationDate businessType
    year event calendar s :
  event ∈ generateEvents stateRequirements state formationDate businessType year →
  ∃ result effects,
    run (executeAutomatedCompliance event calendar) s = (Ret result, logged s effects)
    ∧ ev_automatable event = true
    ∧ ar_eventId result = ev_id event
    ∧ ar_success result = true
    ∧ ar_error result = None
    ∧ (0 < ar_revenue result)%Q.
Proof.
  intros He.
  destruct (generated_event_automates _ _ _ _ _ _ calendar He)
    as (Hauto & Hsucc & Herr & Hrev).
  exists (automationResultOf calendar event), (automationEffects calendar event).
  split; [apply executeAutomatedCompliance_run|]. by repeat split.
Qed.

Lemma generated_events_automate_witness :
  ∃ stateRequirements,
    complianceRequirements "WY" = Some stateRequirements
    ∧ ∃ result effects,
        run (executeAutomatedCompliance
               (createRegisteredAgentEvent stateRequirements "WY" 2024
                  (JSDate.mkDate 2024 2 10))
               (sampleCalendar [])) emptyStore
        = (Ret result, logged emptyStore effects)
        ∧ ev_automatable (createRegisteredAgentEvent stateRequirements "WY" 2024
                            (JSDate.mkDate 2024 2 10)) = true
        ∧ ar_eventId result
          = ev_id (createRegisteredAgentEvent stateRequirements "WY" 2024
                     (JSDate.mkDate 2024 2 10))
        ∧ ar_success result = true
        ∧ ar_error result = None
        ∧ (0 < ar_revenue result)%Q.
Proof.
  eexists. split; [reflexivity|].
  refine (generated_events_automate _ "WY" (JSDate.mkDate 2024 2 10) "General" 2024
            _ (sampleCalendar []) emptyStore _).
  apply elem_of_generateEvents. exists 2024. split; [apply list_elem_of_here|].
  unfold eventsOfYear. rewrite !elem_of_app. do 3 right. left.
  apply list_elem_of_here.
Defined.

(** X22: Wyoming's sales tax is never scheduled.  The requirements of
    Wyoming list a sales tax, but with a frequency for which
    [createTaxEvents] has no case, so that every tax filing of a calendar
    created for Wyoming is one of the federal filings. *)
Theorem wyoming_sales_tax_not_scheduled now companyData s :
  cd_state companyData = "WY" →
  calendars s !! calendarIdOf now companyData = None →
  ∃ stateRequirements calendar nextActions projection s',
    complianceRequirements (cd_state companyData) = Some stateRequirements
    ∧ tax_type <$> sr_taxObligations stateRequirements = ["Sales Tax"]
    ∧ run (createComplianceCalendar now companyData) s
      = (Ret (CalendarCreated (calendarIdOf now companyData) calendar
                nextActions projection), s')
    ∧ ∀ event, event ∈ cal_events calendar → ev_type event = tax_filing →
               ∃ year, event ∈ createFederalTaxEvents year (cd_businessType companyData).
Proof.
  intros Hst Hfresh.
  destruct (complianceRequirements (cd_state companyData)) as [reqs|] eqn:Hreq;
    [|by rewrite Hst in Hreq].
  destruct (createComplianceCalendar_fields now companyData reqs s Hreq Hfresh)
    as (calendar & s' & Hrun & Hev & _).
  rewrite Hst in Hreq. vm_compute in Hreq. injection Hreq as <-.
  eexists _, calendar, _, _, s'. split; [reflexivity|]. split; [reflexivity|].
  split; [exact Hrun|].
  intros event Hin Hty. rewrite Hev in Hin.
  apply elem_of_generateEvents in Hin as (Y & _ & Hin).
  apply elem_of_eventsOfYear in Hin
    as [[_ ->]|[(tax & Htax & He)|[[Hlic _]|[->|He]]]]; try done.
  - apply list_elem_of_singleton in Htax as ->. by apply elem_of_nil in He.
  - by exists Y.
Qed.

Lemma wyoming_sales_tax_not_scheduled_witness :
  ∃ stateRequirements calendar nextActions projection s',
    complianceRequirements "WY" = Some stateRequirements
    ∧ tax_type <$> sr_taxObligations stateRequirements = ["Sales Tax"]
    ∧ run (createComplianceCalendar sampleNow (sampleCompany "WY")) emptyStore
      = (Ret (CalendarCreated (calendarIdOf sampleNow (sampleCompany "WY")) calendar
                nextActions projection), s')
    ∧ ∀ event, event ∈ cal_events calendar → ev_type event = tax_filing →
               ∃ year, event ∈ createFederalTaxEvents year "General".
Proof.
  refine (wyoming_sales_tax_not_scheduled sampleNow (sampleCompany "WY") emptyStore _ _).
  - reflexivity.
  - reflexivity.
Defined.

(** *** Sums of money *)

Lemma foldl_Qplus_acc (a : Q) l : (foldl Qplus a l == a + Qsum l)%Q.
Proof.
  unfold Qsum. revert a. induction l as [|x l IH]; intros a; cbn [foldl].
  - ring.
  - rewrite (IH (a + x)%Q), (IH (0 + x)%Q). ring.
Qed.

Lemma Qsum_cons x l : (Qsum (x :: l) == x + Qsum l)%Q.
Proof. unfold Qsum at 1. cbn [foldl]. rewrite foldl_Qplus_acc. ring. Qed.

Lemma Qsum_Permutation l l' : Permutation l l' → (Qsum l == Qsum l')%Q.
Proof.
  induction 1 as [|x l l' _ IH|x y l|l l' l'' _ IH1 _ IH2].
  - reflexivity.
  - by rewrite !Qsum_cons, IH.
  - rewrite !Qsum_cons. ring.
  - by rewrite IH1.
Qed.

Lemma calculateAnnualComplianceCost_generated stateRequirements state formationDate
    businessType year :
  (calculateAnnualComplianceCost state
     (generateEvents stateRequirements state formationDate businessType year)
   == Qsum (ev_cost
              <$> List.filter (λ event, Qpositive (ev_cost event))
                    (concat (eventsOfYear stateRequirements state formationDate
                               businessType <$> seqZ year 3))))%Q.
Proof.
  unfold calculateAnnualComplianceCost, generateEvents.
  apply Qsum_Permutation, fmap_Permutation, filter_Permutation_bool,
    sortBy_Permutation.
Qed.

(** X23: the annual compliance cost of a calendar is the cost of three
    years.  The field [annualComplianceCost] of a created calendar sums
    the cost of every event of the calendar, which spans three years: it
    is three times the yearly fees for the annual report, the business
    license where the state requires one, and the registered agent. *)
Theorem annual_cost_covers_three_years now companyData stateRequirements s :
  complianceRequirements (cd_state companyData) = Some stateRequirements →
  calendars s !! calendarIdOf now companyData = None →
  ∃ calendar nextActions projection s',
    run (createComplianceCalendar now companyData) s
    = (Ret (CalendarCreated (calendarIdOf now companyData) calendar
              nextActions projection), s')
    ∧ (cal_annualComplianceCost calendar
       == 3 * (sr_annualReport_fee stateRequirements
               + (if sr_businessLicense_required stateRequirements
                  then sr_businessLicense_averageFee stateRequirements else 0)
               + sr_registeredAgent_annualCost stateRequirements))%Q.
Proof.
  intros Hreq Hfresh.
  destruct (createComplianceCalendar_fields now companyData stateRequirements s
              Hreq Hfresh) as (calendar & s' & Hrun & Hev & _ & Hcost & _).
  eexists calendar, _, _, s'. split; [exact Hrun|].
  rewrite Hcost, Hev, calculateAnnualComplianceCost_generated.
  revert Hreq. generalize (cd_state companyData). intros state.
  unfold complianceRequirements.
  destruct (String.eqb_spec state "FL") as [->|_];
    [intros [= <-]; vm_compute; reflexivity|].
  destruct (String.eqb_spec state "WY") as [->|_];
    [intros [= <-]; vm_compute; reflexivity|].
  destruct (String.eqb_spec state "IL") as [->|_];
    [intros [= <-]; vm_compute; reflexivity|done].
Qed.

Lemma annual_cost_covers_three_years_witness :
  ∃ stateRequirements,
    complianceRequirements "FL" = Some stateRequirements
    ∧ ∃ calendar nextActions projection s',
        run (createComplianceCalendar sampleNow (sampleCompany "FL")) emptyStore
        = (Ret (CalendarCreated (calendarIdOf sampleNow (sampleCompany "FL")) calendar
                  nextActions projection), s')
        ∧ (cal_annualComplianceCost calendar
           == 3 * (sr_annualReport_fee stateRequirements
                   + (if sr_businessLicense_required stateRequirements
                      then sr_businessLicense_averageFee stateRequirements else 0)
                   + sr_registeredAgent_annualCost stateRequirements))%Q.
Proof.
  eexists. split; [reflexivity|].
  refine (annual_cost_covers_three_years sampleNow (sampleCompany "FL") _ emptyStore
            _ _).
  - reflexivity.
  - reflexivity.
Defined.

(** *** Revenue opportunities and next actions *)

Lemma Qle_bool_minus (a b : Q) : Qle_bool (b - a) 0 = true ↔ (b <= a)%Q.
Proof.
  rewrite Qle_bool_iff. split; intros H.
  - apply Qle_minus_iff in H. apply Qle_minus_iff.
    eapply Qle_trans; [exact H|]. apply Qle_lteq. right. ring.
  - apply Qle_minus_iff. apply Qle_minus_iff in H.
    eapply Qle_trans; [exact H|]. apply Qle_lteq. right. ring.
Qed.

Lemma Qpositive_lt (q : Q) : Qpositive q = true ↔ (0 < q)%Q.
Proof.
  unfold Qpositive. rewrite negb_true_iff. split.
  - intros H. apply Qnot_le_lt. intros Hle. apply Qle_bool_iff in Hle. congruence.
  - intros H. destruct (Qle_bool q 0) eqn:Hle; [|done].
    apply Qle_bool_iff in Hle. by apply Qlt_not_le in H.
Qed.

(** X24: the revenue opportunities of a calendar are exactly its events
    of a revenue above zero, ranked from the highest revenue to the
    lowest. *)
Theorem revenue_opportunities_ranked events :
  StronglySorted (λ a b, (ro_revenueOpportunity b <= ro_revenueOpportunity a)%Q)
    (identifyRevenueOpportunities events)
  ∧ Forall (λ opportunity, (0 < ro_revenueOpportunity opportunity)%Q)
      (identifyRevenueOpportunities events)
  ∧ Permutation (ro_eventId <$> identifyRevenueOpportunities events)
      (ev_id <$> List.filter (λ event, Qpositive (ev_revenueOpportunity event)) events).
Proof.
  unfold identifyRevenueOpportunities. split; [|split].
  - eapply StronglySorted_impl; [|apply sortBy_StronglySorted].
    + intros a b Hab. by apply Qle_bool_minus.
    + intros a b Hab. apply Qle_bool_minus.
      destruct (Qlt_le_dec (ro_revenueOpportunity a) (ro_revenueOpportunity b))
        as [Hlt|Hle]; [by apply Qlt_le_weak|].
      apply Qle_bool_minus in Hle. congruence.
    + intros a b c Hab Hbc. apply Qle_bool_minus.
      apply Qle_bool_minus in Hab, Hbc. by eapply Qle_trans.
  - rewrite (sortBy_Permutation _ _). rewrite Forall_fmap. apply Forall_forall.
    intros event Hin. apply elem_of_filter_bool in Hin as [_ Hpos].
    by apply Qpositive_lt.
  - rewrite (sortBy_Permutation _ _), <- list_fmap_compose. reflexivity.
Qed.

Lemma elem_of_take_list {A} (x : A) n l : x ∈ take n l → x ∈ l.
Proof.
  intros H. rewrite <- (take_drop n l). apply elem_of_app. by left.
Qed.

(** X25: the next compliance actions are at most five, each one an event
    of the calendar due strictly after today and, the number of days being
    rounded up, due in one day at the least. *)
Theorem next_actions_lie_ahead today calendar :
  (length (getNextComplianceActions today calendar) ≤ 5)%nat
  ∧ ∀ action, action ∈ getNextComplianceActions today calendar →
      today < nca_dueDate action
      ∧ 1 ≤ nca_daysUntilDue action
      ∧ ∃ event, event ∈ cal_events calendar
                 ∧ nca_eventId action = ev_id event
                 ∧ nca_dueDate action = ev_dueDate event.
Proof.
  unfold getNextComplianceActions. split.
  - rewrite length_fmap, length_take. lia.
  - intros action Hin. apply list_elem_of_fmap in Hin as (event & -> & Hin).
    apply elem_of_take_list, elem_of_filter_bool in Hin as [Hin Hfut].
    apply Z.ltb_lt in Hfut. cbn. split; [done|]. split; [|by exists event].
    unfold daysUntilDue.
    pose proof (ceilDiv_spec (ev_dueDate event - today) JSDate.msPerDay) as Hc.
    unfold JSDate.msPerDay in *. lia.
Qed.

(** ** Monitoring a calendar *)

(** The report of a stored calendar. *)
Lemma monitorCompliance_report ext now calendarId row s :
  calendars s !! calendarId = Some row →
  ∃ report,
    run (monitorCompliance ext now calendarId) s
    = (Ret (Monitored report
              (automationResultOf (crow_calendar_data row)
                 <$> List.filter (isActionable now)
                       (cal_events (crow_calendar_data row)))
              (calculateGeneratedRevenue
                 (automationResultOf (crow_calendar_data row)
                    <$> List.filter (isActionable now)
                          (cal_events (crow_calendar_data row))))),
       logged s (MemoryStored "compliance_monitoring" calendarId
                 :: concat (automationEffects (crow_calendar_data row)
                              <$> List.filter (isActionable now)
                                    (cal_events (crow_calendar_data row)))))
    ∧ rpt_overdue report
      = reportOverdue now <$> List.filter (isOverdue now)
                                (cal_events (crow_calendar_data row))
    ∧ rpt_upcoming report
      = reportUpcoming now <$> List.filter (isUpcoming now)
                                 (cal_events (crow_calendar_data row))
    ∧ rpt_actionable report
      = List.filter (isActionable now) (cal_events (crow_calendar_data row))
    ∧ rpt_status report
      = (if (0 <? length (rpt_overdue report))%nat then "NON_COMPLIANT"
         else if (0 <? length (rpt_upcoming report))%nat then "ACTION_REQUIRED"
         else "COMPLIANT")
    ∧ rpt_revenueOpportunities report
      = identifyImmediateRevenueOpportunities (rpt_upcoming report) (rpt_overdue report)
    ∧ rpt_calendarId report = calendarId
    ∧ rpt_businessName report = cal_businessName (crow_calendar_data row)
    ∧ rpt_state report = cal_state (crow_calendar_data row).
Proof.
  intros Hrow.
  destruct (classifyEvents_filter now (cal_events (crow_calendar_data row)))
    as (Ho & Hu & Ha).
  eexists. split.
  - unfold monitorCompliance, selectCalendar.
    unfold run, try_catch, mbind, M_bind, getStore, mret, M_ret at 1.
    rewrite Hrow.
    unfold storeMemory, emit.
    pose proof (forEach_executeAutomatedCompliance_run (crow_calendar_data row)
                  (actionableEvents
                     (classifyEvents now (cal_events (crow_calendar_data row))))
                  (logged s [MemoryStored "compliance_monitoring" calendarId])) as Hf.
    unfold run in Hf. rewrite Hf. unfold mret, M_ret.
    rewrite logged_logged, Ha. reflexivity.
  - cbn. by rewrite Ho, Hu.
Qed.

Lemma daysUntilDue_negative today e :
  daysUntilDue today e < 0 ↔ ev_dueDate e + JSDate.msPerDay ≤ today.
Proof.
  unfold daysUntilDue.
  pose proof (ceilDiv_spec (ev_dueDate e - today) JSDate.msPerDay) as Hc.
  unfold JSDate.msPerDay in *. lia.
Qed.

Lemma daysUntilDue_le today e n :
  daysUntilDue today e ≤ n ↔ ev_dueDate e ≤ today + n * JSDate.msPerDay.
Proof.
  unfold daysUntilDue.
  pose proof (ceilDiv_spec (ev_dueDate e - today) JSDate.msPerDay) as Hc.
  unfold JSDate.msPerDay in *. lia.
Qed.

Lemma filter_nil_iff {A} (f : A → bool) l :
  List.filter f l = [] ↔ ∀ x, x ∈ l → f x = false.
Proof.
  induction l as [|a l IH]; cbn [List.filter].
  - split; [|done]. intros _ x Hx. by apply elem_of_nil in Hx.
  - destruct (f a) eqn:Hfa; split.
    + done.
    + intros H. specialize (H a (list_elem_of_here _ _)). congruence.
    + intros H x Hx. apply elem_of_cons in Hx as [->|Hx]; [done|]. by apply IH.
    + intros H. apply IH. intros x Hx. apply H. by apply list_elem_of_further.
Qed.

(** X26: the status of a compliance report, in terms of due dates.  For a
    stored calendar the report reads NON_COMPLIANT exactly when some event
    was due a full day or more before the time of the report, COMPLIANT
    exactly when every event is due more than thirty days after it, and
    ACTION_REQUIRED otherwise: an event that passed its due date less than
    a day ago does not make the report NON_COMPLIANT. *)
Theorem report_status_by_due_dates ext now calendarId row s :
  calendars s !! calendarId = Some row →
  ∃ report results revenue,
    (run (monitorCompliance ext now calendarId) s).1
    = Ret (Monitored report results revenue)
    ∧ (rpt_status report = "NON_COMPLIANT"
       ↔ ∃ event, event ∈ storedEvents s calendarId
                  ∧ ev_dueDate event + JSDate.msPerDay ≤ now)
    ∧ (rpt_status report = "COMPLIANT"
       ↔ ∀ event, event ∈ storedEvents s calendarId →
                  now + 30 * JSDate.msPerDay < ev_dueDate event)
    ∧ (rpt_status report = "ACTION_REQUIRED"
       ↔ (∀ event, event ∈ storedEvents s calendarId →
                   now < ev_dueDate event + JSDate.msPerDay)
         ∧ ∃ event, event ∈ storedEvents s calendarId
                    ∧ ev_dueDate event ≤ now + 30 * JSDate.msPerDay).
Proof.
  intros Hrow.
  destruct (monitorCompliance_report ext now calendarId row s Hrow)
    as (report & Hrun & Ho & Hu & _ & Hst & _).
  exists report. do 2 eexists. rewrite Hrun. split; [reflexivity|].
  rewrite Hst, Ho, Hu, !length_fmap. unfold storedEvents. rewrite Hrow.
  set (events := cal_events (crow_calendar_data row)).
  assert (List.filter (isOverdue now) events = []
          ↔ ∀ event, event ∈ events → now < ev_dueDate event + JSDate.msPerDay)
    as Hnone.
  { rewrite filter_nil_iff. apply forall_proper. intros event.
    unfold isOverdue. rewrite Z.ltb_ge.
    pose proof (daysUntilDue_negative now event). split; intros H' Hin;
      specialize (H' Hin); lia. }
  assert (List.filter (isUpcoming now) events = []
          → List.filter (isOverdue now) events = []
          → ∀ event, event ∈ events → now + 30 * JSDate.msPerDay < ev_dueDate event)
    as Hall.
  { rewrite !filter_nil_iff. intros Hup Hov event Hin.
    specialize (Hup event Hin). specialize (Hov event Hin).
    unfold isUpcoming, isOverdue in *.
    pose proof (daysUntilDue_le now event 30). lia. }
  destruct (List.filter (isOverdue now) events) as [|o overdue] eqn:Hov.
  - assert (∀ event, event ∈ events → now < ev_dueDate event + JSDate.msPerDay)
      as Hfresh by (by apply Hnone).
    destruct (List.filter (isUpcoming now) events) as [|u upcoming] eqn:Hup; cbn.
    + specialize (Hall eq_refl eq_refl). split; [|split].
      * split; [done|]. intros (event & Hin & Hlate).
        specialize (Hfresh event Hin). lia.
      * done.
      * split; [done|]. intros (_ & event & Hin & Hsoon).
        specialize (Hall event Hin). lia.
    + assert (u ∈ events ∧ isUpcoming now u = true) as [Hin Hu'].
      { apply elem_of_filter_bool. rewrite Hup. apply list_elem_of_here. }
      unfold isUpcoming in Hu'. pose proof (daysUntilDue_le now u 30).
      split; [|split].
      * split; [done|]. intros (event & Hin' & Hlate).
        specialize (Hfresh event Hin'). lia.
      * split; [done|]. intros Hfar. specialize (Hfar u Hin). lia.
      * split; [|done]. intros _. split; [done|]. exists u. split; [done|]. lia.
  - assert (o ∈ events ∧ isOverdue now o = true) as [Hin Ho'].
    { apply elem_of_filter_bool. rewrite Hov. apply list_elem_of_here. }
    unfold isOverdue in Ho'. pose proof (daysUntilDue_negative now o). cbn.
    split; [|split].
    + split; [|done]. intros _. exists o. split; [done|]. lia.
    + split; [done|]. intros Hfar. specialize (Hfar o Hin).
      unfold JSDate.msPerDay in *. lia.
    + split; [done|]. intros [Hfresh _]. specialize (Hfresh o Hin). lia.
Qed.

Lemma report_status_by_due_dates_witness :
  ∃ report results revenue,
    (run (monitorCompliance sampleCollaborators sampleNow "COMP-WY-1")
       (sampleStore [eventDueHalfDayAgo])).1
    = Ret (Monitored report results revenue)
    ∧ (rpt_status report = "NON_COMPLIANT"
       ↔ ∃ event, event ∈ storedEvents (sampleStore [eventDueHalfDayAgo]) "COMP-WY-1"
                  ∧ ev_dueDate event + JSDate.msPerDay ≤ sampleNow)
    ∧ (rpt_status report = "COMPLIANT"
       ↔ ∀ event, event ∈ storedEvents (sampleStore [eventDueHalfDayAgo]) "COMP-WY-1" →
                  sampleNow + 30 * JSDate.msPerDay < ev_dueDate event)
    ∧ (rpt_status report = "ACTION_REQUIRED"
       ↔ (∀ event, event ∈ storedEvents (sampleStore [eventDueHalfDayAgo]) "COMP-WY-1" →
                   sampleNow < ev_dueDate event + JSDate.msPerDay)
         ∧ ∃ event, event ∈ storedEvents (sampleStore [eventDueHalfDayAgo]) "COMP-WY-1"
                    ∧ ev_dueDate event ≤ sampleNow + 30 * JSDate.msPerDay).
Proof.
  refine (report_status_by_due_dates sampleCollaborators sampleNow "COMP-WY-1" _
            (sampleStore [eventDueHalfDayAgo]) _).
  reflexivity.
Defined.

(** X27: automation runs ahead of the report.  An automatable event of a
    stored calendar that is due in more than thirty days, but within its
    automation trigger, is handed to the executor although the report
    lists it neither as upcoming nor as overdue; when every event is still
    more than thirty days away, the report reads COMPLIANT while the
    automation has run. *)
Theorem automation_runs_ahead_of_report ext now calendarId row s event :
  calendars s !! calendarId = Some row →
  event ∈ cal_events (crow_calendar_data row) →
  ev_automatable event = true →
  30 < daysUntilDue now event ≤ ev_automationTrigger event →
  ∃ report results revenue s',
    run (monitorCompliance ext now calendarId) s
    = (Ret (Monitored report results revenue), s')
    ∧ event ∈ rpt_actionable report
    ∧ (event ∉ rep_event <$> rpt_upcoming report)
    ∧ (event ∉ rep_event <$> rpt_overdue report)
    ∧ ev_id event ∈ (ar_eventId <$> results)
    ∧ (invocations (ev_id event) s < invocations (ev_id event) s')%nat
    ∧ ((∀ other, other ∈ storedEvents s calendarId → 30 < daysUntilDue now other) →
       rpt_status report = "COMPLIANT").
Proof.
  intros Hrow Hin Hauto [Hfar Htrigger].
  assert (isActionable now event = true) as Hact.
  { unfold isActionable. rewrite Hauto. cbn. lia. }
  destruct (monitorCompliance_report ext now calendarId row s Hrow)
    as (report & Hrun & Ho & Hu & Ha & Hst & _).
  destruct (monitorCompliance_invokes ext now calendarId row s event Hrow Hin Hact)
    as [_ Hinv].
  rewrite Hrun in Hinv. do 4 eexists. split; [exact Hrun|].
  assert (event ∈ rpt_actionable report) as Hlisted.
  { rewrite Ha. by apply elem_of_filter_bool. }
  split; [exact Hlisted|]. split; [|split; [|split; [|split]]].
  - rewrite Hu, <- list_fmap_compose. intros Hup.
    apply list_elem_of_fmap in Hup as (e & He & Hup). cbn in He. subst e.
    apply elem_of_filter_bool in Hup as [_ Hup]. unfold isUpcoming in Hup. lia.
  - rewrite Ho, <- list_fmap_compose. intros Hov.
    apply list_elem_of_fmap in Hov as (e & He & Hov). cbn in He. subst e.
    apply elem_of_filter_bool in Hov as [_ Hov]. unfold isOverdue in Hov. lia.
  - rewrite <- Ha, <- list_fmap_compose. apply list_elem_of_fmap.
    exists event. split; [|exact Hlisted].
    unfold automationResultOf, executeAutomatedCompliance. unfold_M. reflexivity.
  - exact Hinv.
  - unfold storedEvents. rewrite Hrow. intros Hall.
    rewrite Hst, Ho, Hu, !length_fmap.
    assert (List.filter (isOverdue now) (cal_events (crow_calendar_data row)) = [])
      as ->.
    { apply filter_nil_iff. intros e He. specialize (Hall e He).
      unfold isOverdue. lia. }
    assert (List.filter (isUpcoming now) (cal_events (crow_calendar_data row)) = [])
      as ->.
    { apply filter_nil_iff. intros e He. specialize (Hall e He).
      unfold isUpcoming. lia. }
    reflexivity.
Qed.

Lemma automation_runs_ahead_of_report_witness :
  ∃ report results revenue s',
    run (monitorCompliance sampleCollaborators sampleNow "COMP-WY-1")
      (sampleStore [eventDueInForty])
    = (Ret (Monitored report results revenue), s')
    ∧ eventDueInForty ∈ rpt_actionable report
    ∧ (eventDueInForty ∉ rep_event <$> rpt_upcoming report)
    ∧ (eventDueInForty ∉ rep_event <$> rpt_overdue report)
    ∧ ev_id eventDueInForty ∈ (ar_eventId <$> results)
    ∧ (invocations (ev_id eventDueInForty) (sampleStore [eventDueInForty])
       < invocations (ev_id eventDueInForty) s')%nat
    ∧ ((∀ other, other ∈ storedEvents (sampleStore [eventDueInForty]) "COMP-WY-1" →
                 30 < daysUntilDue sampleNow other) →
       rpt_status report = "COMPLIANT").
Proof.
  refine (automation_runs_ahead_of_report sampleCollaborators sampleNow "COMP-WY-1" _
            (sampleStore [eventDueInForty]) eventDueInForty _ _ _ _).
  - reflexivity.
  - apply list_elem_of_here.
  - reflexivity.
  - vm_compute. split; [reflexivity | discriminate].
Defined.

(** *** The ranking of the immediate opportunities *)

Lemma rankBefore_total a b : rankBefore a b = false → rankBefore b a = true.
Proof.
  unfold rankBefore.
  destruct (String.eqb (rk_urgency a) "critical"),
    (String.eqb (rk_urgency b) "critical"); cbn; try done.
  - intros H.
    destruct (Qlt_le_dec
                (ev_revenueOpportunity (rep_event (rk_event a)))
                (ev_revenueOpportunity (rep_event (rk_event b)))) as [Hlt|Hle].
    + apply Qle_bool_minus. by apply Qlt_le_weak.
    + apply Qle_bool_minus in Hle. congruence.
  - intros H.
    destruct (Qlt_le_dec
                (ev_revenueOpportunity (rep_event (rk_event a)))
                (ev_revenueOpportunity (rep_event (rk_event b)))) as [Hlt|Hle].
    + apply Qle_bool_minus. by apply Qlt_le_weak.
    + apply Qle_bool_minus in Hle. congruence.
Qed.

Lemma rankBefore_trans a b c :
  rankBefore a b = true → rankBefore b c = true → rankBefore a c = true.
Proof.
  unfold rankBefore.
  destruct (String.eqb (rk_urgency a) "critical"),
    (String.eqb (rk_urgency b) "critical"),
    (String.eqb (rk_urgency c) "critical"); cbn; try done.
  - intros Hab Hbc. apply Qle_bool_minus. apply Qle_bool_minus in Hab, Hbc.
    by eapply Qle_trans.
  - intros Hab Hbc. apply Qle_bool_minus. apply Qle_bool_minus in Hab, Hbc.
    by eapply Qle_trans.
Qed.

Lemma StronglySorted_impl_Forall {A} (P : A → Prop) (R R' : A → A → Prop) l :
  Forall P l →
  (∀ a b, P a → P b → R a b → R' a b) →
  StronglySorted R l → StronglySorted R' l.
Proof.
  intros HP HR. induction 1 as [|x l Hl IH Hx]; [constructor|].
  apply Forall_cons in HP as [Px HP]. constructor; [by apply IH|].
  rewrite Forall_forall in *. intros y Hy. apply HR; auto.
Qed.

(** X28: overdue opportunities come first.  In the revenue opportunities
    of a compliance report every overdue event is marked critical and no
    other is; no critical opportunity comes after one that is not; and
    among the critical ones, as among the others, the revenue never
    increases down the list. *)
Theorem overdue_opportunities_come_first ext now calendarId row s :
  calendars s !! calendarId = Some row →
  ∃ report results revenue,
    (run (monitorCompliance ext now calendarId) s).1
    = Ret (Monitored report results revenue)
    ∧ Forall (λ o, rk_urgency o = "critical"
                   ↔ isOverdue now (rep_event (rk_event o)) = true)
        (rpt_revenueOpportunities report)
    ∧ StronglySorted
        (λ a b,
           (rk_urgency b = "critical" → rk_urgency a = "critical")
           ∧ ((rk_urgency a = "critical" ↔ rk_urgency b = "critical") →
              (ev_revenueOpportunity (rep_event (rk_event b))
               <= ev_revenueOpportunity (rep_event (rk_event a)))%Q))
        (rpt_revenueOpportunities report).
Proof.
  intros Hrow.
  destruct (monitorCompliance_report ext now calendarId row s Hrow)
    as (report & Hrun & Ho & Hu & _ & _ & Hrev & _).
  exists report. do 2 eexists. rewrite Hrun. split; [reflexivity|].
  rewrite Hrev, Ho, Hu. unfold identifyImmediateRevenueOpportunities. split.
  - rewrite (sortBy_Permutation _ _), Forall_fmap. apply Forall_forall.
    intros rep Hin. apply elem_of_filter_bool in Hin as [Hin _].
    apply elem_of_app in Hin as [Hin|Hin];
      apply list_elem_of_fmap in Hin as (e & -> & Hin);
      apply elem_of_filter_bool in Hin as [_ Hin]; cbn.
    + unfold isUpcoming in Hin. unfold urgencyOf, isOverdue. cbn.
      assert ((daysUntilDue now e <? 0) = false) as -> by lia.
      by destruct (daysUntilDue now e <=? 7).
    + unfold isOverdue in *. unfold urgencyOf. cbn. rewrite Hin.
      assert ((Z.abs (daysUntilDue now e) =? 0) = false) as -> by lia. done.
  - eapply (StronglySorted_impl_Forall (λ _, True) (λ a b, rankBefore a b = true)).
    + apply Forall_forall. done.
    + intros a b _ _ Hab. split.
      * intros Hb. unfold rankBefore in Hab. rewrite Hb in Hab. cbn in Hab.
        destruct (String.eqb_spec (rk_urgency a) "critical"); [done|].
        by cbn in Hab.
      * intros Hsame. unfold rankBefore in Hab.
        destruct (String.eqb_spec (rk_urgency a) "critical") as [Ha|Ha],
          (String.eqb_spec (rk_urgency b) "critical") as [Hb|Hb]; cbn in Hab.
        -- by apply Qle_bool_minus.
        -- by destruct Hb; apply Hsame.
        -- done.
        -- by apply Qle_bool_minus.
    + apply sortBy_StronglySorted; [apply rankBefore_total|apply rankBefore_trans].
Qed.

Lemma overdue_opportunities_come_first_witness :
  ∃ report results revenue,
    (run (monitorCompliance sampleCollaborators sampleNow "COMP-WY-1")
       (sampleStore [eventDueInTen; eventDueFiveDaysAgo])).1
    = Ret (Monitored report results revenue)
    ∧ Forall (λ o, rk_urgency o = "critical"
                   ↔ isOverdue sampleNow (rep_event (rk_event o)) = true)
        (rpt_revenueOpportunities report)
    ∧ StronglySorted
        (λ a b,
           (rk_urgency b = "critical" → rk_urgency a = "critical")
           ∧ ((rk_urgency a = "critical" ↔ rk_urgency b = "critical") →
              (ev_revenueOpportunity (rep_event (rk_event b))
               <= ev_revenueOpportunity (rep_event (rk_event a)))%Q))
        (rpt_revenueOpportunities report).
Proof.
  refine (overdue_opportunities_come_first sampleCollaborators sampleNow "COMP-WY-1" _
            (sampleStore [eventDueInTen; eventDueFiveDaysAgo]) _).
  reflexivity.
Defined.

(** *** Failing automations *)

Lemma automationResultOf_id calendar event :
  ar_eventId (automationResultOf calendar event) = ev_id event.
Proof. unfold automationResultOf, executeAutomatedCompliance. unfold_M. reflexivity. Qed.

Lemma automationResultOf_failure calendar event :
  ar_success (automationResultOf calendar event) = false →
  ar_revenue (automationResultOf calendar event) = 0%Q.
Proof.
  unfold automationResultOf, executeAutomatedCompliance. unfold_M. cbn.
  unfold automateTaxFiling, automateLicenseRenewal, automateRegisteredAgentRenewal.
  by destruct (ev_type event), (ev_details event).
Qed.

Lemma automationResultOf_no_details calendar event :
  ev_details event = None → ev_type event ≠ annual_report →
  ar_success (automationResultOf calendar event) = false.
Proof.
  intros Hd Hty.
  unfold automationResultOf, executeAutomatedCompliance. unfold_M. cbn.
  unfold automateTaxFiling, automateLicenseRenewal, automateRegisteredAgentRenewal.
  rewrite Hd. by destruct (ev_type event).
Qed.

Lemma calculateGeneratedRevenue_successes results :
  Forall (λ result, ar_success result = false → ar_revenue result = 0%Q) results →
  (calculateGeneratedRevenue results
   == Qsum (ar_revenue <$> List.filter ar_success results))%Q.
Proof.
  unfold calculateGeneratedRevenue.
  assert (∀ a, (foldl (λ total result, total + ar_revenue result) a results
                == a + Qsum (ar_revenue <$> results))%Q) as Hfold.
  { induction results as [|r results IH]; intros a; cbn [foldl fmap list_fmap].
    - unfold Qsum. cbn. ring.
    - rewrite IH, Qsum_cons. ring. }
  intros Hzero. rewrite Hfold. clear Hfold.
  induction Hzero as [|r results Hr _ IH]; [reflexivity|].
  cbn [fmap list_fmap List.filter]. rewrite Qsum_cons.
  destruct (ar_success r); cbn [fmap list_fmap].
  - rewrite Qsum_cons. rewrite <- IH. ring.
  - rewrite Hr by done. rewrite <- IH. ring.
Qed.

(** X29: a failing automation does not fail the monitoring.  For a stored
    calendar [monitorCompliance] answers with a report and one automation
    result for each actionable event, in order; an event other than an
    annual report that has lost its [details] yields a result without
    [success]; every such result carries revenue zero, so that the revenue
    generated is the sum over the successful results. *)
Theorem failed_automation_is_reported ext now calendarId row s :
  calendars s !! calendarId = Some row →
  ∃ report results revenue s',
    run (monitorCompliance ext now calendarId) s
    = (Ret (Monitored report results revenue), s')
    ∧ ar_eventId <$> results = ev_id <$> rpt_actionable report
    ∧ (∀ event, event ∈ rpt_actionable report →
                ev_details event = None → ev_type event ≠ annual_report →
                ∃ result, result ∈ results ∧ ar_eventId result = ev_id event
                          ∧ ar_success result = false)
    ∧ Forall (λ result, ar_success result = false → ar_revenue result = 0%Q) results
    ∧ (revenue == Qsum (ar_revenue <$> List.filter ar_success results))%Q.
Proof.
  intros Hrow.
  destruct (monitorCompliance_report ext now calendarId row s Hrow)
    as (report & Hrun & _ & _ & Ha & _).
  do 4 eexists. split; [exact Hrun|]. rewrite <- Ha.
  assert (Forall (λ result, ar_success result = false → ar_revenue result = 0%Q)
            (automationResultOf (crow_calendar_data row) <$> rpt_actionable report))
    as Hzero.
  { rewrite Forall_fmap. apply Forall_forall. intros event _.
    exact (automationResultOf_failure _ event). }
  split; [|split; [|split]].
  - rewrite <- list_fmap_compose. apply list_fmap_ext.
    intros i event _. apply automationResultOf_id.
  - intros event Hin Hd Hty. exists (automationResultOf (crow_calendar_data row) event).
    split; [apply list_elem_of_fmap; eauto|].
    split; [apply automationResultOf_id|by apply automationResultOf_no_details].
  - exact Hzero.
  - by apply calculateGeneratedRevenue_successes.
Qed.

Lemma failed_automation_is_reported_witness :
  ∃ report results revenue s',
    run (monitorCompliance sampleCollaborators sampleNow "COMP-WY-1")
      (sampleStore [eventWithoutDetails])
    = (Ret (Monitored report results revenue), s')
    ∧ ar_eventId <$> results = ev_id <$> rpt_actionable report
    ∧ (∀ event, event ∈ rpt_actionable report →
                ev_details event = None → ev_type event ≠ annual_report →
                ∃ result, result ∈ results ∧ ar_eventId result = ev_id event
                          ∧ ar_success result = false)
    ∧ Forall (λ result, ar_success result = false → ar_revenue result = 0%Q) results
    ∧ (revenue == Qsum (ar_revenue <$> List.filter ar_success results))%Q.
Proof.
  refine (failed_automation_is_reported sampleCollaborators sampleNow "COMP-WY-1" _
            (sampleStore [eventWithoutDetails]) _).
  reflexivity.
Defined.

(** ** Creating and then monitoring a calendar *)

(** X30: a created calendar can be monitored.  After a successful
    [createComplianceCalendar], [monitorCompliance] called at any time
    with the returned id finds the calendar: its report carries the
    business name and the state of the company, its actionable events are
    those of the created calendar, and every automation it runs
    succeeds. *)
Theorem created_calendar_is_monitored ext now now' companyData stateRequirements s :
  complianceRequirements (cd_state companyData) = Some stateRequirements →
  calendars s !! calendarIdOf now companyData = None →
  ∃ calendar nextActions projection s' report results revenue,
    run (createComplianceCalendar now companyData) s
    = (Ret (CalendarCreated (calendarIdOf now companyData) calendar
              nextActions projection), s')
    ∧ (run (monitorCompliance ext now' (calendarIdOf now companyData)) s').1
      = Ret (Monitored report results revenue)
    ∧ rpt_businessName report = cd_businessName companyData
    ∧ rpt_state report = cd_state companyData
    ∧ rpt_actionable report = List.filter (isActionable now') (cal_events calendar)
    ∧ ar_eventId <$> results = ev_id <$> rpt_actionable report
    ∧ Forall (λ result, ar_success result = true) results.
Proof.
  intros Hreq Hfresh.
  destruct (createComplianceCalendar_fields now companyData stateRequirements s
              Hreq Hfresh)
    as (calendar & s' & Hrun & Hev & _ & _ & _ & _ & Hname & Hstate & Hcal & _).
  assert (calendars s' !! calendarIdOf now companyData
          = Some {| crow_business_name := cd_businessName companyData;
                    crow_state := cd_state companyData;
                    crow_ein := cd_ein companyData;
                    crow_calendar_data := calendar;
                    crow_created_at := now |}) as Hrow.
  { rewrite Hcal. apply lookup_insert_eq. }
  destruct (monitorCompliance_report ext now' _ _ s' Hrow)
    as (report & Hmon & _ & _ & Ha & _ & _ & _ & Hrn & Hrs).
  cbn [crow_calendar_data] in *.
  exists calendar. do 3 eexists. exists report. do 2 eexists.
  split; [exact Hrun|]. rewrite Hmon. split; [reflexivity|].
  split; [by rewrite Hrn|]. split; [by rewrite Hrs|]. split; [exact Ha|].
  rewrite <- Ha. split.
  - rewrite <- list_fmap_compose. apply list_fmap_ext.
    intros i event _. apply automationResultOf_id.
  - rewrite Forall_fmap. apply Forall_forall. intros event Hin.
    rewrite Ha in Hin. apply elem_of_filter_bool in Hin as [Hin _].
    rewrite Hev in Hin. by eapply generated_event_automates.
Qed.

Lemma created_calendar_is_monitored_witness :
  ∃ calendar nextActions projection s' report results revenue,
    run (createComplianceCalendar sampleNow (sampleCompany "IL")) emptyStore
    = (Ret (CalendarCreated (calendarIdOf sampleNow (sampleCompany "IL")) calendar
              nextActions projection), s')
    ∧ (run (monitorCompliance sampleCollaborators (sampleNow + JSDate.msPerDay)
              (calendarIdOf sampleNow (sampleCompany "IL"))) s').1
      = Ret (Monitored report results revenue)
    ∧ rpt_businessName report = "Acme LLC"
    ∧ rpt_state report = "IL"
    ∧ rpt_actionable report
      = List.filter (isActionable (sampleNow + JSDate.msPerDay)) (cal_events calendar)
    ∧ ar_eventId <$> results = ev_id <$> rpt_actionable report
    ∧ Forall (λ result, ar_success result = true) results.
Proof.
  refine (created_calendar_is_monitored sampleCollaborators sampleNow
            (sampleNow + JSDate.msPerDay) (sampleCompany "IL") _ emptyStore _ _).
  - reflexivity.
  - reflexivity.
Defined.
